(** * PRAGATI PATH: referral directory, proof workflow and withdrawal ledger

    A shallow embedding of the core of [PRGPATH.py].  The script keeps four
    JSON documents in memory ([data], [tasks], [withdrawals], [proof_status]);
    every button handler of the Streamlit page is one read-modify-write pass
    over them.  Each handler is embedded as a function on those documents.

    Python dictionaries iterate in insertion order and several loops of the
    script stop at the first match ([for ... break]), so a dictionary is an
    association list in insertion order; amounts are Python [int]s, hence [Z]. *)

From Stdlib Require Import List String Ascii ZArith Lia Bool Arith.
From Stdlib Require Import DecimalString DecimalZ.
From Stdlib Require DecimalNat DecimalFacts.
Import ListNotations.

Local Open Scope list_scope.
Local Open Scope string_scope.

(** ** Dictionaries in insertion order *)

Module Dict.
Section Ops.
Context {V : Type}.

Definition t := list (string * V).

(** [d[k]] / [d.get(k)] *)
Fixpoint get (k : string) (d : t) : option V :=
  match d with
  | [] => None
  | (k', v) :: rest => if k' =? k then Some v else get k rest
  end.

(** [k in d] *)
Definition mem (k : string) (d : t) : bool :=
  match get k d with Some _ => true | None => false end.

(** [d[k] = v]: an existing key keeps its position, a new key goes last. *)
Fixpoint set (k : string) (v : V) (d : t) : t :=
  match d with
  | [] => [(k, v)]
  | (k', v') :: rest =>
      if k' =? k then (k', v) :: rest else (k', v') :: set k v rest
  end.

(** [del d[k]] (callers test [k in d] first). *)
Fixpoint del (k : string) (d : t) : t :=
  match d with
  | [] => []
  | (k', v') :: rest => if k' =? k then rest else (k', v') :: del k rest
  end.

(** [d.setdefault(k, v)] used for its effect on [d]. *)
Definition setdefault (k : string) (v : V) (d : t) : t :=
  if mem k d then d else set k v d.

Definition keys (d : t) : list string := map fst d.
End Ops.
Arguments t : clear implicits.
End Dict.

(** Python truthiness of a string: only the empty string is false. *)
Definition truthy (s : string) : bool :=
  match s with EmptyString => false | String _ _ => true end.

(** ** The directory document [data] *)

Record User := mkUser {
  name : string;
  password : string;
  ref_id : string;
  ref_by : string;
  task_income : Z;
  affiliate_income : Z;
  joined : string;
  role : string
}.

Definition Users := Dict.t User.
Definition Referrals := Dict.t (list string).

Record Data := mkData {
  users : Users;
  referrals : Referrals;
  count : Z
}.

Definition ROOT : string := "ROOT".
Definition UNKNOWN : string := "UNKNOWN".

(** [f"PRG{1000 + count}"] *)
Definition generate_ref_id (count : Z) : string :=
  "PRG" ++ NilZero.string_of_int (Z.to_int (1000 + count)).

(** The document written by [load_json] when [data.json] does not exist.
    [today] stands for [str(datetime.now().date())]. *)
Definition initial_data (today : string) : Data :=
  {| users := [("admin",
                {| name := "Admin"; password := "admin123";
                   ref_id := "PRG1001"; ref_by := "ROOT";
                   task_income := 0; affiliate_income := 0;
                   joined := today; role := "admin" |})];
     referrals := [("PRG1001", [])];
     count := 1 |}.

(** The scan [for u_key, u_info in data["users"].items():
    if u_info["ref_id"] == r: ...; break] that the script repeats wherever it
    resolves a ref_id: the first entry, in insertion order, owning [r]. *)
Definition find_by_ref_id (r : string) (us : Users) : option (string * User) :=
  find (fun e => ref_id (snd e) =? r) us.

(** [find_referrer_ref_id(current_ref_id, data)]; [None] is Python's [None]. *)
Definition find_referrer_ref_id (current_ref_id : string) (us : Users)
  : option string :=
  option_map (fun e => ref_by (snd e)) (find_by_ref_id current_ref_id us).

(** The [while current_ref_by_id != "ROOT"] loop of
    [find_coadmin_for_member].  The loop has no bound of its own: [fuel]
    counts the evaluations of the loop test, and [None] means that the fuel
    ran out with the loop still running.  [referrer_info] is
    [data["users"][found_referrer_username]], the value stored under the key
    the scan stopped at. *)
Fixpoint coadmin_walk (fuel : nat) (us : Users) (current_ref_by_id : string)
  : option string :=
  match fuel with
  | O => None
  | S fuel' =>
      if current_ref_by_id =? ROOT then Some UNKNOWN
      else
        match find_by_ref_id current_ref_by_id us with
        | Some (found_referrer_username, referrer_info) =>
            if truthy found_referrer_username then
              if role referrer_info =? "coadmin"
              then Some found_referrer_username
              else coadmin_walk fuel' us (ref_by referrer_info)
            else Some UNKNOWN
        | None => Some UNKNOWN
        end
  end.

Definition find_coadmin_for_member (fuel : nat) (member_username : string)
    (d : Data) : option string :=
  match Dict.get member_username (users d) with
  | None => Some UNKNOWN
  | Some current_user_data => coadmin_walk fuel (users d) (ref_by current_user_data)
  end.

(** ** Registration *)

(** What a handler does with the documents it was given: it completes and
    saves new documents, it reports a message and saves nothing
    ([return False, msg], [st.error], [st.info]), or it raises. *)
Inductive Outcome (A : Type) : Type :=
| Done (a : A)
| Rejected (msg : string)
| Raised (exn : string).
Arguments Done {A} a.
Arguments Rejected {A} msg.
Arguments Raised {A} exn.

(** The successful return of [register_user]: the saved directory and the two
    values its message is formatted from. *)
Record Registration := mkRegistration {
  reg_data : Data;
  reg_ref_id : string;
  reg_role : string
}.

Definition level_payouts : list Z := [20; 20; 20; 25; 30; 35; 40; 60]%Z.

Definition credit_affiliate (amount : Z) (u : User) : User :=
  {| name := name u; password := password u; ref_id := ref_id u;
     ref_by := ref_by u; task_income := task_income u;
     affiliate_income := (affiliate_income u + amount)%Z;
     joined := joined u; role := role u |}.

(** The body of [for level in range(8)]; [levels] is what is left of the
    range.  Every scan runs over the users as already credited. *)
Fixpoint affiliate_loop (levels : list nat) (current_ref : string) (us : Users)
  : Users :=
  match levels with
  | [] => us
  | level :: rest =>
      match find_by_ref_id current_ref us with
      | Some (found_referrer_user_key, info) =>
          if truthy found_referrer_user_key then
            let us' :=
              Dict.set found_referrer_user_key
                (credit_affiliate (nth level level_payouts 0%Z) info) us in
            match find_referrer_ref_id current_ref us' with
            | None => us'
            | Some next_ref =>
                if next_ref =? ROOT then us' else affiliate_loop rest next_ref us'
            end
          else us
      | None => us
      end
  end.

(** [if explicit_role:] *)
Definition supplied (explicit_role : option string) : option string :=
  match explicit_role with
  | Some r => if truthy r then Some r else None
  | None => None
  end.

Definition determine_role (referral_id : string) (explicit_role : option string)
    (us : Users) : string :=
  match supplied explicit_role with
  | Some r => r
  | None =>
      if referral_id =? "PRG1001" then "coadmin"
      else
        match find_by_ref_id referral_id us with
        | Some (referrer_username, referrer) =>
            if truthy referrer_username && (role referrer =? "coadmin")
            then "member" else "member"
        | None => "member"
        end
  end.

(** [register_user(name, username, password, referral_id, explicit_role)] on
    the directory [d]. *)
Definition register_user (name_ username password_ referral_id : string)
    (explicit_role : option string) (today : string) (d : Data)
  : Outcome Registration :=
  if Dict.mem username (users d) then Rejected "Username already exists."
  else if negb (Dict.mem referral_id (referrals d))
          && negb (referral_id =? "PRG1001")
  then Rejected "Invalid referral ID."
  else if (referral_id =? ROOT) && negb (username =? "admin")
  then Rejected "Cannot register directly under ROOT."
  else
    let actual_role_for_new_user :=
      determine_role referral_id explicit_role (users d) in
    let new_ref_id := generate_ref_id (count d) in
    let users1 :=
      Dict.set username
        {| name := name_; password := password_; ref_id := new_ref_id;
           ref_by := referral_id; task_income := 0; affiliate_income := 0;
           joined := today; role := actual_role_for_new_user |} (users d) in
    let referrals1 := Dict.setdefault new_ref_id [] (referrals d) in
    match Dict.get referral_id referrals1 with
    | None => Raised "KeyError"
    | Some children =>
        let referrals2 :=
          Dict.set referral_id (children ++ [new_ref_id])%list referrals1 in
        let users2 :=
          if actual_role_for_new_user =? "member"
          then affiliate_loop (seq 0 8) referral_id users1
          else users1 in
        Done {| reg_data := {| users := users2; referrals := referrals2;
                               count := (count d + 1)%Z |};
                reg_ref_id := new_ref_id;
                reg_role := actual_role_for_new_user |}
    end.

(** [st.session_state]: the record of the logged-in user is the copy taken
    at login. *)
Record Session := mkSession {
  logged_in : bool;
  session_user : option User;
  session_username : option string
}.

(** The role selector of the registration form: a select box with the two
    options [coadmin] and [member], shown only to a logged-in admin who typed
    their own ref_id.  [selected] is the option chosen; [None] is the value
    the variable keeps when the box is not shown. *)
Definition role_options : list string := ["coadmin"; "member"].

Inductive role_option : Type := coadmin_option | member_option.

Definition option_label (o : role_option) : string :=
  match o with coadmin_option => "coadmin" | member_option => "member" end.

Definition explicit_role_selection_by_admin (s : Session) (ref : string)
    (selected : role_option) : option string :=
  match session_user s with
  | Some u =>
      if logged_in s && (role u =? "admin") && (ref =? ref_id u)
      then Some (option_label selected) else None
  | None => None
  end.

(** A button that the page does not show cannot be pressed. *)
Inductive Pressed (A : Type) : Type :=
| NotOffered
| Pressing (o : Outcome A).
Arguments NotOffered {A}.
Arguments Pressing {A} o.

(** The [Register Now] button.  The form stands in the branch
    [if not st.session_state.logged_in] of the script: a logged-in user has no
    registration form. *)
Definition register_form (s : Session) (name_ new_user new_pass ref : string)
    (selected : role_option) (today : string) (d : Data)
  : Pressed Registration :=
  if negb (logged_in s) then
    Pressing
      (if negb (truthy name_) || negb (truthy new_user)
          || negb (truthy new_pass) || negb (truthy ref)
       then Rejected "Please fill all registration fields."
       else register_user name_ new_user new_pass ref
              (explicit_role_selection_by_admin s ref selected) today d)
  else NotOffered.

(** The [Add Member] button of a coadmin ([mem_password] is the generated
    password). *)
Definition add_member_form (own_ref_id mem_name mem_username mem_password : string)
    (today : string) (d : Data) : Outcome Registration :=
  if negb (truthy mem_name) || negb (truthy mem_username)
  then Rejected "Please fill full name and username."
  else register_user mem_name mem_username mem_password own_ref_id None today d.

(** ** My Members: deleting a direct member *)

Definition my_direct_members (own_ref_id : string) (d : Data)
  : list (string * User) :=
  filter (fun e => (ref_by (snd e) =? own_ref_id) && (role (snd e) =? "member"))
         (users d).

(** [list.remove(x)]: the first occurrence goes. *)
Fixpoint list_remove (x : string) (l : list string) : list string :=
  match l with
  | [] => []
  | y :: rest => if y =? x then rest else y :: list_remove x rest
  end.

(** The [Confirm Delete] button shown for the entry [(member_username,
    member_info)] of [my_direct_members]. *)
Definition delete_member (own_ref_id member_username : string)
    (member_info : User) (d : Data) : Data :=
  let referrals1 :=
    if Dict.mem (ref_id member_info) (referrals d)
    then Dict.del (ref_id member_info) (referrals d) else referrals d in
  let referrals2 :=
    match Dict.get own_ref_id referrals1 with
    | Some children =>
        if existsb (String.eqb (ref_id member_info)) children
        then Dict.set own_ref_id (list_remove (ref_id member_info) children)
               referrals1
        else referrals1
    | None => referrals1
    end in
  let users1 :=
    if Dict.mem member_username (users d)
    then Dict.del member_username (users d) else users d in
  {| users := users1; referrals := referrals2; count := count d |}.

(** ** Tasks, proof submissions and withdrawal requests *)

Module Task.
Record t := mk {
  title : string;
  description : string;
  payout : Z;
  created_by : string;
  created_date : string
}.
End Task.

Module Submission.
Record t := mk {
  task_title : string;
  task_payout : Z;
  member_username : string;
  proof_file : string;
  status : string;
  submitted_date : string;
  coadmin_username : string;
  approved_by_admin : bool
}.

Definition with_status (s : string) (p : t) : t :=
  {| task_title := task_title p; task_payout := task_payout p;
     member_username := member_username p; proof_file := proof_file p;
     status := s; submitted_date := submitted_date p;
     coadmin_username := coadmin_username p;
     approved_by_admin := approved_by_admin p |}.

Definition with_approved_by_admin (b : bool) (p : t) : t :=
  {| task_title := task_title p; task_payout := task_payout p;
     member_username := member_username p; proof_file := proof_file p;
     status := status p; submitted_date := submitted_date p;
     coadmin_username := coadmin_username p;
     approved_by_admin := b |}.
End Submission.

Module Withdrawal.
Record t := mk {
  request_id : string;
  username : string;
  name : string;
  upi : string;
  amount : Z;
  date : string;
  status : string
}.

Definition with_status (s : string) (w : t) : t :=
  {| request_id := request_id w; username := username w; name := name w;
     upi := upi w; amount := amount w; date := date w; status := s |}.
End Withdrawal.

Definition ProofStatus := Dict.t Submission.t.

(** The four documents. *)
Record State := mkState {
  data : Data;
  tasks : list Task.t;
  withdrawals : list Withdrawal.t;
  proof_status : ProofStatus
}.

Definition with_data (d : Data) (s : State) : State :=
  {| data := d; tasks := tasks s; withdrawals := withdrawals s;
     proof_status := proof_status s |}.
Definition with_proof_status (p : ProofStatus) (s : State) : State :=
  {| data := data s; tasks := tasks s; withdrawals := withdrawals s;
     proof_status := p |}.
Definition with_withdrawals (w : list Withdrawal.t) (s : State) : State :=
  {| data := data s; tasks := tasks s; withdrawals := w;
     proof_status := proof_status s |}.

(** *** Tasks menu: submitting a proof *)

(** The scan that sets [proof_exists_for_task] and
    [current_proof_status_for_task]. *)
Definition proof_exists_for_task (username : string) (t : Task.t)
    (ps : ProofStatus) : option string :=
  option_map (fun e => Submission.status (snd e))
    (find (fun e => (Submission.member_username (snd e) =? username)
                    && (Submission.task_title (snd e) =? Task.title t)) ps).

(** [s.replace(' ', '_')] *)
Fixpoint replace_spaces (s : string) : string :=
  match s with
  | EmptyString => EmptyString
  | String c rest =>
      String (if Ascii.eqb c " "%char then "_"%char else c) (replace_spaces rest)
  end.

Inductive SubmitResult : Type :=
| AlreadySubmitted (current_status : string)
| UploadError
| StillWalking
| Submitted (key : string) (ps : ProofStatus).

(** The uploader of task [t] receiving a file.  [now] is the timestamp
    [%Y%m%d%H%M%S], [today] the date, [file_extension] the lower-cased
    extension of the upload, [write_ok] whether writing the file succeeded;
    [fuel] bounds the coadmin walk ([StillWalking] when it runs out). *)
Definition submit_proof (fuel : nat) (username : string) (t : Task.t)
    (file_extension : string) (write_ok : bool) (now today : string)
    (s : State) : SubmitResult :=
  match proof_exists_for_task username t (proof_status s) with
  | Some current_status => AlreadySubmitted current_status
  | None =>
      let unique_key_for_proof :=
        username ++ "_" ++ replace_spaces (Task.title t) ++ "_" ++ now in
      let fname := "proofs/" ++ unique_key_for_proof ++ file_extension in
      if write_ok then
        match find_coadmin_for_member fuel username (data s) with
        | None => StillWalking
        | Some responsible_coadmin_username =>
            Submitted unique_key_for_proof
              (Dict.set unique_key_for_proof
                 {| Submission.task_title := Task.title t;
                    Submission.task_payout := Task.payout t;
                    Submission.member_username := username;
                    Submission.proof_file := fname;
                    Submission.status := "Pending";
                    Submission.submitted_date := today;
                    Submission.coadmin_username := responsible_coadmin_username;
                    Submission.approved_by_admin := false |}
                 (proof_status s))
        end
      else UploadError
  end.

(** *** Coadmin: Approve Proofs *)

Definition pending_proofs_for_coadmin (coadmin : string) (ps : ProofStatus)
  : ProofStatus :=
  filter (fun e => (Submission.status (snd e) =? "Pending")
                   && (Submission.coadmin_username (snd e) =? coadmin)) ps.

Definition credit_task (amount : Z) (u : User) : User :=
  {| name := name u; password := password u; ref_id := ref_id u;
     ref_by := ref_by u; task_income := (task_income u + amount)%Z;
     affiliate_income := affiliate_income u;
     joined := joined u; role := role u |}.

(** The [Approve Task] button of the entry [key]. *)
Definition approve_task (coadmin key : string) (s : State) : Pressed State :=
  match Dict.get key (pending_proofs_for_coadmin coadmin (proof_status s)) with
  | None => NotOffered
  | Some value =>
      let member_user := Submission.member_username value in
      let task_amount := Submission.task_payout value in
      match Dict.get member_user (users (data s)) with
      | Some u =>
          Pressing (Done
            (with_proof_status
               (Dict.set key (Submission.with_status "Approved By Coadmin" value)
                  (proof_status s))
               (with_data
                  {| users := Dict.set member_user (credit_task task_amount u)
                                (users (data s));
                     referrals := referrals (data s);
                     count := count (data s) |} s)))
      | None => Pressing (Rejected "Member not found in database.")
      end
  end.

(** The [Deny Task] button of the entry [key]. *)
Definition deny_task (coadmin key : string) (s : State) : Pressed State :=
  match Dict.get key (pending_proofs_for_coadmin coadmin (proof_status s)) with
  | None => NotOffered
  | Some value =>
      Pressing (Done
        (with_proof_status
           (Dict.set key (Submission.with_status "Denied By Coadmin" value)
              (proof_status s)) s))
  end.

(** *** Admin: Manage Proofs *)

Definition approved_by_coadmin_proofs (ps : ProofStatus) : ProofStatus :=
  filter (fun e => Submission.status (snd e) =? "Approved By Coadmin") ps.

(** The [Confirm Admin Review] button of the entry [key]. *)
Definition admin_confirm (key : string) (s : State) : Pressed State :=
  match Dict.get key (approved_by_coadmin_proofs (proof_status s)) with
  | None => NotOffered
  | Some value =>
      if negb (Submission.approved_by_admin value) then
        Pressing (Done
          (with_proof_status
             (Dict.set key
                (Submission.with_status "Approved By Admin"
                   (Submission.with_approved_by_admin true value))
                (proof_status s)) s))
      else NotOffered
  end.

(** *** Withdrawals *)

Definition NoBalance : string := "You have no balance to withdraw.".

(** [current_user_data.get('affiliate_income', 0) +
    current_user_data.get('task_income', 0)] with
    [current_user_data = data["users"].get(username, {})]. *)
Definition total_withdrawable_amount (username : string) (d : Data) : Z :=
  match Dict.get username (users d) with
  | Some u => (affiliate_income u + task_income u)%Z
  | None => (0 + 0)%Z
  end.

Definition reset_balances (u : User) : User :=
  {| name := name u; password := password u; ref_id := ref_id u;
     ref_by := ref_by u; task_income := 0; affiliate_income := 0;
     joined := joined u; role := role u |}.

(** [str(n)] for a length. *)
Definition str_of_nat (n : nat) : string :=
  NilZero.string_of_uint (Nat.to_uint n).

(** The Withdrawals page for the session of [username] ([user] is the
    session's copy of the record), with [upi] typed and the
    [Request Withdrawal] button pressed. *)
Definition request_withdrawal (username : string) (user : User)
    (upi now today : string) (s : State) : Outcome State :=
  let total := total_withdrawable_amount username (data s) in
  if (total <=? 0)%Z then Rejected NoBalance
  else if negb (truthy upi) then Rejected "Please enter your UPI ID."
  else
    let request :=
      {| Withdrawal.request_id :=
           "WDR" ++ str_of_nat (List.length (withdrawals s) + 1) ++ "-" ++ now;
         Withdrawal.username := username;
         Withdrawal.name := name user;
         Withdrawal.upi := upi;
         Withdrawal.amount := total;
         Withdrawal.date := today;
         Withdrawal.status := "Pending" |} in
    match Dict.get username (users (data s)) with
    | None => Raised "KeyError"
    | Some u =>
        Done (with_withdrawals (withdrawals s ++ [request])%list
                (with_data
                   {| users := Dict.set username (reset_balances u)
                                 (users (data s));
                      referrals := referrals (data s);
                      count := count (data s) |} s))
    end.

Definition pending_withdrawals (ws : list Withdrawal.t) : list Withdrawal.t :=
  filter (fun w => Withdrawal.status w =? "Pending") ws.

(** [for w in withdrawals: if w["request_id"] == rid: w["status"] = new;
    break] *)
Fixpoint set_status_of (rid new_status : string) (ws : list Withdrawal.t)
  : list Withdrawal.t :=
  match ws with
  | [] => []
  | w :: rest =>
      if Withdrawal.request_id w =? rid
      then Withdrawal.with_status new_status w :: rest
      else w :: set_status_of rid new_status rest
  end.

Inductive outcome := paid | cancelled.

Definition status_of_outcome (o : outcome) : string :=
  match o with paid => "Paid" | cancelled => "Cancelled" end.

(** The [Mark as Paid] and [Cancel Request] buttons of the [i]-th entry of
    [pending_withdrawals].  The refund of a cancelled request is commented
    out in the script: neither button touches [data]. *)
Definition settle (i : nat) (o : outcome) (s : State) : Pressed State :=
  match nth_error (pending_withdrawals (withdrawals s)) i with
  | None => NotOffered
  | Some req =>
      Pressing (Done
        (with_withdrawals
           (set_status_of (Withdrawal.request_id req) (status_of_outcome o)
              (withdrawals s)) s))
  end.

(** ** The mutating operations as one transition function *)

Inductive action : Type :=
| Register (s : Session) (name_ new_user new_pass ref : string)
    (selected : role_option) (today : string)
| AddMember (own_ref_id mem_name mem_username mem_password today : string)
| DeleteMember (own_ref_id : string) (i : nat)
| ApproveTask (coadmin key : string)
| DenyTask (coadmin key : string)
| AdminConfirm (key : string)
| RequestWithdrawal (username : string) (user : User) (upi now today : string)
| Settle (i : nat) (o : outcome).

Definition saved {A : Type} (o : Outcome A) : option A :=
  match o with Done a => Some a | _ => None end.

Definition saved_press {A : Type} (p : Pressed A) : option A :=
  match p with Pressing o => saved o | NotOffered => None end.

(** The documents after the action, when the action is on offer and runs to
    its [save_json]. *)
Definition run (a : action) (s : State) : option State :=
  match a with
  | Register ses n u p r sel today =>
      option_map (fun reg => with_data (reg_data reg) s)
        (saved_press (register_form ses n u p r sel today (data s)))
  | AddMember own n u p today =>
      option_map (fun reg => with_data (reg_data reg) s)
        (saved (add_member_form own n u p today (data s)))
  | DeleteMember own i =>
      option_map
        (fun e => with_data (delete_member own (fst e) (snd e) (data s)) s)
        (nth_error (my_direct_members own (data s)) i)
  | ApproveTask c k => saved_press (approve_task c k s)
  | DenyTask c k => saved_press (deny_task c k s)
  | AdminConfirm k => saved_press (admin_confirm k s)
  | RequestWithdrawal u usr upi now today =>
      saved (request_withdrawal u usr upi now today s)
  | Settle i o => saved_press (settle i o s)
  end.

(** ** The properties the handlers are checked against *)

Definition with_tasks (ts : list Task.t) (s : State) : State :=
  {| data := data s; tasks := ts; withdrawals := withdrawals s;
     proof_status := proof_status s |}.

(** [data["referrals"].get(r, [])]: the direct children of a node. *)
Definition children (rs : Referrals) (r : string) : list string :=
  match Dict.get r rs with Some l => l | None => [] end.

(** [c] is below [p] in the referral mapping. *)
Inductive descendant (rs : Referrals) : string -> string -> Prop :=
| desc_child p c : In c (children rs p) -> descendant rs p c
| desc_step p c x :
    In c (children rs p) -> descendant rs c x -> descendant rs p x.

(** Every downward path from [r] has fewer than [n] edges. *)
Fixpoint depth_below (rs : Referrals) (n : nat) (r : string) : bool :=
  match n with
  | O => false
  | S n' => forallb (depth_below rs n') (children rs r)
  end.

(** What the directory invariants read of a user entry: the username and
    the three fields that no handler ever rewrites. *)
Definition Link : Type := string * (string * string * string).

Definition link (e : string * User) : Link :=
  (fst e, (ref_id (snd e), ref_by (snd e), role (snd e))).

Definition links (us : Users) : list Link := map link us.

Definition l_ref_id (e : Link) : string := fst (fst (snd e)).
Definition l_ref_by (e : Link) : string := snd (fst (snd e)).
Definition l_role (e : Link) : string := snd (snd e).

(** The data-model invariants, on the links [ls] of the users, the referral
    mapping [rs] and the counter [c].  The first three say that the two
    mappings are dictionaries and that usernames are not empty (both
    registration forms refuse an empty username); the rest is the data model:
    the bootstrap admin, ref_ids unique and issued below the counter, and the
    referral mapping a forest that mirrors the [ref_by] pointers. *)
Record forest_inv (ls : list Link) (rs : Referrals) (c : Z) : Prop := {
  inv_user_keys : NoDup (map fst ls);
  inv_referral_keys : NoDup (Dict.keys rs);
  inv_usernames : forall e, In e ls -> truthy (fst e) = true;
  inv_admin : In ("admin", ("PRG1001", ROOT, "admin")) ls;
  inv_root_is_admin :
    forall e, In e ls -> l_ref_by e = ROOT -> fst e = "admin";
  inv_ref_ids_unique : NoDup (map l_ref_id ls);
  inv_counter :
    forall e, In e ls ->
      exists j, (j < c)%Z /\ l_ref_id e = generate_ref_id j;
  inv_ref_id_is_key : forall e, In e ls -> In (l_ref_id e) (Dict.keys rs);
  inv_key_is_owned :
    forall r, In r (Dict.keys rs) -> exists e, In e ls /\ l_ref_id e = r;
  inv_child_once :
    forall e, In e ls -> l_ref_by e <> ROOT ->
      count_occ string_dec (children rs (l_ref_by e)) (l_ref_id e) = 1;
  inv_child_of_parent :
    forall p c0, In c0 (children rs p) ->
      exists e, In e ls /\ l_ref_id e = c0 /\ l_ref_by e = p;
  inv_acyclic : exists n, forall r, depth_below rs n r = true
}.

Definition directory_inv (d : Data) : Prop :=
  forest_inv (links (users d)) (referrals d) (count d).

(** The invariants in the words of the data model. *)
Definition ref_by_resolves (d : Data) : Prop :=
  forall k u, In (k, u) (users d) -> role u <> "admin" ->
    exists k' u', In (k', u') (users d) /\ ref_id u' = ref_by u.

Definition referral_forest (d : Data) : Prop :=
  (forall r, ~ descendant (referrals d) r r)
  /\ (forall k u, In (k, u) (users d) ->
        ref_id u = "PRG1001" \/ descendant (referrals d) "PRG1001" (ref_id u))
  /\ (forall k u, In (k, u) (users d) ->
        In (ref_id u) (Dict.keys (referrals d)))
  /\ (forall k u, In (k, u) (users d) -> role u <> "admin" ->
        count_occ string_dec (children (referrals d) (ref_by u)) (ref_id u) = 1).

(** The member [mi] has a downline: somebody was referred by it. *)
Definition has_downline (mi : User) (d : Data) : Prop :=
  exists k u, In (k, u) (users d) /\ ref_by u = ref_id mi.

(** [nearestCoadmin] in the words of the specification: walk the [ref_by]
    pointers from [r]; the answer is the first owner met whose role is
    coadmin, and the sentinel when the walk reaches [ROOT] or a ref_id that
    nobody owns.  The sentinel of the script is the string [UNKNOWN]. *)
Inductive nearest_from (us : Users) : string -> string -> Prop :=
| nearest_root : nearest_from us ROOT UNKNOWN
| nearest_broken r :
    r <> ROOT -> (forall k u, In (k, u) us -> ref_id u <> r) ->
    nearest_from us r UNKNOWN
| nearest_found r k u :
    r <> ROOT -> In (k, u) us -> ref_id u = r -> role u = "coadmin" ->
    nearest_from us r k
| nearest_up r k u a :
    r <> ROOT -> In (k, u) us -> ref_id u = r -> role u <> "coadmin" ->
    nearest_from us (ref_by u) a ->
    nearest_from us r a.

Definition nearestCoadmin (d : Data) (member answer : string) : Prop :=
  exists m, In (member, m) (users d)
            /\ nearest_from (users d) (ref_by m) answer.

(** The upline of a referral id: the usernames met by walking [ref_by]
    upward from [r], at most [n] of them, ending at [ROOT] or at a ref_id
    that does not resolve.  Position [0] is level 1, the direct referrer. *)
Fixpoint upline (n : nat) (us : Users) (r : string) : list string :=
  match n with
  | O => []
  | S n' =>
      if r =? ROOT then []
      else match find_by_ref_id r us with
           | Some (k, u) => k :: upline n' us (ref_by u)
           | None => []
           end
  end.

(** What the schedule [amounts] pays to [k] along [chain]: the amount of
    every level at which [k] stands. *)
Fixpoint credits (chain : list string) (amounts : list Z) (k : string) : Z :=
  match chain, amounts with
  | c :: chain', a :: amounts' =>
      Z.add (if c =? k then a else 0%Z) (credits chain' amounts' k)
  | _, _ => 0%Z
  end.

(** Executable forms of the two conditions under which the walk to the
    nearest coadmin ends. *)
Definition listed_under_referrer (d : Data) : bool :=
  forallb (fun e => (ref_by (snd e) =? ROOT)
                    || existsb (String.eqb (ref_id (snd e)))
                         (children (referrals d) (ref_by (snd e))))
          (users d).

Definition forest_depth_below (rs : Referrals) (n : nat) : bool :=
  (0 <? n)%nat && forallb (depth_below rs n) (Dict.keys rs).

(** What settling does to the ledger when request ids are unique: the
    request of that id takes the new status, the others stay. *)
Definition restatus (rid st : string) (w : Withdrawal.t) : Withdrawal.t :=
  if Withdrawal.request_id w =? rid then Withdrawal.with_status st w else w.

(** ** Sample documents *)

Definition ledger_state (us : Users) : State :=
  {| data := {| users := us; referrals := [("PRG1001", [])]; count := 2 |};
     tasks := []; withdrawals := []; proof_status := [] |}.

Definition sample_submission (st : string) : Submission.t :=
  {| Submission.task_title := "Watch video"; Submission.task_payout := 100;
     Submission.member_username := "asha";
     Submission.proof_file := "proofs/asha_Watch_video_20250101120000.png";
     Submission.status := st; Submission.submitted_date := "2025-01-01";
     Submission.coadmin_username := "chitra";
     Submission.approved_by_admin := false |}.

Definition sample_task : Task.t :=
  {| Task.title := "Watch video"; Task.description := "Watch and report";
     Task.payout := 100; Task.created_by := "chitra";
     Task.created_date := "2025-01-01" |}.

Definition workflow_state (us : Users) (ps : ProofStatus) : State :=
  {| data := {| users := us; referrals := [("PRG1001", [])]; count := 2 |};
     tasks := [sample_task]; withdrawals := []; proof_status := ps |}.

Definition sample_users : Users :=
  [("admin", mkUser "Admin" "admin123" "PRG1001" "ROOT" 0 0 "2025-01-01" "admin");
   ("chitra", mkUser "Chitra" "pw" "PRG1002" "PRG1001" 0 20 "2025-01-01" "coadmin");
   ("asha", mkUser "Asha" "pw" "PRG1003" "PRG1002" 0 0 "2025-01-02" "member")].

Definition sample_ledger : list Withdrawal.t :=
  [ {| Withdrawal.request_id := "WDR1-20250102101500";
       Withdrawal.username := "chitra"; Withdrawal.name := "Chitra";
       Withdrawal.upi := "chitra@upi"; Withdrawal.amount := 40;
       Withdrawal.date := "2025-01-02"; Withdrawal.status := "Paid" |};
    {| Withdrawal.request_id := "WDR2-20250103101500";
       Withdrawal.username := "asha"; Withdrawal.name := "Asha";
       Withdrawal.upi := "asha@upi"; Withdrawal.amount := 100;
       Withdrawal.date := "2025-01-03"; Withdrawal.status := "Pending" |} ].

Definition sample_key : string := "asha_Watch_video_20250103090000".

(** The proof documents after asha uploads a proof for [sample_task]. *)
Definition submitted_state : State :=
  match submit_proof 10 "asha" sample_task ".png" true "20250103090000"
          "2025-01-03" (workflow_state sample_users []) with
  | Submitted _ ps => workflow_state sample_users ps
  | _ => workflow_state sample_users []
  end.

(** A damaged directory: two members that name each other as referrer. *)
Definition cyclic_data : Data :=
  {| users :=
       [("admin", mkUser "Admin" "admin123" "PRG1001" "ROOT" 0 0 "2025-01-01" "admin");
        ("bela", mkUser "Bela" "pw" "PRG1002" "PRG1003" 0 0 "2025-01-02" "member");
        ("dev", mkUser "Dev" "pw" "PRG1003" "PRG1002" 0 0 "2025-01-02" "member")];
     referrals := [("PRG1001", []); ("PRG1002", ["PRG1003"]); ("PRG1003", ["PRG1002"])];
     count := 4 |}.

Definition sample_data : Data :=
  {| users := sample_users;
     referrals := [("PRG1001", ["PRG1002"]); ("PRG1002", ["PRG1003"]); ("PRG1003", [])];
     count := 4 |}.

(** A directory ten levels deep: the admin, the coadmin chitra, and the
    members m2 ... m9, each referred by the one before. *)
Definition deep_data : Data :=
  {| users :=
       [("admin", mkUser "Admin" "admin123" "PRG1001" "ROOT" 0 0 "2025-01-01" "admin");
        ("chitra", mkUser "Chitra" "pw" "PRG1002" "PRG1001" 0 0 "2025-01-01" "coadmin");
        ("m2", mkUser "M2" "pw" "PRG1003" "PRG1002" 0 0 "2025-01-02" "member");
        ("m3", mkUser "M3" "pw" "PRG1004" "PRG1003" 0 0 "2025-01-02" "member");
        ("m4", mkUser "M4" "pw" "PRG1005" "PRG1004" 0 0 "2025-01-02" "member");
        ("m5", mkUser "M5" "pw" "PRG1006" "PRG1005" 0 0 "2025-01-02" "member");
        ("m6", mkUser "M6" "pw" "PRG1007" "PRG1006" 0 0 "2025-01-02" "member");
        ("m7", mkUser "M7" "pw" "PRG1008" "PRG1007" 0 0 "2025-01-02" "member");
        ("m8", mkUser "M8" "pw" "PRG1009" "PRG1008" 0 0 "2025-01-02" "member");
        ("m9", mkUser "M9" "pw" "PRG1010" "PRG1009" 0 0 "2025-01-02" "member")];
     referrals :=
       [("PRG1001", ["PRG1002"]); ("PRG1002", ["PRG1003"]);
        ("PRG1003", ["PRG1004"]); ("PRG1004", ["PRG1005"]);
        ("PRG1005", ["PRG1006"]); ("PRG1006", ["PRG1007"]);
        ("PRG1007", ["PRG1008"]); ("PRG1008", ["PRG1009"]);
        ("PRG1009", ["PRG1010"]); ("PRG1010", [])];
     count := 11 |}.




(** The users after crediting [amount] of affiliate income to [k0]. *)
Definition bump (k0 : string) (amount : Z) (us : Users) : Users :=
  map (fun e => if fst e =? k0
                then (fst e, credit_affiliate amount (snd e)) else e) us.

(** The record [register_user] stores for the new user. *)
Definition newcomer (name_ password_ new_ref_id referral_id today role_ : string)
  : User :=
  {| name := name_; password := password_; ref_id := new_ref_id;
     ref_by := referral_id; task_income := 0; affiliate_income := 0;
     joined := today; role := role_ |}.

(** The role the specification prescribes for a registration. *)
Definition prescribed_role (referral_id : string) (explicit_role : option string)
  : string :=
  match supplied explicit_role with
  | Some r => r
  | None => if referral_id =? "PRG1001" then "coadmin" else "member"
  end.

(** The referral mapping after a registration under [referral] that issues
    the unused ref_id [new]. *)
Definition registered (rs : Referrals) (referral new : string) : Referrals :=
  Dict.set referral (children rs referral ++ [new])%list (Dict.set new [] rs).

(** The links and the referral mapping after the member of username [mu],
    ref_id [M] and referrer [P] is deleted. *)
Definition deleted_links (mu : string) (ls : list Link) : list Link :=
  filter (fun e => negb (fst e =? mu)) ls.

Definition deleted_referrals (rs : Referrals) (P M : string) : Referrals :=
  Dict.set P (list_remove M (children rs P))
    (filter (fun e => negb (fst e =? M)) rs).

(** The bootstrap directory with the counter past the admin's ref_id. *)
Definition bootstrap_data (today : string) : Data :=
  {| users := users (initial_data today);
     referrals := referrals (initial_data today);
     count := 2 |}.

(** The directory saved by a registration, the directory as it was when the
    registration is refused. *)
Definition registered_data (name_ username password_ referral_id : string)
    (explicit_role : option string) (today : string) (d : Data) : Data :=
  match register_user name_ username password_ referral_id explicit_role
          today d with
  | Done reg => reg_data reg
  | _ => d
  end.

(** admin, the coadmin chitra, her member asha and asha's member binod. *)
Definition chain_data : Data :=
  registered_data "Binod" "binod" "pw" "PRG1003" None "2025-01-04"
    (registered_data "Asha" "asha" "pw" "PRG1002" None "2025-01-02"
       (registered_data "Chitra" "chitra" "pw" "PRG1001" None "2025-01-01"
          (bootstrap_data "2025-01-01"))).

Definition state_of (d : Data) : State :=
  {| data := d; tasks := []; withdrawals := []; proof_status := [] |}.



(** ** Login, menu and the read-only pages *)

(** [login_user(username, password)]; [None] is [(False, None)]. *)
Definition login_user (username password_ : string) (d : Data) : option User :=
  match Dict.get username (users d) with
  | Some u => if password u =? password_ then Some u else None
  | None => None
  end.

(** [l.insert(i, x)] *)
Definition list_insert {A : Type} (i : nat) (x : A) (l : list A) : list A :=
  (firstn i l ++ x :: skipn i l)%list.

(** The sidebar menu of a logged-in user whose session record has role
    [role_]. *)
Definition menu_options (role_ : string) : list string :=
  let base := ["Dashboard"; "Wallet"; "Withdrawals"] in
  if role_ =? "admin" then
    list_insert 1 "Manage Withdrawals"
      (list_insert 1 "Task Manager"
         (list_insert 1 "Admin: Manage Proofs"
            (list_insert 1 "Visual Tree"
               (list_insert 1 "All Coadmins" base))))
  else if role_ =? "coadmin" then
    list_insert 1 "Task Manager"
      (list_insert 1 "Coadmin: Approve Proofs"
         (list_insert 1 "My Members" base))
  else if role_ =? "member" then list_insert 1 "Tasks" base
  else base.

Inductive page : Type :=
| DashboardPage | TaskManagerPage | TasksPage | WalletPage | WithdrawalsPage
| ManageWithdrawalsPage | MyMembersPage | CoadminApprovePage
| AdminProofsPage | AllCoadminsPage | VisualTreePage.

(** The [if menu == ... elif ...] chain of the dashboard: the page rendered
    for the chosen menu entry, [None] when no branch applies. *)
Definition render (menu role_ : string) : option page :=
  if menu =? "Dashboard" then Some DashboardPage
  else if (menu =? "Task Manager")
          && existsb (String.eqb role_) ["admin"; "coadmin"]
  then Some TaskManagerPage
  else if menu =? "Tasks" then Some TasksPage
  else if menu =? "Wallet" then Some WalletPage
  else if menu =? "Withdrawals" then Some WithdrawalsPage
  else if (menu =? "Manage Withdrawals") && (role_ =? "admin")
  then Some ManageWithdrawalsPage
  else if (menu =? "My Members") && (role_ =? "coadmin")
  then Some MyMembersPage
  else if (menu =? "Coadmin: Approve Proofs") && (role_ =? "coadmin")
  then Some CoadminApprovePage
  else if (menu =? "Admin: Manage Proofs") && (role_ =? "admin")
  then Some AdminProofsPage
  else if (menu =? "All Coadmins") && (role_ =? "admin")
  then Some AllCoadminsPage
  else if (menu =? "Visual Tree") && (role_ =? "admin")
  then Some VisualTreePage
  else None.

(** [count_team(ref, current_data, level)] of the Dashboard.  The recursion
    stops at [level > 8]; [budget] is the number of levels still counted,
    [9 - level]. *)
Fixpoint team (budget : nat) (rs : Referrals) (ref : string) : nat :=
  match budget with
  | O => 0
  | S budget' =>
      fold_left (fun count_ child => count_ + team budget' rs child)
        (children rs ref) (List.length (children rs ref))
  end.

Definition count_team (ref : string) (d : Data) (level : nat) : nat :=
  team (9 - level) (referrals d) ref.

(** The Dashboard figures of the user whose session record is [user]. *)
Definition direct_referrals (user : User) (d : Data) : nat :=
  List.length (children (referrals d) (ref_id user)).

Definition total_team (user : User) (d : Data) : nat :=
  count_team (ref_id user) d 1.

(** The [Processed Withdrawals] list of the admin. *)
Definition processed_withdrawals (ws : list Withdrawal.t) : list Withdrawal.t :=
  filter (fun w => negb (Withdrawal.status w =? "Pending")) ws.

(** All Coadmins: the coadmins, and the direct members shown under the
    coadmin whose record is [info]. *)
Definition coadmins (d : Data) : Users :=
  filter (fun e => role (snd e) =? "coadmin") (users d).

Definition members_under (info : User) (d : Data) : list User :=
  filter (fun m => (ref_by m =? ref_id info) && (role m =? "member"))
    (map snd (users d)).

(** The Task Manager form ([payout] is the value of the number input). *)
Definition add_task (title desc : string) (payout : Z) (username today : string)
    (ts : list Task.t) : Outcome (list Task.t) :=
  if negb (truthy title) || negb (truthy desc) || (payout =? 0)%Z
  then Rejected "Please fill all task details."
  else Done (ts ++ [ {| Task.title := title; Task.description := desc;
                        Task.payout := payout; Task.created_by := username;
                        Task.created_date := today |} ])%list.

(** ** Further properties the handlers are checked against *)

(** A run of the page: the actions pressed one after the other, each on the
    documents the one before saved. *)
Fixpoint runs (acts : list action) (s : State) : option State :=
  match acts with
  | [] => Some s
  | a :: rest =>
      match run a s with
      | Some s' => runs rest s'
      | None => None
      end
  end.

(** Two records of the same person: everything but the two incomes agrees. *)
Definition same_person (u u' : User) : Prop :=
  name u' = name u /\ password u' = password u /\ ref_id u' = ref_id u
  /\ ref_by u' = ref_by u /\ joined u' = joined u /\ role u' = role u.

Definition total_affiliate (us : Users) : Z :=
  fold_right Z.add 0%Z (map (fun e => affiliate_income (snd e)) us).

Definition total_task (us : Users) : Z :=
  fold_right Z.add 0%Z (map (fun e => task_income (snd e)) us).

(** The moves of a submission's status that the two approval pages make. *)
Definition forward (a b : string) : Prop :=
  a = b
  \/ (a = "Pending" /\ (b = "Approved By Coadmin" \/ b = "Denied By Coadmin"))
  \/ (a = "Approved By Coadmin" /\ b = "Approved By Admin").

(** Two records of the same submission: everything but the status and the
    admin's mark agrees. *)
Definition same_submission (p p' : Submission.t) : Prop :=
  Submission.task_title p' = Submission.task_title p
  /\ Submission.task_payout p' = Submission.task_payout p
  /\ Submission.member_username p' = Submission.member_username p
  /\ Submission.proof_file p' = Submission.proof_file p
  /\ Submission.submitted_date p' = Submission.submitted_date p
  /\ Submission.coadmin_username p' = Submission.coadmin_username p.

(** The request ids as [request_withdrawal] numbers them: the id of the
    [n]-th request of the ledger starts with [WDR<n>-]. *)
Definition numbered_id (n : nat) (rid : string) : Prop :=
  exists ts, rid = "WDR" ++ str_of_nat n ++ "-" ++ ts.

Fixpoint numbered_from (n : nat) (ids : list string) : Prop :=
  match ids with
  | [] => True
  | rid :: rest => numbered_id n rid /\ numbered_from (S n) rest
  end.

Definition ledger_numbered (ws : list Withdrawal.t) : Prop :=
  numbered_from 1 (map Withdrawal.request_id ws).

(** Who a page is meant for. *)
Definition page_for (p : page) (role_ : string) : Prop :=
  match p with
  | DashboardPage | WalletPage | WithdrawalsPage => True
  | TaskManagerPage => role_ = "admin" \/ role_ = "coadmin"
  | TasksPage => role_ = "member"
  | ManageWithdrawalsPage | AdminProofsPage | AllCoadminsPage
  | VisualTreePage => role_ = "admin"
  | MyMembersPage | CoadminApprovePage => role_ = "coadmin"
  end.

(** ** The migration of old proof records at start-up *)

(** The field values of a stored proof record: JSON scalars (strings,
    integers, booleans, null; [JNull] is also Python's [None]). *)
Inductive json : Type :=
| JStr (s : string)
| JInt (z : Z)
| JBool (b : bool)
| JNull.

Definition Raw := Dict.t json.

(** [value.get(k, default)] *)
Definition py_get (k : string) (value : Raw) (default : json) : json :=
  match Dict.get k value with Some x => x | None => default end.

(** Truthiness of a field value. *)
Definition json_truthy (x : json) : bool :=
  match x with
  | JStr s => truthy s
  | JInt z => negb (z =? 0)%Z
  | JBool b => b
  | JNull => false
  end.

(** [x in data["users"]]: the keys are strings. *)
Definition json_in_users (x : json) (us : Users) : bool :=
  match x with JStr s => Dict.mem s us | _ => false end.

(** [x == "Approved"] *)
Definition json_is_str (x : json) (s : string) : bool :=
  match x with JStr t => t =? s | _ => false end.

(** [f"{x}"] *)
Definition json_format (x : json) : string :=
  match x with
  | JStr s => s
  | JInt z => NilZero.string_of_int (Z.to_int z)
  | JBool true => "True"
  | JBool false => "False"
  | JNull => "None"
  end.

(** What one pass over a record gives: the record as rewritten and whether
    [migration_needed] was set for it; the walk to the coadmin may still be
    running when the fuel is out, and [.replace] raises on a title that is
    not a string. *)
Inductive Migration : Type :=
| StillMigrating
| MigrationRaised (exn : string)
| Migrated (value : Raw) (needed : bool).

(** [if old in value and new not in value: value[new] = value[old];
    del value[old]; migration_needed = True] *)
Definition rename_key (old new : string) (vn : Raw * bool) : Raw * bool :=
  let (value, needed) := vn in
  if Dict.mem old value && negb (Dict.mem new value) then
    (Dict.del old (Dict.set new (py_get old value JNull) value), true)
  else (value, needed).

(** The body of the migration loop for one record [value]. *)
Definition migrate_entry (fuel : nat) (d : Data) (value : Raw) : Migration :=
  let after_coadmin : option (Raw * bool) :=
    if negb (Dict.mem "coadmin_username" value) then
      let member_username :=
        py_get "member" value (py_get "member_username" value JNull) in
      let assigned : option Raw :=
        match member_username with
        | JStr m =>
            if json_truthy member_username
               && json_in_users member_username (users d)
            then
              option_map
                (fun coadmin_user =>
                   Dict.set "coadmin_username" (JStr coadmin_user) value)
                (find_coadmin_for_member fuel m d)
            else Some (Dict.set "coadmin_username" (JStr UNKNOWN) value)
        | _ => Some (Dict.set "coadmin_username" (JStr UNKNOWN) value)
        end in
      option_map
        (fun value1 =>
           (if json_is_str (py_get "status" value1 JNull) "Approved"
            then Dict.set "status" (JStr "Approved By Coadmin") value1
            else value1, true))
        assigned
    else Some (value, false) in
  match after_coadmin with
  | None => StillMigrating
  | Some (value1, needed1) =>
      let (value2, needed2) :=
        if negb (Dict.mem "approved_by_admin" value1)
        then (Dict.set "approved_by_admin" (JBool false) value1, true)
        else (value1, needed1) in
      let (value5, needed5) :=
        rename_key "amount" "task_payout"
          (rename_key "task" "task_title"
             (rename_key "member" "member_username" (value2, needed2))) in
      if negb (Dict.mem "proof_file" value5) then
        let old_member_name :=
          py_get "member_username" value5
            (py_get "member" value5 (JStr "UNKNOWN_MEMBER")) in
        match py_get "task_title" value5
                (py_get "task" value5 (JStr "UNKNOWN_TASK")) with
        | JStr title =>
            let old_task_title := replace_spaces title in
            Migrated
              (Dict.set "proof_file"
                 (JStr ("proofs/" ++ json_format old_member_name ++ "_"
                        ++ old_task_title ++ ".jpg")) value5)
              true
        | _ => MigrationRaised "AttributeError"
        end
      else Migrated value5 needed5
  end.

(** [for key, value in list(proof_status.items())]: the records are
    rewritten in place, in order; [migration_needed] is set when any pass
    sets it. *)
Fixpoint migrate_all (fuel : nat) (d : Data) (ps : Dict.t Raw) : 
  option (Outcome (Dict.t Raw * bool)) :=
  match ps with
  | [] => Some (Done ([], false))
  | (key, value) :: rest =>
      match migrate_entry fuel d value with
      | StillMigrating => None
      | MigrationRaised exn => Some (Raised exn)
      | Migrated value' needed =>
          match migrate_all fuel d rest with
          | Some (Done (rest', needed')) =>
              Some (Done ((key, value') :: rest', needed || needed'))
          | other => other
          end
      end
  end.

(** A record that needs no migration: the three fields the loop adds are
    there and no legacy key waits to be renamed. *)
Definition settled (value : Raw) : bool :=
  Dict.mem "coadmin_username" value
  && Dict.mem "approved_by_admin" value
  && negb (Dict.mem "member" value && negb (Dict.mem "member_username" value))
  && negb (Dict.mem "task" value && negb (Dict.mem "task_title" value))
  && negb (Dict.mem "amount" value && negb (Dict.mem "task_payout" value))
  && Dict.mem "proof_file" value.

(** The stages of one pass of [migrate_entry], as relations between the
    record before and after each [if] of the loop body. *)
Definition coadmin_stage (v v1 : Raw) (n1 : bool) : Prop :=
  if Dict.mem "coadmin_username" v then v1 = v /\ n1 = false
  else n1 = true /\
       exists c,
         v1 = if json_is_str (py_get "status" v JNull) "Approved"
              then Dict.set "status" (JStr "Approved By Coadmin")
                     (Dict.set "coadmin_username" (JStr c) v)
              else Dict.set "coadmin_username" (JStr c) v.

Definition admin_stage (v1 : Raw) (n1 : bool) (v2 : Raw) (n2 : bool) : Prop :=
  if Dict.mem "approved_by_admin" v1 then v2 = v1 /\ n2 = n1
  else v2 = Dict.set "approved_by_admin" (JBool false) v1 /\ n2 = true.

Definition proof_file_stage (v5 : Raw) (n5 : bool) (v' : Raw) (n : bool) : Prop :=
  if Dict.mem "proof_file" v5 then v' = v5 /\ n = n5
  else n = true /\ exists p, v' = Dict.set "proof_file" (JStr p) v5.

(** The keys one pass of the migration may write or delete. *)
Definition migration_keys : list string :=
  ["coadmin_username"; "status"; "approved_by_admin";
   "member"; "member_username"; "task"; "task_title";
   "amount"; "task_payout"; "proof_file"].

(** Every record of the document has the keys of a JSON object: no key
    twice. *)
Definition json_objects (ps : Dict.t Raw) : Prop :=
  Forall (fun kv => NoDup (Dict.keys (snd kv))) ps.

(** The legacy key names and the names that replace them. *)
Definition legacy_keys : list (string * string) :=
  [("member", "member_username"); ("task", "task_title");
   ("amount", "task_payout")].

(** An old-format document: one record written before the two-stage
    approval, by the member "chitra" of [sample_data]. *)
Definition legacy_record : Raw :=
  [("member", JStr "chitra"); ("task", JStr "Like the page");
   ("amount", JInt 50); ("status", JStr "Approved")].

Definition legacy_document : Dict.t Raw :=
  [("chitra_Like_the_page", legacy_record)].

(** [value.get("task_title", value.get("task", "UNKNOWN_TASK"))]: the title
    the migration builds the proof file's name from. *)
Definition legacy_title (value : Raw) : json :=
  py_get "task_title" value (py_get "task" value (JStr "UNKNOWN_TASK")).

Definition is_JStr (x : json) : bool :=
  match x with JStr _ => true | _ => false end.

(** A legacy record whose task is null. *)
Definition untitled_record : Raw :=
  [("member", JStr "chitra"); ("task", JNull); ("amount", JInt 50)].
(** * Facts about dictionaries *)

Module DictFacts.
Section Facts.
Context {V : Type}.
Implicit Types (d : Dict.t V) (k : string) (v : V).

Lemma get_set_same k v d : Dict.get k (Dict.set k v d) = Some v.
Proof.
  induction d as [|[k' v'] d IH]; simpl.
  - now rewrite String.eqb_refl.
  - destruct (k' =? k) eqn:E; simpl; rewrite E; auto.
Qed.

Lemma get_set_other k k' v d :
  k <> k' -> Dict.get k' (Dict.set k v d) = Dict.get k' d.
Proof.
  intros Hne. induction d as [|[k0 v0] d IH]; simpl.
  - destruct (String.eqb_spec k k'); congruence.
  - destruct (String.eqb_spec k0 k) as [->|Hk]; simpl.
    + destruct (String.eqb_spec k k'); congruence.
    + now rewrite IH.
Qed.

Lemma get_In k v d : Dict.get k d = Some v -> In (k, v) d.
Proof.
  induction d as [|[k' v'] d IH]; simpl; [discriminate|].
  destruct (String.eqb_spec k' k) as [->|Hk]; intros H.
  - inversion H; subst; now left.
  - right; auto.
Qed.

Lemma get_None k d : Dict.get k d = None <-> ~ In k (Dict.keys d).
Proof.
  induction d as [|[k' v'] d IH]; simpl; [tauto|].
  destruct (String.eqb_spec k' k) as [->|Hk].
  - split; [discriminate|]. intros H; exfalso; apply H; now left.
  - rewrite IH. split; intros H; [intros [?|?]; [congruence|tauto] | tauto].
Qed.

Lemma mem_keys k d : Dict.mem k d = true <-> In k (Dict.keys d).
Proof.
  unfold Dict.mem. destruct (Dict.get k d) eqn:E.
  - split; auto. intros _. apply get_In in E.
    apply (in_map fst) in E. exact E.
  - apply get_None in E. split; [discriminate | tauto].
Qed.

Lemma In_get k v d :
  NoDup (Dict.keys d) -> In (k, v) d -> Dict.get k d = Some v.
Proof.
  induction d as [|[k' v'] d IH]; simpl; [tauto|].
  intros Hnd [Heq|Hin]; inversion Hnd; subst.
  - inversion Heq; subst. now rewrite String.eqb_refl.
  - destruct (String.eqb_spec k' k) as [->|Hk]; auto.
    exfalso. apply H1. apply (in_map fst) in Hin. exact Hin.
Qed.

Lemma keys_set_present k v d :
  In k (Dict.keys d) -> Dict.keys (Dict.set k v d) = Dict.keys d.
Proof.
  induction d as [|[k' v'] d IH]; simpl; [tauto|].
  destruct (String.eqb_spec k' k) as [->|Hk]; simpl; auto.
  intros [?|Hin]; [congruence|]. now rewrite IH.
Qed.

Lemma set_absent k v d :
  ~ In k (Dict.keys d) -> Dict.set k v d = (d ++ [(k, v)])%list.
Proof.
  induction d as [|[k' v'] d IH]; simpl; auto.
  intros Hn. destruct (String.eqb_spec k' k) as [->|Hk]; [tauto|].
  rewrite IH; tauto.
Qed.

Lemma get_filter (f : string * V -> bool) k v d :
  NoDup (Dict.keys d) ->
  Dict.get k (filter f d) = Some v ->
  Dict.get k d = Some v /\ f (k, v) = true.
Proof.
  intros Hnd Hget. apply get_In in Hget. apply filter_In in Hget.
  destruct Hget as [Hin Hf]. split; auto using In_get.
Qed.

Lemma get_filter_None (f : string * V -> bool) k v d :
  Dict.get k d = Some v -> f (k, v) = false ->
  NoDup (Dict.keys d) -> Dict.get k (filter f d) = None.
Proof.
  intros Hget Hf Hnd.
  destruct (Dict.get k (filter f d)) eqn:E; auto.
  apply get_filter in E; auto. destruct E as [E1 E2]. congruence.
Qed.
End Facts.
End DictFacts.

(** * Registration issues the counter's ref_id *)

Lemma register_user_done name_ username password_ referral_id explicit_role
    today d reg :
  register_user name_ username password_ referral_id explicit_role today d
    = Done reg ->
  Dict.mem username (users d) = false
  /\ reg_ref_id reg = generate_ref_id (count d)
  /\ reg_role reg = determine_role referral_id explicit_role (users d)
  /\ count (reg_data reg) = (count d + 1)%Z
  /\ exists kids,
       Dict.get referral_id
         (Dict.setdefault (generate_ref_id (count d)) [] (referrals d))
         = Some kids
       /\ referrals (reg_data reg)
          = Dict.set referral_id (kids ++ [generate_ref_id (count d)])%list
              (Dict.setdefault (generate_ref_id (count d)) [] (referrals d)).
Proof.
  unfold register_user.
  destruct (Dict.mem username (users d)); [discriminate|].
  destruct (negb (Dict.mem referral_id (referrals d))
            && negb (referral_id =? "PRG1001")); [discriminate|].
  destruct ((referral_id =? ROOT) && negb (username =? "admin"));
    [discriminate|].
  destruct (Dict.get referral_id _) as [kids|] eqn:Hk; [|discriminate].
  intros H; inversion H; subst; clear H; simpl.
  repeat split; auto. exists kids; auto.
Qed.

Lemma register_user_users name_ username password_ referral_id explicit_role
    today d reg :
  register_user name_ username password_ referral_id explicit_role today d
    = Done reg ->
  users (reg_data reg)
  = if reg_role reg =? "member"
    then affiliate_loop (seq 0 8) referral_id
           (Dict.set username
              (newcomer name_ password_ (reg_ref_id reg) referral_id today
                 (reg_role reg)) (users d))
    else Dict.set username
           (newcomer name_ password_ (reg_ref_id reg) referral_id today
              (reg_role reg)) (users d).
Proof.
  unfold register_user.
  destruct (Dict.mem username (users d)); [discriminate|].
  destruct (negb (Dict.mem referral_id (referrals d))
            && negb (referral_id =? "PRG1001")); [discriminate|].
  destruct ((referral_id =? ROOT) && negb (username =? "admin"));
    [discriminate|].
  destruct (Dict.get referral_id _); [|discriminate].
  intros H; inversion H; reflexivity.
Qed.

(** C1 (the script breaks it): the ref_id of a new user should be above
    every ref_id issued before, the admin's [PRG1001] included, and never
    issued twice.  The bootstrap document starts the counter at 1 and gives
    the admin [PRG1001], so every registration that succeeds on it issues
    [PRG1001] again: the newcomer owns the admin's ref_id. *)
Theorem first_registration_reuses_admin_ref_id :
  forall name_ username password_ referral_id explicit_role today reg,
    register_user name_ username password_ referral_id explicit_role today
      (initial_data today) = Done reg ->
    reg_ref_id reg = "PRG1001"
    /\ option_map ref_id (Dict.get "admin" (users (initial_data today)))
       = Some (reg_ref_id reg).
Proof.
  intros * H. apply register_user_done in H.
  destruct H as (_ & Hid & _). rewrite Hid. split; reflexivity.
Qed.

Lemma first_registration_reuses_admin_ref_id_witness :
  exists reg,
    register_user "Asha" "asha" "secret" "PRG1001" None "2025-01-01"
      (initial_data "2025-01-01") = Done reg
    /\ reg_ref_id reg = "PRG1001"
    /\ option_map ref_id (Dict.get "admin" (users (initial_data "2025-01-01")))
       = Some (reg_ref_id reg)
    /\ option_map ref_id (Dict.get "asha" (users (reg_data reg)))
       = option_map ref_id (Dict.get "admin" (users (reg_data reg)))
    /\ children (referrals (reg_data reg)) "PRG1001" = ["PRG1001"].
Proof.
  eexists. split; [reflexivity|].
  split; [|split].
  - exact (proj1 (first_registration_reuses_admin_ref_id
                    "Asha" "asha" "secret" "PRG1001" None "2025-01-01" _ eq_refl)).
  - exact (proj2 (first_registration_reuses_admin_ref_id
                    "Asha" "asha" "secret" "PRG1001" None "2025-01-01" _ eq_refl)).
  - split; reflexivity.
Defined.

(** * Withdrawal requests *)

(** C8: a withdrawal request is refused with [NoBalance] when the two
    accumulators sum to 0 or less, nothing being saved; a request that goes
    through appends a Pending request for the whole sum and zeroes both
    accumulators of the user (and of nobody else), so that asking again
    right away is refused with [NoBalance]. *)
Theorem request_withdrawal_drains_balance :
  forall username user upi now today s,
    ((total_withdrawable_amount username (data s) <= 0)%Z ->
       request_withdrawal username user upi now today s = Rejected NoBalance)
    /\ ((0 < total_withdrawable_amount username (data s))%Z ->
        truthy upi = true ->
        exists s', request_withdrawal username user upi now today s = Done s')
    /\ (forall s',
          request_withdrawal username user upi now today s = Done s' ->
          (exists w,
              withdrawals s' = (withdrawals s ++ [w])%list
              /\ Withdrawal.amount w
                 = total_withdrawable_amount username (data s)
              /\ Withdrawal.status w = "Pending"
              /\ Withdrawal.username w = username)
          /\ (exists u',
                Dict.get username (users (data s')) = Some u'
                /\ task_income u' = 0%Z /\ affiliate_income u' = 0%Z)
          /\ (forall k, k <> username ->
                Dict.get k (users (data s')) = Dict.get k (users (data s)))
          /\ forall user' upi' now' today',
               request_withdrawal username user' upi' now' today' s'
               = Rejected NoBalance).
Proof.
  intros username user upi now today s.
  unfold request_withdrawal.
  destruct (Z.leb_spec (total_withdrawable_amount username (data s)) 0)
    as [Hle|Hgt].
  - repeat split; try discriminate; auto. intros; lia.
  - split; [intros; lia|].
    assert (Hu : exists u, Dict.get username (users (data s)) = Some u).
    { unfold total_withdrawable_amount in Hgt.
      destruct (Dict.get username (users (data s))); [eauto | simpl in Hgt; lia]. }
    destruct Hu as [u Hu]. rewrite Hu. split.
    + intros _ Hupi. rewrite Hupi. simpl. eauto.
    + intros s'. destruct (truthy upi); simpl; [|discriminate].
      intros H; inversion H; subst; clear H; simpl.
      split; [eexists; repeat split; reflexivity|].
      split; [exists (reset_balances u); repeat split;
              apply DictFacts.get_set_same|].
      split; [intros k Hk; now apply DictFacts.get_set_other|].
      intros user' upi' now' today'.
      unfold total_withdrawable_amount; simpl.
      rewrite DictFacts.get_set_same. reflexivity.
Qed.

Lemma request_withdrawal_drains_balance_witness :
  exists s',
    request_withdrawal "asha"
      (mkUser "Asha" "pw" "PRG1002" "PRG1001" 100 20 "2025-01-01" "member")
      "asha@upi" "20250102101500" "2025-01-02"
      (ledger_state
         [("asha", mkUser "Asha" "pw" "PRG1002" "PRG1001" 100 20
                     "2025-01-01" "member")]) = Done s'
    /\ map Withdrawal.amount (withdrawals s') = [120%Z]
    /\ request_withdrawal "asha"
         (mkUser "Asha" "pw" "PRG1002" "PRG1001" 100 20 "2025-01-01" "member")
         "asha@upi" "20250102101501" "2025-01-02" s' = Rejected NoBalance.
Proof.
  destruct (request_withdrawal_drains_balance "asha"
      (mkUser "Asha" "pw" "PRG1002" "PRG1001" 100 20 "2025-01-01" "member")
      "asha@upi" "20250102101500" "2025-01-02"
      (ledger_state
         [("asha", mkUser "Asha" "pw" "PRG1002" "PRG1001" 100 20
                     "2025-01-01" "member")])) as (_ & _ & H).
  eexists. split; [reflexivity|].
  split; [reflexivity|].
  exact (proj2 (proj2 (proj2 (H _ eq_refl))) _ _ _ _).
Defined.

(** * Proof submissions *)

Lemma proof_exists_for_task_found username t ps key pv :
  In (key, pv) ps ->
  Submission.member_username pv = username ->
  Submission.task_title pv = Task.title t ->
  exists key' pv',
    In (key', pv') ps
    /\ Submission.member_username pv' = username
    /\ Submission.task_title pv' = Task.title t
    /\ proof_exists_for_task username t ps = Some (Submission.status pv').
Proof.
  intros Hin Hm Ht. unfold proof_exists_for_task.
  destruct (find _ ps) as [[key' pv']|] eqn:Hf.
  - pose proof (find_some _ _ Hf) as [Hin' Hp]. simpl in Hp.
    apply andb_true_iff in Hp. destruct Hp as [Hp1 Hp2].
    apply String.eqb_eq in Hp1, Hp2.
    exists key', pv'. repeat split; auto.
  - pose proof (find_none _ _ Hf _ Hin) as Hp. simpl in Hp.
    rewrite Hm, Ht, !String.eqb_refl in Hp. discriminate.
Qed.

(** C9: when a submission of the same member for the same task title is on
    record, whatever its status, the upload is refused as already submitted
    and no record is made; the status reported is the one of such a
    submission. *)
Theorem submit_proof_already_submitted :
  forall fuel username t file_extension write_ok now today s key pv,
    In (key, pv) (proof_status s) ->
    Submission.member_username pv = username ->
    Submission.task_title pv = Task.title t ->
    exists key' pv',
      In (key', pv') (proof_status s)
      /\ Submission.member_username pv' = username
      /\ Submission.task_title pv' = Task.title t
      /\ submit_proof fuel username t file_extension write_ok now today s
         = AlreadySubmitted (Submission.status pv').
Proof.
  intros * Hin Hm Ht.
  destruct (proof_exists_for_task_found username t _ key pv Hin Hm Ht)
    as (key' & pv' & H1 & H2 & H3 & H4).
  exists key', pv'. repeat split; auto.
  unfold submit_proof. now rewrite H4.
Qed.

Lemma submit_proof_already_submitted_witness :
  submit_proof 10 "asha" sample_task ".png" true "20250103090000" "2025-01-03"
    (workflow_state []
       [("asha_Watch_video_20250101120000",
         sample_submission "Denied By Coadmin")])
  = AlreadySubmitted "Denied By Coadmin".
Proof.
  destruct (submit_proof_already_submitted 10 "asha" sample_task ".png" true
              "20250103090000" "2025-01-03"
              (workflow_state []
                 [("asha_Watch_video_20250101120000",
                   sample_submission "Denied By Coadmin")])
              "asha_Watch_video_20250101120000"
              (sample_submission "Denied By Coadmin"))
    as (key' & pv' & _ & _ & _ & H);
    [left; reflexivity | reflexivity | reflexivity |].
  reflexivity.
Defined.

(** * Settling withdrawal requests *)

Lemma set_status_of_absent rid st ws :
  ~ In rid (map Withdrawal.request_id ws) -> set_status_of rid st ws = ws.
Proof.
  induction ws as [|w ws IH]; simpl; auto.
  intros Hn. destruct (String.eqb_spec (Withdrawal.request_id w) rid).
  - exfalso; apply Hn; now left.
  - rewrite IH; tauto.
Qed.

Lemma restatus_absent rid st ws :
  ~ In rid (map Withdrawal.request_id ws) -> map (restatus rid st) ws = ws.
Proof.
  induction ws as [|w ws IH]; simpl; auto.
  intros Hn. unfold restatus at 1.
  destruct (String.eqb_spec (Withdrawal.request_id w) rid).
  - exfalso; apply Hn; now left.
  - rewrite IH; tauto.
Qed.

Lemma set_status_of_unique rid st ws :
  NoDup (map Withdrawal.request_id ws) ->
  set_status_of rid st ws = map (restatus rid st) ws.
Proof.
  induction ws as [|w ws IH]; simpl; auto.
  intros Hnd. inversion Hnd as [|? ? Hnotin Hnd']; subst.
  unfold restatus at 1.
  destruct (String.eqb_spec (Withdrawal.request_id w) rid) as [Heq|Hne].
  - subst rid. now rewrite restatus_absent.
  - now rewrite IH.
Qed.

Lemma status_of_outcome_not_pending o : status_of_outcome o <> "Pending".
Proof. destruct o; discriminate. Qed.

Lemma NoDup_map_In_inj {A B : Type} (f : A -> B) (l : list A) x y :
  NoDup (map f l) -> In x l -> In y l -> f x = f y -> x = y.
Proof.
  induction l as [|a l IH]; simpl; [tauto|].
  intros Hnd Hx Hy Hf. inversion Hnd as [|? ? Hnotin Hnd']; subst.
  destruct Hx as [->|Hx], Hy as [->|Hy]; auto.
  - exfalso. apply Hnotin. rewrite Hf. now apply in_map.
  - exfalso. apply Hnotin. rewrite <- Hf. now apply in_map.
Qed.



(** * The two-stage approval *)

Lemma approve_task_done coadmin key s s1 :
  NoDup (Dict.keys (proof_status s)) ->
  approve_task coadmin key s = Pressing (Done s1) ->
  exists pv u,
    Dict.get key (proof_status s) = Some pv
    /\ Submission.status pv = "Pending"
    /\ Submission.coadmin_username pv = coadmin
    /\ Dict.get (Submission.member_username pv) (users (data s)) = Some u
    /\ s1 = with_proof_status
              (Dict.set key (Submission.with_status "Approved By Coadmin" pv)
                 (proof_status s))
              (with_data
                 {| users := Dict.set (Submission.member_username pv)
                               (credit_task (Submission.task_payout pv) u)
                               (users (data s));
                    referrals := referrals (data s);
                    count := count (data s) |} s).
Proof.
  intros Hnd. unfold approve_task, pending_proofs_for_coadmin.
  destruct (Dict.get key (filter _ (proof_status s))) as [pv|] eqn:Hg;
    [|discriminate].
  apply DictFacts.get_filter in Hg; auto. destruct Hg as [Hg Hf].
  simpl in Hf. apply andb_true_iff in Hf. destruct Hf as [Hf1 Hf2].
  apply String.eqb_eq in Hf1, Hf2.
  destruct (Dict.get (Submission.member_username pv) (users (data s)))
    as [u|] eqn:Hu; [|discriminate].
  intros H; inversion H; subst; clear H.
  exists pv, u. repeat split; auto.
Qed.

Lemma not_pending_not_offered coadmin key s pv :
  NoDup (Dict.keys (proof_status s)) ->
  Dict.get key (proof_status s) = Some pv ->
  Submission.status pv <> "Pending" ->
  approve_task coadmin key s = NotOffered
  /\ deny_task coadmin key s = NotOffered.
Proof.
  intros Hnd Hg Hst. unfold approve_task, deny_task, pending_proofs_for_coadmin.
  rewrite (DictFacts.get_filter_None _ key pv); auto.
  simpl. destruct (String.eqb_spec (Submission.status pv) "Pending"); tauto.
Qed.

Lemma admin_confirm_done key s s2 :
  NoDup (Dict.keys (proof_status s)) ->
  admin_confirm key s = Pressing (Done s2) ->
  exists pv,
    Dict.get key (proof_status s) = Some pv
    /\ Submission.status pv = "Approved By Coadmin"
    /\ s2 = with_proof_status
              (Dict.set key
                 (Submission.with_status "Approved By Admin"
                    (Submission.with_approved_by_admin true pv))
                 (proof_status s)) s.
Proof.
  intros Hnd. unfold admin_confirm, approved_by_coadmin_proofs.
  destruct (Dict.get key (filter _ (proof_status s))) as [pv|] eqn:Hg;
    [|discriminate].
  apply DictFacts.get_filter in Hg; auto. destruct Hg as [Hg Hf].
  simpl in Hf. apply String.eqb_eq in Hf.
  destruct (negb (Submission.approved_by_admin pv)); [|discriminate].
  intros H; inversion H; subst; clear H. exists pv. auto.
Qed.

Lemma approve_task_ignores_tasks coadmin key ts s s1 :
  approve_task coadmin key s = Pressing (Done s1) ->
  approve_task coadmin key (with_tasks ts s) = Pressing (Done (with_tasks ts s1)).
Proof.
  unfold approve_task; simpl.
  destruct (Dict.get key (pending_proofs_for_coadmin coadmin (proof_status s)))
    as [pv|]; [|discriminate].
  destruct (Dict.get (Submission.member_username pv) (users (data s)));
    [|discriminate].
  intros H; inversion H; reflexivity.
Qed.

Lemma keys_set_get {V : Type} k (v v0 : V) (d : Dict.t V) :
  Dict.get k d = Some v0 -> Dict.keys (Dict.set k v d) = Dict.keys d.
Proof.
  intros H. apply DictFacts.keys_set_present.
  apply DictFacts.get_In in H. apply (in_map fst) in H. exact H.
Qed.

(** C7: over the two stages of an approval the member's [task_income] grows
    once, by the [task_payout] stored in the submission.  Approving a Pending
    submission credits the member that amount (whatever the task list says
    by then), touches no other user and no [affiliate_income], and sets the
    status to Approved By Coadmin; denying it instead changes no income and
    sets the status Denied By Coadmin; the admin's confirmation leaves the
    whole directory as it is, sets [approved_by_admin] to true and the status
    to Approved By Admin, and changes no other field of the submission; after
    either stage the approve button is gone. *)
Theorem two_stage_approval_credits_once :
  forall coadmin key s s1 s2,
    NoDup (Dict.keys (proof_status s)) ->
    approve_task coadmin key s = Pressing (Done s1) ->
    admin_confirm key s1 = Pressing (Done s2) ->
    exists pv u,
      Dict.get key (proof_status s) = Some pv
      /\ Submission.status pv = "Pending"
      /\ Dict.get (Submission.member_username pv) (users (data s)) = Some u
      /\ (exists u1,
            Dict.get (Submission.member_username pv) (users (data s1)) = Some u1
            /\ task_income u1 = (task_income u + Submission.task_payout pv)%Z
            /\ affiliate_income u1 = affiliate_income u)
      /\ (forall k, k <> Submission.member_username pv ->
            Dict.get k (users (data s1)) = Dict.get k (users (data s)))
      /\ Dict.get key (proof_status s1)
         = Some {| Submission.task_title := Submission.task_title pv;
                   Submission.task_payout := Submission.task_payout pv;
                   Submission.member_username := Submission.member_username pv;
                   Submission.proof_file := Submission.proof_file pv;
                   Submission.status := "Approved By Coadmin";
                   Submission.submitted_date := Submission.submitted_date pv;
                   Submission.coadmin_username := Submission.coadmin_username pv;
                   Submission.approved_by_admin :=
                     Submission.approved_by_admin pv |}
      /\ (forall ts, approve_task coadmin key (with_tasks ts s)
                     = Pressing (Done (with_tasks ts s1)))
      /\ data s2 = data s1
      /\ Dict.get key (proof_status s2)
         = Some {| Submission.task_title := Submission.task_title pv;
                   Submission.task_payout := Submission.task_payout pv;
                   Submission.member_username := Submission.member_username pv;
                   Submission.proof_file := Submission.proof_file pv;
                   Submission.status := "Approved By Admin";
                   Submission.submitted_date := Submission.submitted_date pv;
                   Submission.coadmin_username := Submission.coadmin_username pv;
                   Submission.approved_by_admin := true |}
      /\ (forall c, approve_task c key s1 = NotOffered)
      /\ (forall c, approve_task c key s2 = NotOffered)
      /\ (exists sd,
            deny_task coadmin key s = Pressing (Done sd)
            /\ data sd = data s
            /\ Dict.get key (proof_status sd)
               = Some {| Submission.task_title := Submission.task_title pv;
                         Submission.task_payout := Submission.task_payout pv;
                         Submission.member_username :=
                           Submission.member_username pv;
                         Submission.proof_file := Submission.proof_file pv;
                         Submission.status := "Denied By Coadmin";
                         Submission.submitted_date :=
                           Submission.submitted_date pv;
                         Submission.coadmin_username :=
                           Submission.coadmin_username pv;
                         Submission.approved_by_admin :=
                           Submission.approved_by_admin pv |}).
Proof.
  intros coadmin key s s1 s2 Hnd Ha Hc.
  pose proof Ha as Ha'.
  assert (Hdeny : exists pv0,
             Dict.get key (pending_proofs_for_coadmin coadmin (proof_status s))
             = Some pv0).
  { unfold approve_task in Ha.
    destruct (Dict.get key
                (pending_proofs_for_coadmin coadmin (proof_status s)));
      [eauto|discriminate]. }
  destruct Hdeny as [pv0 Hpv0].
  apply approve_task_done in Ha; auto.
  destruct Ha as (pv & u & Hg & Hst & Hco & Hu & ->).
  assert (pv0 = pv).
  { unfold pending_proofs_for_coadmin in Hpv0.
    apply DictFacts.get_filter in Hpv0; auto. destruct Hpv0 as [Hpv0 _].
    congruence. }
  subst pv0.
  assert (Hnd1 : NoDup (Dict.keys (Dict.set key
            (Submission.with_status "Approved By Coadmin" pv) (proof_status s)))).
  { now rewrite (keys_set_get _ _ pv). }
  apply admin_confirm_done in Hc; auto.
  destruct Hc as (pv1 & Hg1 & Hst1 & ->). simpl in *.
  rewrite DictFacts.get_set_same in Hg1. inversion Hg1; subst pv1; clear Hg1.
  exists pv, u.
  split; [assumption|]. split; [assumption|]. split; [assumption|].
  split.
  { exists (credit_task (Submission.task_payout pv) u).
    repeat split. apply DictFacts.get_set_same. }
  split.
  { intros k Hk. now apply DictFacts.get_set_other. }
  split.
  { apply DictFacts.get_set_same. }
  split.
  { intros ts. now apply approve_task_ignores_tasks. }
  split; [reflexivity|].
  split.
  { apply DictFacts.get_set_same. }
  split.
  { intros c. eapply not_pending_not_offered; simpl; auto.
    + apply DictFacts.get_set_same.
    + simpl. discriminate. }
  split.
  { intros c. eapply not_pending_not_offered; simpl.
    + rewrite (keys_set_get _ _ (Submission.with_status "Approved By Coadmin" pv));
        auto. apply DictFacts.get_set_same.
    + apply DictFacts.get_set_same.
    + simpl. discriminate. }
  eexists. unfold deny_task. rewrite Hpv0.
  split; [reflexivity|]. split; [reflexivity|].
  simpl. apply DictFacts.get_set_same.
Qed.

Lemma submit_proof_records_payout fuel username t ext now today s key ps :
  submit_proof fuel username t ext true now today s = Submitted key ps ->
  exists pv,
    Dict.get key ps = Some pv
    /\ Submission.task_payout pv = Task.payout t
    /\ Submission.task_title pv = Task.title t
    /\ Submission.member_username pv = username
    /\ Submission.status pv = "Pending"
    /\ Submission.approved_by_admin pv = false
    /\ find_coadmin_for_member fuel username (data s)
       = Some (Submission.coadmin_username pv).
Proof.
  unfold submit_proof.
  destruct (proof_exists_for_task username t (proof_status s)); [discriminate|].
  destruct (find_coadmin_for_member fuel username (data s)) as [c|];
    [|discriminate].
  intros H; inversion H; subst; clear H.
  eexists. split; [apply DictFacts.get_set_same|]. repeat split.
Qed.

Lemma two_stage_approval_credits_once_witness :
  exists s1 s2,
    approve_task "chitra" sample_key submitted_state = Pressing (Done s1)
    /\ admin_confirm sample_key s1 = Pressing (Done s2)
    /\ option_map task_income (Dict.get "asha" (users (data s1))) = Some 100%Z
    /\ data s2 = data s1
    /\ option_map Submission.status (Dict.get sample_key (proof_status s2))
       = Some "Approved By Admin"
    /\ option_map Submission.approved_by_admin
         (Dict.get sample_key (proof_status s2))
       = Some true.
Proof.
  eexists; eexists.
  split; [reflexivity|]. split; [reflexivity|].
  destruct (two_stage_approval_credits_once "chitra" sample_key
              submitted_state _ _
              ltac:(repeat constructor; simpl; intuition discriminate)
              eq_refl eq_refl)
    as (pv & u & _ & _ & _ & _ & _ & _ & _ & Hd & Hp & _).
  split; [reflexivity|]. split; [exact Hd|].
  rewrite Hp. split; reflexivity.
Defined.

(** * The walk to the nearest coadmin *)

Lemma coadmin_walk_S fuel us r :
  coadmin_walk (S fuel) us r =
  if r =? ROOT then Some UNKNOWN
  else match find_by_ref_id r us with
       | Some (k, u) =>
           if truthy k then
             if role u =? "coadmin" then Some k
             else coadmin_walk fuel us (ref_by u)
           else Some UNKNOWN
       | None => Some UNKNOWN
       end.
Proof. reflexivity. Qed.

Lemma find_by_ref_id_Some r us k u :
  find_by_ref_id r us = Some (k, u) -> In (k, u) us /\ ref_id u = r.
Proof.
  unfold find_by_ref_id. intros H. apply find_some in H. simpl in H.
  destruct H as [H1 H2]. apply String.eqb_eq in H2. auto.
Qed.

Lemma find_by_ref_id_None r us :
  find_by_ref_id r us = None -> forall k u, In (k, u) us -> ref_id u <> r.
Proof.
  unfold find_by_ref_id. intros H k u Hin.
  pose proof (find_none _ _ H _ Hin) as Hn. simpl in Hn.
  now apply String.eqb_neq.
Qed.

Lemma depth_below_S rs n r :
  depth_below rs n r = true -> depth_below rs (S n) r = true.
Proof.
  revert r. induction n as [|n IH]; intros r; [discriminate|].
  intros H. change (forallb (depth_below rs (S n)) (children rs r) = true).
  simpl in H. rewrite forallb_forall in *. auto.
Qed.

Lemma depth_below_le rs n m r :
  n <= m -> depth_below rs n r = true -> depth_below rs m r = true.
Proof. induction 1; auto using depth_below_S. Qed.

Lemma depth_below_child rs m p c :
  In c (children rs p) -> depth_below rs m c = false ->
  depth_below rs (S m) p = false.
Proof.
  intros Hin Hc. simpl. destruct (forallb _ _) eqn:E; auto.
  rewrite forallb_forall in E. specialize (E _ Hin). congruence.
Qed.

Section Walk.
Variables (us : Users) (rs : Referrals) (n : nat).
Hypothesis listed :
  forall k u, In (k, u) us -> ref_by u <> ROOT ->
    In (ref_id u) (children rs (ref_by u)).
Hypothesis shallow : forall r, depth_below rs n r = true.

Lemma coadmin_walk_answers :
  forall j m r,
    depth_below rs m r = false -> n <= m + j ->
    exists a, coadmin_walk (S j) us r = Some a.
Proof.
  induction j as [|j IH]; intros m r Hd Hn.
  - rewrite (depth_below_le rs n m r) in Hd; [discriminate | lia | apply shallow].
  - rewrite coadmin_walk_S.
    destruct (r =? ROOT); [eauto|].
    destruct (find_by_ref_id r us) as [[k u]|] eqn:Hf; [|eauto].
    destruct (truthy k); [|eauto].
    destruct (role u =? "coadmin"); [eauto|].
    apply find_by_ref_id_Some in Hf. destruct Hf as [Hin Hr]. subst r.
    destruct (String.eqb_spec (ref_by u) ROOT) as [Hroot|Hroot].
    + rewrite Hroot. simpl. eauto.
    + apply (IH (S m)); [|lia].
      eapply depth_below_child; eauto.
Qed.
End Walk.



(** On a forest the walk ends: when every user stands among the children of
    its referrer and every downward path of the referral mapping has fewer
    than [n] edges, the walk answers within [n + 1] evaluations of its loop
    test, for every member. *)
Theorem coadmin_walk_terminates_on_forest :
  forall d n member,
    (forall k u, In (k, u) (users d) -> ref_by u <> ROOT ->
       In (ref_id u) (children (referrals d) (ref_by u))) ->
    (forall r, depth_below (referrals d) n r = true) ->
    forall fuel, n < fuel ->
      exists answer, find_coadmin_for_member fuel member d = Some answer.
Proof.
  intros d n member Hl Hs fuel Hf. unfold find_coadmin_for_member.
  destruct (Dict.get member (users d)) as [m|]; [|eauto].
  destruct fuel as [|j]; [lia|].
  apply (coadmin_walk_answers (users d) (referrals d) n Hl Hs j 0); [reflexivity|lia].
Qed.

Lemma listed_under_referrer_spec d :
  listed_under_referrer d = true ->
  forall k u, In (k, u) (users d) -> ref_by u <> ROOT ->
    In (ref_id u) (children (referrals d) (ref_by u)).
Proof.
  unfold listed_under_referrer. rewrite forallb_forall.
  intros H k u Hin Hroot. specialize (H _ Hin). simpl in H.
  apply orb_true_iff in H. destruct H as [H|H].
  - apply String.eqb_eq in H. contradiction.
  - apply existsb_exists in H. destruct H as (c & Hc & Heq).
    apply String.eqb_eq in Heq. now subst c.
Qed.

Lemma children_not_key rs r : ~ In r (Dict.keys rs) -> children rs r = [].
Proof.
  intros H. unfold children. apply DictFacts.get_None in H. now rewrite H.
Qed.

Lemma forest_depth_below_spec rs n :
  forest_depth_below rs n = true -> forall r, depth_below rs n r = true.
Proof.
  unfold forest_depth_below. intros H r.
  apply andb_true_iff in H. destruct H as [Hn Hk].
  apply Nat.ltb_lt in Hn. rewrite forallb_forall in Hk.
  destruct (in_dec string_dec r (Dict.keys rs)) as [Hin|Hout]; auto.
  destruct n as [|n]; [lia|]. simpl. now rewrite children_not_key.
Qed.

Lemma coadmin_walk_terminates_on_forest_witness :
  exists answer, find_coadmin_for_member 4 "asha" sample_data = Some answer.
Proof.
  apply (coadmin_walk_terminates_on_forest sample_data 3 "asha").
  - apply listed_under_referrer_spec. vm_compute. reflexivity.
  - apply forest_depth_below_spec. vm_compute. reflexivity.
  - lia.
Defined.




Lemma owner_unique (us : Users) k u k' u' :
  NoDup (map (fun e => ref_id (snd e)) us) ->
  In (k, u) us -> In (k', u') us -> ref_id u = ref_id u' ->
  k = k' /\ u = u'.
Proof.
  intros Hnd H1 H2 Hr.
  pose proof (NoDup_map_In_inj (fun e : string * User => ref_id (snd e))
                us (k, u) (k', u') Hnd H1 H2 Hr) as E.
  inversion E; auto.
Qed.

Lemma coadmin_walk_sound (us : Users) :
  (forall k u, In (k, u) us -> truthy k = true) ->
  forall fuel r a, coadmin_walk fuel us r = Some a -> nearest_from us r a.
Proof.
  intros Htruthy. induction fuel as [|fuel IH]; intros r a; [discriminate|].
  rewrite coadmin_walk_S.
  destruct (String.eqb_spec r ROOT) as [->|Hroot].
  - intros H; inversion H; constructor.
  - destruct (find_by_ref_id r us) as [[k u]|] eqn:Hf.
    + apply find_by_ref_id_Some in Hf. destruct Hf as [Hin Hr].
      rewrite (Htruthy _ _ Hin).
      destruct (String.eqb_spec (role u) "coadmin") as [Hc|Hc].
      * intros H; inversion H; subst a.
        apply (nearest_found us r k u Hroot Hin Hr Hc).
      * intros H. apply IH in H.
        apply (nearest_up us r k u a Hroot Hin Hr Hc H).
    + intros H; inversion H; subst a.
      apply nearest_broken; auto. now apply find_by_ref_id_None.
Qed.

Ltac same_owner Hnd :=
  match goal with
  | H1 : In (@pair string User ?k1 ?u1) ?us,
    H2 : In (@pair string User ?k2 ?u2) ?us,
    E : ref_id ?u1 = ref_id ?u2 |- _ =>
      destruct (owner_unique us k1 u1 k2 u2 Hnd H1 H2 E); subst
  end.

Lemma nearest_from_unique (us : Users) :
  NoDup (map (fun e => ref_id (snd e)) us) ->
  forall r a, nearest_from us r a ->
  forall a', nearest_from us r a' -> a' = a.
Proof.
  intros Hnd r a H.
  induction H as [|r Hr Hno|r k u Hr Hin Hid Hco|r k u a Hr Hin Hid Hco H IH];
    intros a' H'.
  - inversion H'; subst; auto; congruence.
  - inversion H'; subst; auto; try congruence; exfalso; eapply Hno; eauto.
  - inversion H' as [| ? ? Hno' | | ]; subst; try congruence.
    + exfalso; eapply Hno'; eauto.
    + same_owner Hnd; auto.
    + same_owner Hnd; congruence.
  - inversion H' as [| ? ? Hno' | | ]; subst; try congruence.
    + exfalso; eapply Hno'; eauto.
    + same_owner Hnd; congruence.
    + same_owner Hnd; auto.
Qed.

Lemma keys_links us : Dict.keys us = map fst (links us).
Proof.
  unfold Dict.keys, links. rewrite map_map. apply map_ext. now intros [k u].
Qed.

Lemma ref_ids_links (us : Users) :
  map (fun e => ref_id (snd e)) us = map l_ref_id (links us).
Proof. unfold links. rewrite map_map. apply map_ext. now intros [k u]. Qed.

Lemma In_links k u (us : Users) : In (k, u) us -> In (link (k, u)) (links us).
Proof. apply in_map. Qed.

Lemma dir_user_keys d : directory_inv d -> NoDup (Dict.keys (users d)).
Proof. intros H. rewrite keys_links. apply (inv_user_keys _ _ _ H). Qed.

Lemma dir_usernames d :
  directory_inv d -> forall k u, In (k, u) (users d) -> truthy k = true.
Proof.
  intros H k u Hin. apply (inv_usernames _ _ _ H (link (k, u))).
  now apply In_links.
Qed.

Lemma dir_ref_ids_unique d :
  directory_inv d -> NoDup (map (fun e => ref_id (snd e)) (users d)).
Proof. intros H. rewrite ref_ids_links. apply (inv_ref_ids_unique _ _ _ H). Qed.

Lemma inv_listed d :
  directory_inv d ->
  forall k u, In (k, u) (users d) -> ref_by u <> ROOT ->
    In (ref_id u) (children (referrals d) (ref_by u)).
Proof.
  intros Hinv k u Hin Hroot.
  apply (count_occ_In string_dec).
  pose proof (inv_child_once _ _ _ Hinv (link (k, u)) (In_links _ _ _ Hin) Hroot)
    as H.
  unfold l_ref_by, l_ref_id in H; simpl in H. rewrite H. lia.
Qed.

(** C6: on a directory that satisfies the data-model invariants the walk of
    [find_coadmin_for_member] returns, for every member, the answer the
    specification describes: the username of the first owner with role
    coadmin met by following [ref_by] from the member's own [ref_by], and
    the sentinel when the walk reaches [ROOT] or a ref_id nobody owns.  That
    answer is unique, and the loop delivers it as soon as it is given more
    iterations than the forest is deep. *)
Theorem find_coadmin_for_member_nearest :
  forall d member m,
    directory_inv d ->
    In (member, m) (users d) ->
    exists answer,
      nearestCoadmin d member answer
      /\ (forall a', nearestCoadmin d member a' -> a' = answer)
      /\ exists n, forall fuel, n < fuel ->
           find_coadmin_for_member fuel member d = Some answer.
Proof.
  intros d member m Hinv Hin.
  pose proof (DictFacts.In_get member m (users d) (dir_user_keys d Hinv) Hin)
    as Hget.
  destruct (inv_acyclic _ _ _ Hinv) as [n Hn].
  pose proof (inv_listed d Hinv) as Hl.
  destruct (coadmin_walk_answers (users d) (referrals d) n Hl Hn n 0
              (ref_by m) eq_refl (Nat.le_refl _)) as [answer Ha].
  pose proof (coadmin_walk_sound (users d) (dir_usernames d Hinv) _ _ _ Ha)
    as Hspec.
  assert (Huniq : forall a', nearestCoadmin d member a' -> a' = answer).
  { intros a' (m' & Hin' & Hn').
    assert (m' = m).
    { pose proof (DictFacts.In_get member m' (users d) (dir_user_keys d Hinv)
                    Hin'). congruence. }
    subst m'.
    eapply nearest_from_unique; eauto using dir_ref_ids_unique. }
  exists answer. split; [exists m; auto|]. split; [exact Huniq|].
  exists n. intros fuel Hfuel. unfold find_coadmin_for_member. rewrite Hget.
  destruct fuel as [|j]; [lia|].
  destruct (coadmin_walk_answers (users d) (referrals d) n Hl Hn j 0
              (ref_by m) eq_refl ltac:(lia)) as [a' Ha'].
  rewrite Ha'. f_equal. apply Huniq. exists m. split; auto.
  eapply coadmin_walk_sound; eauto using dir_usernames.
Qed.

(** * Affiliate income of the upline *)

Lemma credit_affiliate_0 u : credit_affiliate 0 u = u.
Proof.
  destruct u; unfold credit_affiliate; simpl. now rewrite Z.add_0_r.
Qed.

Lemma credit_affiliate_twice a b u :
  credit_affiliate b (credit_affiliate a u) = credit_affiliate (a + b) u.
Proof.
  destruct u; unfold credit_affiliate; simpl. now rewrite Z.add_assoc.
Qed.

Lemma keys_bump k0 p us : Dict.keys (bump k0 p us) = Dict.keys us.
Proof.
  unfold bump, Dict.keys. rewrite map_map. apply map_ext.
  intros [k u]; simpl. now destruct (k =? k0).
Qed.

Lemma bump_absent k0 p (us : Users) :
  ~ In k0 (Dict.keys us) -> bump k0 p us = us.
Proof.
  induction us as [|[k u] us IH]; simpl; auto.
  intros Hn. destruct (String.eqb_spec k k0) as [->|Hk]; [tauto|].
  rewrite IH; tauto.
Qed.

Lemma set_bump k0 u0 p (us : Users) :
  NoDup (Dict.keys us) -> In (k0, u0) us ->
  Dict.set k0 (credit_affiliate p u0) us = bump k0 p us.
Proof.
  induction us as [|[k u] us IH]; simpl; [tauto|].
  intros Hnd Hin. inversion Hnd as [|? ? Hnotin Hnd']; subst.
  destruct (String.eqb_spec k k0) as [->|Hk].
  - rewrite bump_absent by assumption.
    destruct Hin as [E|Hin]; [now inversion E|].
    exfalso. apply Hnotin. apply (in_map fst) in Hin. exact Hin.
  - destruct Hin as [E|Hin]; [inversion E; congruence|].
    now rewrite IH.
Qed.

Lemma get_bump k k0 p (us : Users) :
  Dict.get k (bump k0 p us)
  = option_map (fun u => if k =? k0 then credit_affiliate p u else u)
      (Dict.get k us).
Proof.
  induction us as [|[k' u] us IH]; simpl; auto.
  destruct (String.eqb_spec k' k0) as [->|Hk]; simpl.
  - destruct (String.eqb_spec k0 k) as [->|Hk']; simpl; auto.
    now rewrite String.eqb_refl.
  - destruct (String.eqb_spec k' k) as [->|Hk']; simpl; auto.
    destruct (String.eqb_spec k k0); [congruence | reflexivity].
Qed.

Lemma find_bump r k0 p (us : Users) :
  find_by_ref_id r (bump k0 p us)
  = option_map (fun e => if fst e =? k0
                         then (fst e, credit_affiliate p (snd e)) else e)
      (find_by_ref_id r us).
Proof.
  unfold find_by_ref_id.
  induction us as [|[k u] us IH]; simpl; auto.
  destruct (k =? k0) eqn:E; simpl; destruct (ref_id u =? r); simpl;
    rewrite ?E; auto.
Qed.

Lemma upline_bump n k0 p (us : Users) r :
  upline n (bump k0 p us) r = upline n us r.
Proof.
  revert r. induction n as [|n IH]; intros r; simpl; auto.
  destruct (r =? ROOT); auto. rewrite find_bump.
  destruct (find_by_ref_id r us) as [[k u]|]; simpl; auto.
  destruct (k =? k0); simpl; now rewrite IH.
Qed.

Lemma upline_ROOT n us : upline n us ROOT = [].
Proof. destruct n; reflexivity. Qed.

Lemma affiliate_loop_get :
  forall levels r (us : Users),
    NoDup (Dict.keys us) ->
    forallb truthy (Dict.keys us) = true ->
    r <> ROOT ->
    forall k,
      Dict.get k (affiliate_loop levels r us)
      = option_map
          (credit_affiliate
             (credits (upline (List.length levels) us r)
                (map (fun l => nth l level_payouts 0%Z) levels) k))
          (Dict.get k us).
Proof.
  induction levels as [|level rest IH]; intros r us Hnd Htr Hr k.
  - simpl. destruct (Dict.get k us); simpl; auto.
    now rewrite credit_affiliate_0.
  - simpl. apply String.eqb_neq in Hr. rewrite Hr.
    destruct (find_by_ref_id r us) as [[k0 u0]|] eqn:Hf.
    2:{ simpl. destruct (Dict.get k us); simpl; auto.
        now rewrite credit_affiliate_0. }
    pose proof (find_by_ref_id_Some _ _ _ _ Hf) as [Hin Hid].
    assert (Hk0 : truthy k0 = true).
    { rewrite forallb_forall in Htr. apply Htr.
      apply (in_map fst) in Hin. exact Hin. }
    rewrite Hk0. rewrite (set_bump k0 u0) by assumption.
    unfold find_referrer_ref_id. rewrite find_bump, Hf. simpl.
    rewrite String.eqb_refl. simpl.
    destruct (String.eqb_spec (ref_by u0) ROOT) as [Hroot|Hroot].
    + rewrite Hroot, upline_ROOT. simpl. rewrite get_bump.
      destruct (Dict.get k us) as [u|]; simpl; auto.
      rewrite String.eqb_sym. rewrite Z.add_0_r.
      destruct (k0 =? k); auto. now rewrite credit_affiliate_0.
    + rewrite IH; auto.
      * rewrite upline_bump, get_bump.
        destruct (Dict.get k us) as [u|]; simpl; auto.
        rewrite String.eqb_sym.
        destruct (k0 =? k); simpl.
        -- now rewrite credit_affiliate_twice.
        -- reflexivity.
      * now rewrite keys_bump.
      * now rewrite keys_bump.
Qed.

Lemma credits_not_in chain amounts k :
  ~ In k chain -> credits chain amounts k = 0%Z.
Proof.
  revert amounts. induction chain as [|c chain IH]; intros [|a amounts] Hn;
    simpl; auto.
  destruct (String.eqb_spec c k) as [->|Hc].
  - exfalso; apply Hn; now left.
  - rewrite IH; auto. intros H; apply Hn; now right.
Qed.

Lemma credits_at_level chain amounts i k :
  NoDup chain -> nth_error chain i = Some k ->
  credits chain amounts k = nth i amounts 0%Z.
Proof.
  revert amounts i. induction chain as [|c chain IH]; intros amounts i Hnd Hi.
  - destruct i; discriminate.
  - inversion Hnd as [|? ? Hnotin Hnd']; subst.
    destruct amounts as [|a amounts]; [destruct i; reflexivity|].
    destruct i as [|i]; simpl in *.
    + inversion Hi; subst c. rewrite String.eqb_refl.
      rewrite credits_not_in by assumption. lia.
    + destruct (String.eqb_spec c k) as [->|Hc].
      * exfalso. apply Hnotin. eapply nth_error_In; eauto.
      * now rewrite (IH amounts i).
Qed.

Lemma upline_length n us r : List.length (upline n us r) <= n.
Proof.
  revert r. induction n as [|n IH]; intros r; simpl; auto.
  destruct (r =? ROOT); simpl; [lia|].
  destruct (find_by_ref_id r us) as [[k u]|]; simpl; [|lia].
  specialize (IH (ref_by u)). lia.
Qed.

Lemma mem_false_not_key {V : Type} k (d : Dict.t V) :
  Dict.mem k d = false -> ~ In k (Dict.keys d).
Proof.
  intros H Hin. apply DictFacts.mem_keys in Hin. congruence.
Qed.

Lemma keys_set_absent {V : Type} k (v : V) (d : Dict.t V) :
  ~ In k (Dict.keys d) -> Dict.keys (Dict.set k v d) = (Dict.keys d ++ [k])%list.
Proof.
  intros H. rewrite DictFacts.set_absent by assumption.
  unfold Dict.keys. now rewrite map_app.
Qed.

Lemma NoDup_snoc {A : Type} (l : list A) x :
  NoDup l -> ~ In x l -> NoDup (l ++ [x]).
Proof.
  intros Hnd Hx. apply NoDup_app; auto.
  - repeat constructor; simpl; tauto.
  - intros a Ha [<-|[]]. contradiction.
Qed.

(** * The role of a new user *)

Lemma links_bump k0 p us : links (bump k0 p us) = links us.
Proof.
  unfold links, bump. rewrite map_map. apply map_ext.
  intros [k u]; simpl. now destruct (k =? k0).
Qed.

Lemma links_affiliate_loop levels :
  forall r (us : Users),
    NoDup (Dict.keys us) -> links (affiliate_loop levels r us) = links us.
Proof.
  induction levels as [|level rest IH]; intros r us Hnd; simpl; auto.
  destruct (find_by_ref_id r us) as [[k0 u0]|] eqn:Hf; auto.
  apply find_by_ref_id_Some in Hf. destruct Hf as [Hin _].
  destruct (truthy k0); auto.
  rewrite (set_bump k0 u0) by assumption.
  destruct (find_referrer_ref_id r (bump k0 _ us)) as [next|];
    [|apply links_bump].
  destruct (next =? ROOT); [apply links_bump|].
  rewrite IH; [apply links_bump|]. now rewrite keys_bump.
Qed.

Lemma register_user_links name_ username password_ referral_id explicit_role
    today d reg :
  NoDup (Dict.keys (users d)) ->
  register_user name_ username password_ referral_id explicit_role today d
    = Done reg ->
  links (users (reg_data reg))
  = (links (users d)
     ++ [(username, (generate_ref_id (count d), referral_id, reg_role reg))])%list.
Proof.
  intros Hnd Hreg.
  pose proof (register_user_done _ _ _ _ _ _ _ _ Hreg) as (Hmem & _ & Hrole & _).
  apply mem_false_not_key in Hmem.
  rewrite (register_user_users _ _ _ _ _ _ _ _ Hreg).
  pose proof (register_user_done _ _ _ _ _ _ _ _ Hreg) as (_ & Hid & _).
  rewrite Hid.
  assert (Hl : links (Dict.set username
                 (newcomer name_ password_ (generate_ref_id (count d))
                    referral_id today (reg_role reg)) (users d))
               = (links (users d)
                  ++ [(username, (generate_ref_id (count d), referral_id,
                                  reg_role reg))])%list).
  { rewrite DictFacts.set_absent by assumption.
    unfold links. rewrite map_app. reflexivity. }
  destruct (_ =? "member"); auto.
  rewrite links_affiliate_loop; auto.
  rewrite keys_set_absent by assumption. now apply NoDup_snoc.
Qed.

Lemma determine_role_prescribed referral_id explicit_role us :
  determine_role referral_id explicit_role us
  = prescribed_role referral_id explicit_role.
Proof.
  unfold determine_role, prescribed_role.
  destruct (supplied explicit_role); auto.
  destruct (referral_id =? "PRG1001"); auto.
  destruct (find_by_ref_id referral_id us) as [[k u]|]; auto.
  now destruct (truthy k && (role u =? "coadmin")).
Qed.

Lemma logged_out_form_passes_no_role ses ref selected :
  logged_in ses = false ->
  explicit_role_selection_by_admin ses ref selected = None.
Proof.
  intros H. unfold explicit_role_selection_by_admin. rewrite H.
  now destruct (session_user ses).
Qed.

(** C5, as stated, fails: [register_user] accepts an explicit role outside
    coadmin and member, from whoever calls it, and stores it. *)
Lemma explicit_role_is_not_validated :
  exists reg,
    register_user "Eve" "eve" "pw" "PRG1001" (Some "admin") "2025-01-01"
      (initial_data "2025-01-01") = Done reg
    /\ reg_role reg = "admin"
    /\ ~ In (reg_role reg) role_options.
Proof.
  eexists. split; [reflexivity|]. split; [reflexivity|].
  simpl. intuition discriminate.
Qed.

(** C5, amended: the role of a new user is the explicit role when a
    non-empty one is supplied, else coadmin when the referral id is
    [PRG1001] (the admin's), else member, and the directory lists the new
    user with that role.  [register_user] never inspects who supplies an
    explicit role nor which one: a registration that succeeds with one
    explicit role succeeds with any other, and there is no failure for an
    invalid explicit role.  In the script nobody supplies one.  The select
    box of the registration form (options coadmin and member, for a
    logged-in admin who typed their own ref_id) stands in a form that only a
    visitor who is not logged in gets, so the form always passes no explicit
    role, and the Add Member form passes none either: a registration through
    either form gets coadmin under [PRG1001] and member otherwise. *)
Theorem register_user_role_first_match :
  forall name_ username password_ referral_id explicit_role today d reg,
    NoDup (Dict.keys (users d)) ->
    register_user name_ username password_ referral_id explicit_role today d
      = Done reg ->
    reg_role reg = prescribed_role referral_id explicit_role
    /\ In (username, (reg_ref_id reg, referral_id, reg_role reg))
          (links (users (reg_data reg)))
    /\ (forall explicit_role',
          exists reg',
            register_user name_ username password_ referral_id explicit_role'
              today d = Done reg'
            /\ reg_role reg' = prescribed_role referral_id explicit_role')
    /\ (forall ses selected x,
          explicit_role_selection_by_admin ses referral_id selected = Some x ->
          (x = "coadmin" \/ x = "member") /\ logged_in ses = true
          /\ exists a, session_user ses = Some a /\ role a = "admin"
                       /\ ref_id a = referral_id)
    /\ (forall ses selected,
          logged_in ses = true ->
          register_form ses name_ username password_ referral_id selected
            today d = NotOffered)
    /\ (forall ses selected reg',
          register_form ses name_ username password_ referral_id selected
            today d = Pressing (Done reg') ->
          logged_in ses = false
          /\ register_user name_ username password_ referral_id None today d
             = Done reg'
          /\ reg_role reg'
             = if referral_id =? "PRG1001" then "coadmin" else "member")
    /\ (forall reg',
          add_member_form referral_id name_ username password_ today d
            = Done reg' ->
          reg_role reg'
          = if referral_id =? "PRG1001" then "coadmin" else "member").
Proof.
  intros name_ username password_ referral_id explicit_role today d reg
         Hnd Hreg.
  pose proof (register_user_done _ _ _ _ _ _ _ _ Hreg) as (_ & Hid & Hrole & _).
  split; [now rewrite Hrole, determine_role_prescribed|].
  split.
  { rewrite (register_user_links _ _ _ _ _ _ _ _ Hnd Hreg), Hid.
    apply in_or_app. right. now left. }
  split.
  { intros explicit_role'. revert Hreg. unfold register_user.
    destruct (Dict.mem username (users d)); [discriminate|].
    destruct (negb (Dict.mem referral_id (referrals d))
              && negb (referral_id =? "PRG1001")); [discriminate|].
    destruct ((referral_id =? ROOT) && negb (username =? "admin"));
      [discriminate|].
    destruct (Dict.get referral_id _); [|discriminate].
    intros _. eexists. split; [reflexivity|]. simpl.
    apply determine_role_prescribed. }
  split.
  { intros ses selected x. unfold explicit_role_selection_by_admin.
    destruct (session_user ses) as [a|]; [|discriminate].
    destruct (logged_in ses); simpl; [|discriminate].
    destruct (String.eqb_spec (role a) "admin") as [Ha|]; simpl; [|discriminate].
    destruct (String.eqb_spec referral_id (ref_id a)) as [Hr|]; [|discriminate].
    intros H; inversion H; subst x. split.
    - destruct selected; [now left | now right].
    - split; [reflexivity|]. exists a; auto. }
  split.
  { intros ses selected Hl. unfold register_form. now rewrite Hl. }
  split.
  { intros ses selected reg'. unfold register_form.
    destruct (logged_in ses) eqn:Hl; [discriminate|]. cbn [negb].
    destruct (negb (truthy name_) || negb (truthy username)
              || negb (truthy password_) || negb (truthy referral_id));
      [discriminate|].
    rewrite (logged_out_form_passes_no_role _ _ _ Hl).
    intros H. inversion H as [Hreg']. split; [reflexivity|].
    split; [reflexivity|].
    pose proof (register_user_done _ _ _ _ _ _ _ _ Hreg') as (_ & _ & Hr & _).
    rewrite Hr, determine_role_prescribed. reflexivity. }
  intros reg'. unfold add_member_form.
  destruct (negb (truthy name_) || negb (truthy username)); [discriminate|].
  intros Hreg'.
  pose proof (register_user_done _ _ _ _ _ _ _ _ Hreg') as (_ & _ & Hr & _).
  rewrite Hr, determine_role_prescribed. reflexivity.
Qed.

Lemma register_user_role_first_match_witness :
  exists reg,
    register_user "Chitra" "chitra" "pw" "PRG1001" None "2025-01-01"
      (initial_data "2025-01-01") = Done reg
    /\ reg_role reg = "coadmin"
    /\ (exists reg',
          register_user "Chitra" "chitra" "pw" "PRG1001" (Some "member")
            "2025-01-01" (initial_data "2025-01-01") = Done reg'
          /\ reg_role reg' = "member")
    /\ register_form
         (mkSession true
            (Some (mkUser "Admin" "admin123" "PRG1001" "ROOT" 0 0
                     "2025-01-01" "admin"))
            (Some "admin"))
         "Chitra" "chitra" "pw" "PRG1001" member_option "2025-01-01"
         (initial_data "2025-01-01") = NotOffered
    /\ (exists reg',
          register_form (mkSession false None None)
            "Chitra" "chitra" "pw" "PRG1001" member_option "2025-01-01"
            (initial_data "2025-01-01") = Pressing (Done reg')
          /\ reg_role reg' = "coadmin").
Proof.
  eexists. split; [reflexivity|].
  pose proof (register_user_role_first_match "Chitra" "chitra" "pw" "PRG1001"
                None "2025-01-01" (initial_data "2025-01-01") _
                ltac:(repeat constructor; simpl; intuition discriminate)
                eq_refl) as (H1 & _ & H3 & _ & H5 & H6 & _).
  split; [exact H1|]. split; [exact (H3 (Some "member"))|].
  split; [apply H5; reflexivity|].
  eexists. split; [reflexivity|].
  exact (proj2 (proj2 (H6 (mkSession false None None) member_option _
                         eq_refl))).
Defined.

(** * The directory invariants *)

Lemma string_of_Z_inj a b :
  NilZero.string_of_int (Z.to_int a) = NilZero.string_of_int (Z.to_int b) ->
  a = b.
Proof.
  intros H.
  assert (Hn : forall z, Z.to_int z <> Decimal.Pos Decimal.Nil
                         /\ Z.to_int z <> Decimal.Neg Decimal.Nil).
  { intros [|p|p]; simpl; split; try discriminate;
      intros E; inversion E as [E'];
      now apply DecimalPos.Unsigned.to_uint_nonnil in E'. }
  apply DecimalZ.to_int_inj.
  assert (E : Some (Z.to_int a) = Some (Z.to_int b)).
  { rewrite <- (NilZero.isi (Z.to_int a)) by apply Hn.
    rewrite <- (NilZero.isi (Z.to_int b)) by apply Hn.
    now rewrite H. }
  now inversion E.
Qed.

Lemma append_inj_r (p s1 s2 : string) : p ++ s1 = p ++ s2 -> s1 = s2.
Proof.
  induction p as [|c p IH]; simpl; auto. intros H. inversion H. auto.
Qed.

Lemma generate_ref_id_inj a b : generate_ref_id a = generate_ref_id b -> a = b.
Proof.
  unfold generate_ref_id. intros H.
  apply append_inj_r in H. apply string_of_Z_inj in H. lia.
Qed.

Lemma generate_ref_id_not_ROOT a : generate_ref_id a <> ROOT.
Proof. unfold generate_ref_id. simpl. discriminate. Qed.

Lemma children_set k v (rs : Referrals) x :
  children (Dict.set k v rs) x = if k =? x then v else children rs x.
Proof.
  unfold children. destruct (String.eqb_spec k x) as [->|Hk].
  - now rewrite DictFacts.get_set_same.
  - now rewrite DictFacts.get_set_other.
Qed.

Lemma children_key rs p c : In c (children rs p) -> In p (Dict.keys rs).
Proof.
  unfold children. destruct (Dict.get p rs) eqn:E; [|contradiction].
  intros _. apply DictFacts.get_In in E. apply (in_map fst) in E. exact E.
Qed.

Lemma descendant_snoc rs p b c :
  descendant rs p b -> In c (children rs b) -> descendant rs p c.
Proof.
  induction 1 as [p b Hb|p b x Hb Hx IH]; intros Hc.
  - eapply desc_step; eauto. now apply desc_child.
  - eapply desc_step; eauto.
Qed.

Lemma descendant_depth rs p c :
  descendant rs p c ->
  forall m, depth_below rs m p = true ->
    exists m', m' < m /\ depth_below rs m' c = true.
Proof.
  induction 1 as [p c Hc|p c x Hc Hx IH]; intros m Hm.
  - destruct m as [|m]; [discriminate|]. simpl in Hm.
    rewrite forallb_forall in Hm. exists m. split; [lia|auto].
  - destruct m as [|m]; [discriminate|]. simpl in Hm.
    rewrite forallb_forall in Hm.
    destruct (IH m (Hm _ Hc)) as (m' & Hlt & Hd). exists m'. split; [lia|auto].
Qed.

Lemma depth_below_no_cycle rs :
  forall m r, depth_below rs m r = true -> ~ descendant rs r r.
Proof.
  induction m as [m IH] using lt_wf_ind. intros r Hm Hd.
  destruct (descendant_depth rs r r Hd m Hm) as (m' & Hlt & Hm').
  exact (IH m' Hlt r Hm' Hd).
Qed.

Lemma depth_below_sub rs rs' :
  (forall p c, In c (children rs' p) -> In c (children rs p)) ->
  forall m r, depth_below rs m r = true -> depth_below rs' m r = true.
Proof.
  intros Hsub. induction m as [|m IH]; intros r; [discriminate|].
  simpl. rewrite !forallb_forall. intros H c Hc. auto.
Qed.

#[local] Arguments generate_ref_id : simpl never.

Section RegisterPreserves.
Variables (ls : list Link) (rs : Referrals) (c : Z).
Variables (username referral role_ : string).
Hypothesis Hinv : forest_inv ls rs c.
Hypothesis Huser : truthy username = true.
Hypothesis Hnew : ~ In username (map fst ls).
Hypothesis Hkey : In referral (Dict.keys rs).
Hypothesis Hnotroot : referral <> ROOT.

Lemma fresh_not_owned : forall e, In e ls -> l_ref_id e <> generate_ref_id c.
Proof.
  intros e He Heq. destruct (inv_counter _ _ _ Hinv e He) as (j & Hj & Hid).
  rewrite Hid in Heq. apply generate_ref_id_inj in Heq. lia.
Qed.

Lemma fresh_not_key : ~ In (generate_ref_id c) (Dict.keys rs).
Proof.
  intros H. destruct (inv_key_is_owned _ _ _ Hinv _ H) as (e & He & Hid).
  exact (fresh_not_owned e He Hid).
Qed.

Lemma fresh_not_child : forall p, ~ In (generate_ref_id c) (children rs p).
Proof.
  intros p H. destruct (inv_child_of_parent _ _ _ Hinv _ _ H) as (e & He & Hid & _).
  exact (fresh_not_owned e He Hid).
Qed.

Lemma referral_not_fresh : referral <> generate_ref_id c.
Proof. intros E. apply fresh_not_key. now rewrite <- E. Qed.

Lemma children_registered x :
  children (registered rs referral (generate_ref_id c)) x
  = if referral =? x then (children rs referral ++ [generate_ref_id c])%list
    else if generate_ref_id c =? x then [] else children rs x.
Proof. unfold registered. now rewrite !children_set. Qed.

Lemma keys_registered :
  Dict.keys (registered rs referral (generate_ref_id c))
  = (Dict.keys rs ++ [generate_ref_id c])%list.
Proof.
  unfold registered. rewrite DictFacts.keys_set_present.
  - apply keys_set_absent, fresh_not_key.
  - rewrite keys_set_absent by apply fresh_not_key.
    apply in_or_app. now left.
Qed.

Lemma depth_registered :
  forall m r,
    depth_below rs m r = true ->
    depth_below (registered rs referral (generate_ref_id c)) (S m) r = true.
Proof.
  induction m as [|m IH]; intros r; [discriminate|].
  intros H. simpl in H. rewrite forallb_forall in H.
  change (forallb
            (depth_below (registered rs referral (generate_ref_id c)) (S m))
            (children (registered rs referral (generate_ref_id c)) r) = true).
  rewrite forallb_forall. intros x Hx. rewrite children_registered in Hx.
  assert (Hfresh : depth_below (registered rs referral (generate_ref_id c))
                     (S m) (generate_ref_id c) = true).
  { simpl. rewrite children_registered.
    destruct (String.eqb_spec referral (generate_ref_id c)) as [E|_];
      [now apply referral_not_fresh in E|].
    now rewrite String.eqb_refl. }
  destruct (String.eqb_spec referral r) as [->|Hr].
  - apply in_app_or in Hx. destruct Hx as [Hx|[<-|[]]]; auto.
  - destruct (generate_ref_id c =? r); [contradiction|]. auto.
Qed.
Lemma forest_inv_registered :
  forest_inv (ls ++ [(username, (generate_ref_id c, referral, role_))])
    (registered rs referral (generate_ref_id c)) (c + 1).
Proof.
  constructor.
  - rewrite map_app. apply NoDup_snoc; [apply (inv_user_keys _ _ _ Hinv)|].
    exact Hnew.
  - rewrite keys_registered.
    apply NoDup_snoc; [apply (inv_referral_keys _ _ _ Hinv)|].
    apply fresh_not_key.
  - intros e He. apply in_app_or in He. destruct He as [He|[<-|[]]].
    + now apply (inv_usernames _ _ _ Hinv).
    + exact Huser.
  - apply in_or_app. left. apply (inv_admin _ _ _ Hinv).
  - intros e He Hr. apply in_app_or in He. destruct He as [He|[<-|[]]].
    + now apply (inv_root_is_admin _ _ _ Hinv).
    + now elim Hnotroot.
  - rewrite map_app. apply NoDup_snoc; [apply (inv_ref_ids_unique _ _ _ Hinv)|].
    intros Hin. apply in_map_iff in Hin. destruct Hin as (e & Hid & He).
    exact (fresh_not_owned e He Hid).
  - intros e He. apply in_app_or in He. destruct He as [He|[<-|[]]].
    + destruct (inv_counter _ _ _ Hinv e He) as (j & Hj & Hid).
      exists j. split; [lia|auto].
    + exists c. split; [lia|reflexivity].
  - intros e He. rewrite keys_registered. apply in_or_app.
    apply in_app_or in He. destruct He as [He|[<-|[]]].
    + left. now apply (inv_ref_id_is_key _ _ _ Hinv).
    + right. now left.
  - intros r Hr. rewrite keys_registered in Hr. apply in_app_or in Hr.
    destruct Hr as [Hr|[<-|[]]].
    + destruct (inv_key_is_owned _ _ _ Hinv r Hr) as (e & He & Hid).
      exists e. split; auto. apply in_or_app. now left.
    + eexists. split; [apply in_or_app; right; left; reflexivity|reflexivity].
  - intros e He Hroot. rewrite children_registered.
    apply in_app_or in He. destruct He as [He|[<-|[]]].
    + pose proof (inv_child_once _ _ _ Hinv e He Hroot) as Hone.
      destruct (String.eqb_spec referral (l_ref_by e)) as [->|Hne].
      * rewrite count_occ_app, Hone. cbn [count_occ].
        destruct (string_dec (generate_ref_id c) (l_ref_id e)) as [E|_]; auto.
        symmetry in E. now apply fresh_not_owned in E.
      * destruct (String.eqb_spec (generate_ref_id c) (l_ref_by e)) as [E|_];
          auto.
        rewrite <- E, children_not_key in Hone by apply fresh_not_key.
        discriminate.
    + unfold l_ref_by, l_ref_id; simpl. rewrite String.eqb_refl.
      rewrite count_occ_app.
      rewrite (proj1 (count_occ_not_In string_dec _ _) (fresh_not_child referral)).
      cbn [count_occ].
      now destruct (string_dec (generate_ref_id c) (generate_ref_id c)).
  - intros p c0 Hc. rewrite children_registered in Hc.
    destruct (String.eqb_spec referral p) as [->|Hne].
    + apply in_app_or in Hc. destruct Hc as [Hc|[<-|[]]].
      * destruct (inv_child_of_parent _ _ _ Hinv _ _ Hc) as (e & He & H1 & H2).
        exists e. split; auto. apply in_or_app. now left.
      * eexists. split; [apply in_or_app; right; left; reflexivity|].
        split; reflexivity.
    + destruct (generate_ref_id c =? p); [contradiction|].
      destruct (inv_child_of_parent _ _ _ Hinv _ _ Hc) as (e & He & H1 & H2).
      exists e. split; auto. apply in_or_app. now left.
  - destruct (inv_acyclic _ _ _ Hinv) as [n Hn]. exists (S n).
    intros r. apply depth_registered, Hn.
Qed.
End RegisterPreserves.

Lemma register_user_checks name_ username password_ referral_id explicit_role
    today d reg :
  register_user name_ username password_ referral_id explicit_role today d
    = Done reg ->
  (In referral_id (Dict.keys (referrals d)) \/ referral_id = "PRG1001")
  /\ (referral_id <> ROOT \/ username = "admin").
Proof.
  unfold register_user.
  destruct (Dict.mem username (users d)); [discriminate|].
  destruct (Dict.mem referral_id (referrals d)) eqn:Hm; simpl.
  - apply DictFacts.mem_keys in Hm.
    destruct (String.eqb_spec referral_id ROOT) as [Hr|Hr]; simpl.
    + destruct (String.eqb_spec username "admin"); simpl; [|discriminate].
      intros _. auto.
    + intros _. auto.
  - destruct (String.eqb_spec referral_id "PRG1001") as [Hp|Hp]; simpl;
      [|discriminate].
    intros _. split; auto. left. subst referral_id. discriminate.
Qed.

Lemma register_user_preserves_inv name_ username password_ referral_id
    explicit_role today d reg :
  directory_inv d ->
  truthy username = true ->
  register_user name_ username password_ referral_id explicit_role today d
    = Done reg ->
  directory_inv (reg_data reg).
Proof.
  intros Hinv Huser Hreg. unfold directory_inv in *.
  pose proof (register_user_done _ _ _ _ _ _ _ _ Hreg)
    as (Hmem & _ & _ & Hcount & kids & Hkids & Hrefs).
  pose proof (register_user_checks _ _ _ _ _ _ _ _ Hreg) as [Hkey Hroot].
  apply mem_false_not_key in Hmem. rewrite keys_links in Hmem.
  assert (Hadmin : In "admin" (map fst (links (users d)))).
  { exact (in_map fst _ _ (inv_admin _ _ _ Hinv)). }
  assert (Hkey' : In referral_id (Dict.keys (referrals d))).
  { destruct Hkey as [Hkey| ->]; auto.
    apply (inv_ref_id_is_key _ _ _ Hinv _ (inv_admin _ _ _ Hinv)). }
  assert (Hroot' : referral_id <> ROOT).
  { destruct Hroot as [Hroot| ->]; auto; contradiction. }
  pose proof (fresh_not_key _ _ _ Hinv) as Hfresh.
  assert (Hne : generate_ref_id (count d) <> referral_id).
  { intros E. apply Hfresh. now rewrite E. }
  assert (Hsd : Dict.setdefault (generate_ref_id (count d)) [] (referrals d)
                = Dict.set (generate_ref_id (count d)) [] (referrals d)).
  { unfold Dict.setdefault.
    destruct (Dict.mem (generate_ref_id (count d)) (referrals d)) eqn:E; auto.
    apply DictFacts.mem_keys in E. contradiction. }
  rewrite Hsd in Hkids, Hrefs.
  rewrite DictFacts.get_set_other in Hkids by assumption.
  assert (Hch : children (referrals d) referral_id = kids).
  { unfold children. now rewrite Hkids. }
  rewrite (register_user_links _ _ _ _ _ _ _ _ (dir_user_keys d Hinv) Hreg).
  rewrite Hrefs, Hcount, <- Hch.
  now apply forest_inv_registered.
Qed.

(** ** Deleting a member *)

Lemma del_filter {V : Type} k (d : Dict.t V) :
  NoDup (Dict.keys d) ->
  Dict.del k d = filter (fun e => negb (fst e =? k)) d.
Proof.
  induction d as [|[k' v] d IH]; simpl; auto.
  intros Hnd. inversion Hnd as [|? ? Hnotin Hnd']; subst.
  destruct (String.eqb_spec k' k) as [->|Hk]; simpl.
  - symmetry. apply forallb_filter_id. apply forallb_forall.
    intros [k0 v0] Hin. simpl.
    destruct (String.eqb_spec k0 k) as [->|]; auto.
    exfalso. apply Hnotin. apply (in_map fst) in Hin. exact Hin.
  - now rewrite IH.
Qed.

Lemma keys_filter {V : Type} (g : string -> bool) (d : Dict.t V) :
  Dict.keys (filter (fun e => g (fst e)) d) = filter g (Dict.keys d).
Proof.
  induction d as [|[k v] d IH]; simpl; auto.
  destruct (g k); simpl; now rewrite IH.
Qed.

Lemma get_filter_key {V : Type} (g : string -> bool) x (d : Dict.t V) :
  Dict.get x (filter (fun e => g (fst e)) d)
  = if g x then Dict.get x d else None.
Proof.
  induction d as [|[k v] d IH]; simpl.
  - now destruct (g x).
  - destruct (g k) eqn:Hg; simpl.
    + destruct (String.eqb_spec k x) as [->|Hk]; [now rewrite Hg | auto].
    + destruct (String.eqb_spec k x) as [->|Hk]; [now rewrite IH, Hg | auto].
Qed.

Lemma links_filter (g : string -> bool) (us : Users) :
  links (filter (fun e => g (fst e)) us)
  = filter (fun e => g (fst e)) (links us).
Proof.
  induction us as [|[k u] us IH]; simpl; auto.
  destruct (g k); simpl; now rewrite IH.
Qed.

Lemma NoDup_map_filter {A B : Type} (h : A -> B) (f : A -> bool) (l : list A) :
  NoDup (map h l) -> NoDup (map h (filter f l)).
Proof.
  induction l as [|a l IH]; simpl; auto.
  intros Hnd. inversion Hnd as [|? ? Hnotin Hnd']; subst.
  destruct (f a); simpl; auto. constructor; auto.
  intros Hin. apply Hnotin. apply in_map_iff in Hin.
  destruct Hin as (x & Hx & Hin). apply filter_In in Hin.
  apply in_map_iff. exists x. tauto.
Qed.

Lemma count_occ_list_remove x y l :
  y <> x -> count_occ string_dec (list_remove x l) y = count_occ string_dec l y.
Proof.
  intros Hne. induction l as [|z l IH]; simpl; auto.
  destruct (String.eqb_spec z x) as [->|Hz].
  - destruct (string_dec x y); congruence.
  - simpl. destruct (string_dec z y); auto.
Qed.

Lemma In_list_remove x y l : In y (list_remove x l) -> In y l.
Proof.
  induction l as [|z l IH]; simpl; auto.
  destruct (String.eqb_spec z x) as [->|Hz]; simpl; tauto.
Qed.

Lemma list_remove_once x l :
  count_occ string_dec l x = 1 -> ~ In x (list_remove x l).
Proof.
  induction l as [|z l IH]; simpl; [discriminate|].
  destruct (String.eqb_spec z x) as [->|Hz].
  - destruct (string_dec x x); [|congruence]. intros H.
    apply (count_occ_not_In string_dec). lia.
  - destruct (string_dec z x); [congruence|]. simpl. intros H [?|?]; auto.
    now apply IH.
Qed.

Section DeletePreserves.
Variables (ls : list Link) (rs : Referrals) (c : Z) (m : Link).
Hypothesis Hinv : forest_inv ls rs c.
Hypothesis Hm : In m ls.
Hypothesis Hrole : l_role m = "member".
Hypothesis Hleaf : forall e, In e ls -> l_ref_by e <> l_ref_id m.

Lemma member_not_admin : fst m <> "admin".
Proof.
  intros E.
  pose proof (NoDup_map_In_inj fst ls m _ (inv_user_keys _ _ _ Hinv) Hm
                (inv_admin _ _ _ Hinv) E) as Heq.
  rewrite Heq in Hrole. discriminate.
Qed.

Lemma member_has_referrer : l_ref_by m <> ROOT.
Proof.
  intros E. apply member_not_admin.
  now apply (inv_root_is_admin _ _ _ Hinv).
Qed.

Lemma member_listed_once :
  count_occ string_dec (children rs (l_ref_by m)) (l_ref_id m) = 1.
Proof. apply (inv_child_once _ _ _ Hinv m Hm member_has_referrer). Qed.

Lemma in_deleted e :
  In e (deleted_links (fst m) ls) <-> In e ls /\ l_ref_id e <> l_ref_id m.
Proof.
  unfold deleted_links. rewrite filter_In. split; intros [He H]; split; auto.
  - intros E.
    pose proof (NoDup_map_In_inj l_ref_id ls e m
                  (inv_ref_ids_unique _ _ _ Hinv) He Hm E) as Heq.
    subst e. rewrite String.eqb_refl in H. discriminate.
  - destruct (String.eqb_spec (fst e) (fst m)) as [E|]; auto.
    pose proof (NoDup_map_In_inj fst ls e m (inv_user_keys _ _ _ Hinv) He Hm E).
    subst e. congruence.
Qed.

Lemma children_deleted x :
  children (deleted_referrals rs (l_ref_by m) (l_ref_id m)) x
  = if l_ref_by m =? x then list_remove (l_ref_id m) (children rs (l_ref_by m))
    else if l_ref_id m =? x then [] else children rs x.
Proof.
  unfold deleted_referrals. rewrite children_set.
  destruct (l_ref_by m =? x); auto.
  unfold children.
  rewrite (get_filter_key (fun k => negb (k =? l_ref_id m))).
  rewrite (String.eqb_sym x). now destruct (l_ref_id m =? x).
Qed.

Lemma children_deleted_sub p x :
  In x (children (deleted_referrals rs (l_ref_by m) (l_ref_id m)) p) ->
  In x (children rs p) /\ x <> l_ref_id m.
Proof.
  rewrite children_deleted.
  destruct (String.eqb_spec (l_ref_by m) p) as [<-|Hp].
  - intros H. split; [now apply In_list_remove in H|].
    intros ->. now apply (list_remove_once _ _ member_listed_once).
  - destruct (l_ref_id m =? p); [contradiction|].
    intros H. split; auto. intros ->.
    destruct (inv_child_of_parent _ _ _ Hinv _ _ H) as (e & He & Hid & Hby).
    pose proof (NoDup_map_In_inj l_ref_id ls e m
                  (inv_ref_ids_unique _ _ _ Hinv) He Hm Hid). subst e. auto.
Qed.

Lemma referrer_still_key :
  In (l_ref_by m)
     (Dict.keys (filter (fun e => negb (fst e =? l_ref_id m)) rs)).
Proof.
  rewrite (keys_filter (fun k => negb (k =? l_ref_id m))), filter_In. split.
  - eapply children_key. apply (count_occ_In string_dec).
    rewrite member_listed_once. lia.
  - destruct (String.eqb_spec (l_ref_by m) (l_ref_id m)) as [E|]; auto.
    now apply (Hleaf m Hm) in E.
Qed.

Lemma keys_deleted x :
  In x (Dict.keys (deleted_referrals rs (l_ref_by m) (l_ref_id m)))
  <-> In x (Dict.keys rs) /\ x <> l_ref_id m.
Proof.
  unfold deleted_referrals.
  rewrite DictFacts.keys_set_present by apply referrer_still_key.
  rewrite (keys_filter (fun k => negb (k =? l_ref_id m))), filter_In.
  destruct (String.eqb_spec x (l_ref_id m)); simpl; intuition congruence.
Qed.

Lemma forest_inv_deleted :
  forest_inv (deleted_links (fst m) ls)
    (deleted_referrals rs (l_ref_by m) (l_ref_id m)) c.
Proof.
  constructor.
  - apply NoDup_map_filter, (inv_user_keys _ _ _ Hinv).
  - unfold deleted_referrals.
    rewrite DictFacts.keys_set_present by apply referrer_still_key.
    rewrite (keys_filter (fun k => negb (k =? l_ref_id m))).
    apply NoDup_filter, (inv_referral_keys _ _ _ Hinv).
  - intros e He. apply in_deleted in He. now apply (inv_usernames _ _ _ Hinv).
  - apply in_deleted. split; [apply (inv_admin _ _ _ Hinv)|].
    intros E. apply member_not_admin.
    pose proof (NoDup_map_In_inj l_ref_id ls _ m
                  (inv_ref_ids_unique _ _ _ Hinv) (inv_admin _ _ _ Hinv) Hm E)
      as Heq.
    now rewrite <- Heq.
  - intros e He. apply in_deleted in He.
    now apply (inv_root_is_admin _ _ _ Hinv).
  - apply NoDup_map_filter, (inv_ref_ids_unique _ _ _ Hinv).
  - intros e He. apply in_deleted in He. now apply (inv_counter _ _ _ Hinv).
  - intros e He. apply in_deleted in He. destruct He as [He Hne].
    apply keys_deleted. split; auto. now apply (inv_ref_id_is_key _ _ _ Hinv).
  - intros r Hr. apply keys_deleted in Hr. destruct Hr as [Hr Hne].
    destruct (inv_key_is_owned _ _ _ Hinv r Hr) as (e & He & Hid).
    exists e. split; auto. apply in_deleted. split; auto. congruence.
  - intros e He Hroot. apply in_deleted in He. destruct He as [He Hne].
    rewrite children_deleted.
    pose proof (inv_child_once _ _ _ Hinv e He Hroot) as Hone.
    destruct (String.eqb_spec (l_ref_by m) (l_ref_by e)) as [E|_].
    + rewrite count_occ_list_remove by assumption. now rewrite E.
    + destruct (String.eqb_spec (l_ref_id m) (l_ref_by e)) as [E|_]; auto.
      symmetry in E. now apply (Hleaf e He) in E.
  - intros p x Hx. apply children_deleted_sub in Hx. destruct Hx as [Hx Hne].
    destruct (inv_child_of_parent _ _ _ Hinv _ _ Hx) as (e & He & Hid & Hby).
    exists e. split; auto. apply in_deleted. split; auto. congruence.
  - destruct (inv_acyclic _ _ _ Hinv) as [n Hn]. exists n. intros r.
    apply (depth_below_sub rs); auto.
    intros p x Hx. now apply children_deleted_sub in Hx.
Qed.
End DeletePreserves.

Lemma my_direct_members_In own mu mi d :
  In (mu, mi) (my_direct_members own d) ->
  In (mu, mi) (users d) /\ ref_by mi = own /\ role mi = "member".
Proof.
  unfold my_direct_members. rewrite filter_In. simpl.
  rewrite andb_true_iff, !String.eqb_eq. tauto.
Qed.

Lemma delete_member_shape own mu mi d :
  directory_inv d ->
  In (mu, mi) (my_direct_members own d) ->
  links (users (delete_member own mu mi d))
  = deleted_links mu (links (users d))
  /\ referrals (delete_member own mu mi d)
     = if own =? ref_id mi
       then filter (fun e => negb (fst e =? ref_id mi)) (referrals d)
       else deleted_referrals (referrals d) own (ref_id mi).
Proof.
  intros Hinv Hin. apply my_direct_members_In in Hin.
  destruct Hin as (Hin & Hby & Hrole).
  pose proof (In_links _ _ _ Hin) as Hl.
  assert (Hm : l_role (link (mu, mi)) = "member") by exact Hrole.
  pose proof (member_listed_once _ _ _ _ Hinv Hl Hm) as Hone.
  unfold l_ref_by, l_ref_id in Hone; simpl in Hone. rewrite Hby in Hone.
  unfold delete_member; simpl. split.
  - assert (Hmem : Dict.mem mu (users d) = true).
    { apply DictFacts.mem_keys. apply (in_map fst) in Hin. exact Hin. }
    rewrite Hmem, (del_filter mu) by now apply dir_user_keys.
    apply (links_filter (fun k => negb (k =? mu))).
  - assert (Hmem : Dict.mem (ref_id mi) (referrals d) = true).
    { apply DictFacts.mem_keys.
      apply (inv_ref_id_is_key _ _ _ Hinv _ Hl). }
    rewrite Hmem, (del_filter (ref_id mi))
      by apply (inv_referral_keys _ _ _ Hinv).
    rewrite (get_filter_key (fun k => negb (k =? ref_id mi))).
    destruct (String.eqb_spec own (ref_id mi)) as [E|Hne]; simpl; auto.
    unfold deleted_referrals, children in *.
    destruct (Dict.get own (referrals d)) as [kids|]; [|discriminate].
    assert (Hex : existsb (String.eqb (ref_id mi)) kids = true).
    { apply existsb_exists. exists (ref_id mi). split.
      - apply (count_occ_In string_dec). lia.
      - apply String.eqb_refl. }
    now rewrite Hex.
Qed.

Lemma delete_member_preserves_inv own mu mi d :
  directory_inv d ->
  In (mu, mi) (my_direct_members own d) ->
  ~ has_downline mi d ->
  directory_inv (delete_member own mu mi d).
Proof.
  intros Hinv Hin Hleaf.
  destruct (delete_member_shape own mu mi d Hinv Hin) as [Hl Hr].
  apply my_direct_members_In in Hin. destruct Hin as (Hin & Hby & Hrole).
  assert (Hleaf' : forall e, In e (links (users d)) ->
                             l_ref_by e <> l_ref_id (link (mu, mi))).
  { intros e He E. apply in_map_iff in He. destruct He as ([k u] & <- & He).
    apply Hleaf. exists k, u. split; auto. }
  assert (Hne : own <> ref_id mi).
  { intros E. apply (Hleaf' _ (In_links _ _ _ Hin)).
    unfold l_ref_by, l_ref_id; simpl. congruence. }
  apply String.eqb_neq in Hne. rewrite Hne in Hr.
  unfold directory_inv. rewrite Hl, Hr. simpl.
  pose proof (forest_inv_deleted _ _ _ (link (mu, mi)) Hinv
                (In_links _ _ _ Hin) Hrole Hleaf') as H.
  unfold l_ref_by, l_ref_id in H; simpl in H. now rewrite Hby in H.
Qed.

(** ** The handlers that only move income *)

Lemma links_set_same k u u' (us : Users) :
  Dict.get k us = Some u -> link (k, u') = link (k, u) ->
  links (Dict.set k u' us) = links us.
Proof.
  intros Hget Hlink. induction us as [|[k0 u0] us IH]; simpl in *;
    [discriminate|].
  destruct (String.eqb_spec k0 k) as [->|Hk]; simpl.
  - inversion Hget; subst u0. now rewrite Hlink.
  - now rewrite IH.
Qed.

Lemma approve_task_keeps_links coadmin key s s' :
  approve_task coadmin key s = Pressing (Done s') ->
  links (users (data s')) = links (users (data s))
  /\ referrals (data s') = referrals (data s)
  /\ count (data s') = count (data s).
Proof.
  unfold approve_task.
  destruct (Dict.get key _) as [pv|]; [|discriminate].
  destruct (Dict.get (Submission.member_username pv) (users (data s)))
    as [u|] eqn:Hu; [|discriminate].
  intros H; inversion H; subst; clear H; simpl.
  repeat split. now apply (links_set_same _ u).
Qed.

Lemma request_withdrawal_keeps_links username user upi now today s s' :
  request_withdrawal username user upi now today s = Done s' ->
  links (users (data s')) = links (users (data s))
  /\ referrals (data s') = referrals (data s)
  /\ count (data s') = count (data s).
Proof.
  unfold request_withdrawal.
  destruct (_ <=? _)%Z; [discriminate|].
  destruct (negb (truthy upi)); [discriminate|].
  destruct (Dict.get username (users (data s))) as [u|] eqn:Hu; [|discriminate].
  intros H; inversion H; subst; clear H; simpl.
  repeat split. now apply (links_set_same _ u).
Qed.

Lemma run_keeps_data_or_links a s s' :
  run a s = Some s' ->
  match a with
  | Register _ _ _ _ _ _ _ | AddMember _ _ _ _ _ | DeleteMember _ _ => True
  | _ =>
      links (users (data s')) = links (users (data s))
      /\ referrals (data s') = referrals (data s)
      /\ count (data s') = count (data s)
  end.
Proof.
  destruct a; simpl; auto.
  - destruct (approve_task coadmin key s) as [|[x| |]] eqn:E; simpl;
      try discriminate.
    intros H; inversion H; subst. eapply approve_task_keeps_links; eauto.
  - unfold deny_task. destruct (Dict.get key _); simpl; [|discriminate].
    intros H; inversion H; subst; simpl. auto.
  - unfold admin_confirm. destruct (Dict.get key _) as [pv|]; simpl;
      [|discriminate].
    destruct (negb (Submission.approved_by_admin pv)); simpl; [|discriminate].
    intros H; inversion H; subst; simpl. auto.
  - destruct (request_withdrawal username user upi now today s) as [x| |] eqn:E;
      simpl; try discriminate.
    intros H; inversion H; subst. eapply request_withdrawal_keeps_links; eauto.
  - unfold settle. destruct (nth_error _ i); simpl; [|discriminate].
    intros H; inversion H; subst; simpl. auto.
Qed.

Lemma register_form_preserves_inv ses n u p r sel today d reg :
  directory_inv d ->
  register_form ses n u p r sel today d = Pressing (Done reg) ->
  directory_inv (reg_data reg).
Proof.
  intros Hinv. unfold register_form.
  destruct (negb (logged_in ses)); [|discriminate].
  destruct (truthy n); simpl; [|discriminate].
  destruct (truthy u) eqn:Hu; simpl; [|discriminate].
  destruct (negb (truthy p) || negb (truthy r)); [discriminate|].
  intros H. inversion H as [Hreg]. clear H.
  eapply register_user_preserves_inv; eauto.
Qed.

Lemma add_member_form_preserves_inv own n u p today d reg :
  directory_inv d ->
  add_member_form own n u p today d = Done reg ->
  directory_inv (reg_data reg).
Proof.
  intros Hinv. unfold add_member_form.
  destruct (truthy n); simpl; [|discriminate].
  destruct (truthy u) eqn:Hu; simpl; [|discriminate].
  now apply register_user_preserves_inv.
Qed.

Lemma run_preserves_inv a s s' :
  directory_inv (data s) ->
  run a s = Some s' ->
  (forall own i e,
      a = DeleteMember own i ->
      nth_error (my_direct_members own (data s)) i = Some e ->
      ~ has_downline (snd e) (data s)) ->
  directory_inv (data s').
Proof.
  intros Hinv Hrun Hleaf.
  pose proof (run_keeps_data_or_links a s s' Hrun) as Hk.
  destruct a; simpl in Hrun;
    try (destruct Hk as (Hl & Hr & Hc); unfold directory_inv;
         now rewrite Hl, Hr, Hc).
  - destruct (register_form s0 name_ new_user new_pass ref selected today (data s))
      as [|[reg| |]] eqn:E; simpl in Hrun; try discriminate.
    inversion Hrun; subst; simpl. eapply register_form_preserves_inv; eauto.
  - destruct (add_member_form own_ref_id mem_name mem_username mem_password
                today (data s)) as [reg| |] eqn:E; simpl in Hrun;
      try discriminate.
    inversion Hrun; subst; simpl. eapply add_member_form_preserves_inv; eauto.
  - destruct (nth_error (my_direct_members own_ref_id (data s)) i)
      as [[mu mi]|] eqn:E; simpl in Hrun; [|discriminate].
    inversion Hrun; subst; simpl.
    apply delete_member_preserves_inv; auto.
    + eapply nth_error_In; eauto.
    + exact (Hleaf own_ref_id i (mu, mi) eq_refl E).
Qed.

(** ** The invariants in the words of the data model *)

Section Rooted.
Variables (ls : list Link) (rs : Referrals) (c : Z) (n : nat).
Hypothesis Hinv : forest_inv ls rs c.
Hypothesis shallow : forall r, depth_below rs n r = true.

Lemma link_listed e :
  In e ls -> l_ref_by e <> ROOT -> In (l_ref_id e) (children rs (l_ref_by e)).
Proof.
  intros He Hroot. apply (count_occ_In string_dec).
  rewrite (inv_child_once _ _ _ Hinv e He Hroot). lia.
Qed.

Lemma rooted_up :
  forall j m e,
    In e ls -> depth_below rs m (l_ref_id e) = false -> n <= m + j ->
    l_ref_id e = "PRG1001" \/ descendant rs "PRG1001" (l_ref_id e).
Proof.
  induction j as [|j IH]; intros m e He Hd Hle.
  - rewrite (depth_below_le rs n m) in Hd; [discriminate|lia|apply shallow].
  - destruct (string_dec (l_ref_by e) ROOT) as [Hroot|Hroot].
    + left. pose proof (inv_root_is_admin _ _ _ Hinv e He Hroot) as Hk.
      pose proof (NoDup_map_In_inj fst ls e _ (inv_user_keys _ _ _ Hinv) He
                    (inv_admin _ _ _ Hinv) Hk) as Heq.
      now rewrite Heq.
    + right. pose proof (link_listed e He Hroot) as Hl.
      destruct (inv_key_is_owned _ _ _ Hinv _ (children_key _ _ _ Hl))
        as (e' & He' & Hid').
      assert (Hd' : depth_below rs (S m) (l_ref_id e') = false).
      { rewrite Hid'. eapply depth_below_child; eauto. }
      destruct (IH (S m) e' He' Hd' ltac:(lia)) as [Hadm|Hdesc].
      * apply desc_child. now rewrite <- Hadm, Hid'.
      * eapply descendant_snoc; eauto. now rewrite Hid'.
Qed.
End Rooted.

Lemma directory_inv_in_words d :
  directory_inv d -> ref_by_resolves d /\ referral_forest d.
Proof.
  intros Hinv.
  assert (Hnonroot : forall k u, In (k, u) (users d) -> role u <> "admin" ->
                                 ref_by u <> ROOT).
  { intros k u Hin Hrole Hroot.
    pose proof (inv_root_is_admin _ _ _ Hinv _ (In_links _ _ _ Hin) Hroot) as Hk.
    pose proof (NoDup_map_In_inj fst _ _ _ (inv_user_keys _ _ _ Hinv)
                  (In_links _ _ _ Hin) (inv_admin _ _ _ Hinv) Hk) as Heq.
    inversion Heq. congruence. }
  split; [|split; [|split; [|split]]].
  - intros k u Hin Hrole.
    pose proof (inv_listed d Hinv k u Hin (Hnonroot k u Hin Hrole)) as Hl.
    destruct (inv_key_is_owned _ _ _ Hinv _ (children_key _ _ _ Hl))
      as (e' & He' & Hid').
    apply in_map_iff in He'. destruct He' as ([k' u'] & <- & He').
    exists k', u'. auto.
  - destruct (inv_acyclic _ _ _ Hinv) as [n Hn]. intros r.
    apply (depth_below_no_cycle _ n), Hn.
  - destruct (inv_acyclic _ _ _ Hinv) as [n Hn]. intros k u Hin.
    apply (rooted_up _ _ _ n Hinv Hn n 0 (link (k, u)));
      [now apply In_links | reflexivity | lia].
  - intros k u Hin.
    apply (inv_ref_id_is_key _ _ _ Hinv _ (In_links _ _ _ Hin)).
  - intros k u Hin Hrole.
    apply (inv_child_once _ _ _ Hinv _ (In_links _ _ _ Hin)).
    exact (Hnonroot k u Hin Hrole).
Qed.

(** ** The upline of a forest has no repetition *)

Section UplineDistinct.
Variables (us : Users) (rs : Referrals) (c : Z).
Hypothesis Hinv : forest_inv (links us) rs c.

Lemma owner_listed k u :
  In (k, u) us -> ref_by u <> ROOT -> In (ref_id u) (children rs (ref_by u)).
Proof.
  intros Hin Hroot.
  exact (link_listed _ _ _ Hinv (link (k, u)) (In_links _ _ _ Hin) Hroot).
Qed.

Lemma upline_above :
  forall n r k,
    In k (upline n us r) ->
    exists u, In (k, u) us /\ (ref_id u = r \/ descendant rs (ref_id u) r).
Proof.
  induction n as [|n IH]; intros r k Hin; simpl in Hin; [contradiction|].
  destruct (r =? ROOT); [contradiction|].
  destruct (find_by_ref_id r us) as [[k0 u0]|] eqn:Hf; [|contradiction].
  apply find_by_ref_id_Some in Hf. destruct Hf as [Hin0 Hid0].
  destruct Hin as [<-|Hin]; [exists u0; auto|].
  destruct (string_dec (ref_by u0) ROOT) as [E|E].
  - rewrite E, upline_ROOT in Hin. contradiction.
  - destruct (IH _ _ Hin) as (u & Hu & Habove). exists u. split; auto.
    right. pose proof (owner_listed k0 u0 Hin0 E) as Hl. rewrite Hid0 in Hl.
    destruct Habove as [E'|D].
    + rewrite E'. now apply desc_child.
    + eapply descendant_snoc; eauto.
Qed.

Lemma upline_NoDup : forall n r, NoDup (upline n us r).
Proof.
  induction n as [|n IH]; intros r; simpl; [constructor|].
  destruct (r =? ROOT); [constructor|].
  destruct (find_by_ref_id r us) as [[k0 u0]|] eqn:Hf; [|constructor].
  constructor; [|apply IH]. intros Hin.
  apply find_by_ref_id_Some in Hf. destruct Hf as [Hin0 Hid0].
  destruct (string_dec (ref_by u0) ROOT) as [E|E].
  { rewrite E, upline_ROOT in Hin. contradiction. }
  destruct (upline_above _ _ _ Hin) as (u & Hu & Habove).
  assert (Hkeys : NoDup (Dict.keys us)).
  { rewrite keys_links. apply (inv_user_keys _ _ _ Hinv). }
  assert (u = u0).
  { pose proof (DictFacts.In_get _ _ _ Hkeys Hu).
    pose proof (DictFacts.In_get _ _ _ Hkeys Hin0). congruence. }
  subst u. pose proof (owner_listed k0 u0 Hin0 E) as Hl.
  destruct (inv_acyclic _ _ _ Hinv) as [n0 Hn0].
  apply (depth_below_no_cycle rs n0 (ref_id u0) (Hn0 _)).
  destruct Habove as [E'|D].
  - apply desc_child. rewrite <- E' in Hl. exact Hl.
  - eapply descendant_snoc; eauto.
Qed.
End UplineDistinct.

(** ** Affiliate income on a registration *)

(** C3: what a registration pays to the upline.  [chain] is the upline of
    [referral_id] in the directory that already holds the new user: the
    owners met by walking [ref_by] upward, at most 8 of them, ending at
    [ROOT] or at a ref_id that does not resolve.  When the role of the new
    user is not member nobody's record changes.  When it is member, every
    user's [affiliate_income] grows by the amount the schedule
    20, 20, 20, 25, 30, 35, 40, 60 gives to each level at which the user
    stands in [chain], and nothing else in any record changes: an ancestor
    that stands at one level [i] receives exactly the [i]-th amount of the
    schedule, once, and whoever is not among the first 8 ancestors receives
    nothing.  On a directory that satisfies the invariants the chain has no
    repetition, so every ancestor stands at one level only. *)
Theorem registration_pays_upline :
  forall name_ username password_ referral_id explicit_role today d reg,
    NoDup (Dict.keys (users d)) ->
    forallb truthy (username :: Dict.keys (users d)) = true ->
    referral_id <> ROOT ->
    register_user name_ username password_ referral_id explicit_role today d
      = Done reg ->
    let us1 :=
      Dict.set username
        (newcomer name_ password_ (reg_ref_id reg) referral_id today
           (reg_role reg)) (users d) in
    let chain := upline 8 us1 referral_id in
    let schedule := [20; 20; 20; 25; 30; 35; 40; 60]%Z in
    (reg_role reg <> "member" -> users (reg_data reg) = us1)
    /\ (reg_role reg = "member" ->
        forall k,
          Dict.get k (users (reg_data reg))
          = option_map
              (fun u =>
                 {| name := name u; password := password u;
                    ref_id := ref_id u; ref_by := ref_by u;
                    task_income := task_income u;
                    affiliate_income :=
                      (affiliate_income u + credits chain schedule k)%Z;
                    joined := joined u; role := role u |})
              (Dict.get k us1))
    /\ List.length chain <= 8
    /\ (forall i k, NoDup chain -> nth_error chain i = Some k ->
          credits chain schedule k = nth i schedule 0%Z)
    /\ (forall k, ~ In k chain -> credits chain schedule k = 0%Z)
    /\ (directory_inv d -> NoDup chain).
Proof.
  intros name_ username password_ referral_id explicit_role today d reg
         Hnd Htr Hroot Hreg us1 chain schedule.
  change schedule with level_payouts. clear schedule.
  pose proof (register_user_done _ _ _ _ _ _ _ _ Hreg)
    as (Hmem & Hid & Hrole & _).
  apply mem_false_not_key in Hmem.
  pose proof (register_user_users _ _ _ _ _ _ _ _ Hreg) as Hus.
  fold us1 in Hus.
  assert (Hnd1 : NoDup (Dict.keys us1)).
  { subst us1. rewrite keys_set_absent by assumption.
    now apply NoDup_snoc. }
  assert (Htr1 : forallb truthy (Dict.keys us1) = true).
  { subst us1. rewrite keys_set_absent by assumption.
    simpl in Htr. apply andb_true_iff in Htr. destruct Htr as [Hu Hk].
    rewrite forallb_app, Hk. simpl. now rewrite Hu. }
  split; [|split; [|split; [|split; [|split]]]].
  - intros Hr. rewrite Hus. apply String.eqb_neq in Hr. now rewrite Hr.
  - intros Hr k. rewrite Hus, Hr. cbv iota beta delta [String.eqb Ascii.eqb Bool.eqb].
    rewrite (affiliate_loop_get (seq 0 8) referral_id us1 Hnd1 Htr1 Hroot k).
    reflexivity.
  - apply upline_length.
  - intros i k. apply credits_at_level.
  - intros k. apply credits_not_in.
  - intros Hinv.
    assert (Hu : truthy username = true).
    { simpl in Htr. now apply andb_true_iff in Htr. }
    pose proof (register_user_preserves_inv _ _ _ _ _ _ _ _ Hinv Hu Hreg) as H.
    unfold directory_inv in H.
    rewrite (register_user_links _ _ _ _ _ _ _ _ Hnd Hreg) in H.
    apply (upline_NoDup us1 (referrals (reg_data reg)) (count (reg_data reg))).
    subst us1. rewrite DictFacts.set_absent by assumption.
    unfold links in *. rewrite map_app. rewrite Hid. exact H.
Qed.

Lemma registration_pays_upline_witness :
  exists reg,
    register_user "New" "new" "pw" "PRG1010" None "2025-01-04" deep_data
      = Done reg
    /\ reg_role reg = "member"
    /\ upline 8 (users (reg_data reg)) "PRG1010"
       = ["m9"; "m8"; "m7"; "m6"; "m5"; "m4"; "m3"; "m2"]
    /\ map (fun k => option_map affiliate_income
                       (Dict.get k (users (reg_data reg))))
         ["m9"; "m8"; "m7"; "m6"; "m5"; "m4"; "m3"; "m2"; "chitra"; "admin";
          "new"]
       = map Some [20; 20; 20; 25; 30; 35; 40; 60; 0; 0; 0]%Z.
Proof.
  eexists. split; [vm_compute; reflexivity|].
  pose proof (registration_pays_upline "New" "new" "pw" "PRG1010" None
                "2025-01-04" deep_data _
                ltac:(repeat constructor; simpl; intuition discriminate)
                eq_refl ltac:(discriminate) eq_refl) as (_ & H & _).
  specialize (H eq_refl).
  split; [reflexivity|]. split; [vm_compute; reflexivity|].
  cbn [map]. rewrite !H. vm_compute. reflexivity.
Defined.

(** ** Directories that satisfy the invariants *)

Lemma children_bootstrap p : children [("PRG1001", [])] p = [].
Proof.
  unfold children. cbn [Dict.get]. now destruct ("PRG1001" =? p).
Qed.

Lemma bootstrap_inv today : directory_inv (bootstrap_data today).
Proof.
  constructor; simpl.
  - repeat constructor; simpl; tauto.
  - repeat constructor; simpl; tauto.
  - intros e [<-|[]]. reflexivity.
  - now left.
  - intros e [<-|[]] _. reflexivity.
  - repeat constructor; simpl; tauto.
  - intros e [<-|[]]. exists 1%Z. split; [lia|reflexivity].
  - intros e [<-|[]]. now left.
  - intros r [<-|[]]. eexists. split; [now left|reflexivity].
  - intros e [<-|[]] H. now elim H.
  - intros p c0. rewrite children_bootstrap. intros [].
  - exists 1. intros r. cbn [depth_below]. now rewrite children_bootstrap.
Qed.

Lemma initial_data_counter_behind today : ~ directory_inv (initial_data today).
Proof.
  intros H. destruct (inv_counter _ _ _ H _ (inv_admin _ _ _ H)) as (j & Hj & Hid).
  change (generate_ref_id 1 = generate_ref_id j) in Hid.
  apply generate_ref_id_inj in Hid. simpl in Hj. lia.
Qed.

Lemma registered_data_inv name_ username password_ referral_id explicit_role
    today d :
  directory_inv d -> truthy username = true ->
  directory_inv
    (registered_data name_ username password_ referral_id explicit_role today d).
Proof.
  intros Hinv Hu. unfold registered_data.
  destruct (register_user _ _ _ _ _ _ _) eqn:E; auto.
  eapply register_user_preserves_inv; eauto.
Qed.

Lemma directory_inv_ext d d' :
  links (users d) = links (users d') ->
  referrals d = referrals d' ->
  count d = count d' ->
  directory_inv d -> directory_inv d'.
Proof. unfold directory_inv. now intros -> -> ->. Qed.

Lemma chain_data_inv : directory_inv chain_data.
Proof.
  unfold chain_data.
  repeat (apply registered_data_inv; [|reflexivity]).
  apply bootstrap_inv.
Qed.

Lemma sample_data_inv : directory_inv sample_data.
Proof.
  apply (directory_inv_ext
           (registered_data "Asha" "asha" "pw" "PRG1002" None "2025-01-02"
              (registered_data "Chitra" "chitra" "pw" "PRG1001" None
                 "2025-01-01" (bootstrap_data "2025-01-01"))));
    try reflexivity.
  repeat (apply registered_data_inv; [|reflexivity]).
  apply bootstrap_inv.
Qed.

(** C2, as stated, fails: deleting a member who has referred somebody
    leaves that somebody with a [ref_by] that no user owns. *)
Lemma deletion_orphans_downline :
  exists s',
    directory_inv (data (state_of chain_data))
    /\ run (DeleteMember "PRG1002" 0) (state_of chain_data) = Some s'
    /\ ~ ref_by_resolves (data s').
Proof.
  eexists. split; [exact chain_data_inv|]. split; [reflexivity|].
  intros H.
  destruct (H "binod"
              (mkUser "Binod" "pw" "PRG1004" "PRG1003" 0 0 "2025-01-04" "member"))
    as (k' & u' & Hin & Hid).
  - vm_compute. tauto.
  - discriminate.
  - vm_compute in Hin.
    destruct Hin as [E|[E|[E|[]]]]; inversion E; subst; discriminate.
Qed.

(** C2, amended: the handlers that decide on proofs and that request or
    settle withdrawals never touch a username, a [ref_id], a [ref_by], a
    role, the referral mapping or the counter; a registration through either
    form and the deletion of a member that has referred nobody keep the
    invariants.  So on a directory that satisfies the data-model invariants
    (the counter being past every issued ref_id) each of these operations
    saves a directory that satisfies them again: every non-admin [ref_by]
    resolves to an owned ref_id, and the referral mapping is a forest without
    cycles rooted at the admin's ref_id in which every user's ref_id is a key
    and stands exactly once among the children of its referrer. *)
Theorem mutations_preserve_directory_invariants :
  forall a s s',
    directory_inv (data s) ->
    run a s = Some s' ->
    (forall own i e,
        a = DeleteMember own i ->
        nth_error (my_direct_members own (data s)) i = Some e ->
        ~ has_downline (snd e) (data s)) ->
    directory_inv (data s')
    /\ ref_by_resolves (data s')
    /\ referral_forest (data s').
Proof.
  intros a s s' Hinv Hrun Hleaf.
  pose proof (run_preserves_inv a s s' Hinv Hrun Hleaf) as H.
  split; [exact H|]. now apply directory_inv_in_words.
Qed.

Lemma mutations_preserve_directory_invariants_witness :
  exists s',
    run (DeleteMember "PRG1002" 0) (state_of sample_data) = Some s'
    /\ Dict.keys (users (data s')) = ["admin"; "chitra"]
    /\ directory_inv (data s')
    /\ ref_by_resolves (data s')
    /\ referral_forest (data s').
Proof.
  eexists. split; [reflexivity|]. split; [reflexivity|].
  apply (mutations_preserve_directory_invariants
           (DeleteMember "PRG1002" 0) (state_of sample_data)).
  - exact sample_data_inv.
  - reflexivity.
  - intros own i e Ha Hn. inversion Ha; subst own i.
    vm_compute in Hn. inversion Hn; subst e.
    intros (k & u & Hin & Hby). vm_compute in Hin.
    destruct Hin as [E|[E|[E|[]]]]; inversion E; subst; discriminate.
Defined.

Lemma find_coadmin_for_member_nearest_witness :
  exists answer,
    nearestCoadmin chain_data "binod" answer
    /\ (forall a', nearestCoadmin chain_data "binod" a' -> a' = answer)
    /\ exists n, forall fuel, n < fuel ->
         find_coadmin_for_member fuel "binod" chain_data = Some answer.
Proof.
  apply (find_coadmin_for_member_nearest chain_data "binod"
           (mkUser "Binod" "pw" "PRG1004" "PRG1003" 0 0 "2025-01-04" "member")).
  - exact chain_data_inv.
  - vm_compute. tauto.
Defined.

Example binod_answers_to_chitra :
  find_coadmin_for_member 3 "binod" chain_data = Some "chitra".
Proof. reflexivity. Qed.

(** * Logging in, registering again *)

Lemma affiliate_loop_credits_only levels :
  forall r (us : Users),
    NoDup (Dict.keys us) ->
    forall k, exists a,
      Dict.get k (affiliate_loop levels r us)
      = option_map (credit_affiliate a) (Dict.get k us).
Proof.
  induction levels as [|level rest IH]; intros r us Hnd k;
    cbn [affiliate_loop].
  - exists 0%Z. destruct (Dict.get k us); simpl; auto.
    now rewrite credit_affiliate_0.
  - assert (Hsame : exists a, Dict.get k us
                               = option_map (credit_affiliate a) (Dict.get k us)).
    { exists 0%Z. destruct (Dict.get k us); simpl; auto.
      now rewrite credit_affiliate_0. }
    destruct (find_by_ref_id r us) as [[k0 u0]|] eqn:Hf; auto.
    apply find_by_ref_id_Some in Hf. destruct Hf as [Hin _].
    destruct (truthy k0); auto.
    rewrite (set_bump k0 u0) by assumption.
    assert (Hb : exists a, Dict.get k (bump k0 (nth level level_payouts 0%Z) us)
                           = option_map (credit_affiliate a) (Dict.get k us)).
    { rewrite get_bump. destruct (k =? k0).
      - eexists. reflexivity.
      - exists 0%Z. destruct (Dict.get k us); simpl; auto.
        now rewrite credit_affiliate_0. }
    destruct (find_referrer_ref_id r _) as [next|]; auto.
    destruct (next =? ROOT); auto.
    destruct (IH next (bump k0 (nth level level_payouts 0%Z) us)
                ltac:(now rewrite keys_bump) k) as [a Ha].
    destruct Hb as [b Hb]. rewrite Ha, Hb.
    exists (b + a)%Z. destruct (Dict.get k us); simpl; auto.
    now rewrite credit_affiliate_twice.
Qed.

Lemma register_user_record name_ username password_ referral_id explicit_role
    today d reg :
  NoDup (Dict.keys (users d)) ->
  register_user name_ username password_ referral_id explicit_role today d
    = Done reg ->
  exists a,
    Dict.get username (users (reg_data reg))
    = Some (credit_affiliate a
              (newcomer name_ password_ (reg_ref_id reg) referral_id today
                 (reg_role reg))).
Proof.
  intros Hnd Hreg.
  pose proof (register_user_done _ _ _ _ _ _ _ _ Hreg) as (Hmem & _).
  apply mem_false_not_key in Hmem.
  rewrite (register_user_users _ _ _ _ _ _ _ _ Hreg).
  destruct (reg_role reg =? "member").
  - destruct (affiliate_loop_credits_only (seq 0 8) referral_id
                (Dict.set username
                   (newcomer name_ password_ (reg_ref_id reg) referral_id today
                      (reg_role reg)) (users d))
                ltac:(rewrite keys_set_absent by assumption;
                      now apply NoDup_snoc) username) as [a Ha].
    exists a. rewrite Ha, DictFacts.get_set_same. reflexivity.
  - exists 0%Z. rewrite DictFacts.get_set_same. now rewrite credit_affiliate_0.
Qed.

(** X1: a user who has just registered can log in with the username and the
    password of the registration; the session record carries the ref_id and
    the role the registration reported, the referrer given, and no task
    income. *)
Theorem login_after_registration :
  forall name_ username password_ referral_id explicit_role today d reg,
    NoDup (Dict.keys (users d)) ->
    register_user name_ username password_ referral_id explicit_role today d
      = Done reg ->
    exists u,
      login_user username password_ (reg_data reg) = Some u
      /\ name u = name_ /\ ref_id u = reg_ref_id reg
      /\ ref_by u = referral_id /\ role u = reg_role reg
      /\ task_income u = 0%Z.
Proof.
  intros * Hnd Hreg.
  destruct (register_user_record _ _ _ _ _ _ _ _ Hnd Hreg) as [a Ha].
  eexists. unfold login_user. rewrite Ha. simpl.
  rewrite String.eqb_refl. repeat split.
Qed.

Lemma login_after_registration_witness :
  exists u,
    login_user "binod" "pw"
      (registered_data "Binod" "binod" "pw" "PRG1003" None "2025-01-04"
         sample_data) = Some u
    /\ ref_id u = "PRG1004" /\ role u = "member".
Proof.
  destruct (login_after_registration "Binod" "binod" "pw" "PRG1003" None
              "2025-01-04" sample_data _
              ltac:(repeat constructor; simpl; intuition discriminate) eq_refl)
    as (u & Hl & _ & Hid & _ & Hrole & _).
  exists u. repeat split; assumption.
Defined.

(** X2: once a registration has succeeded the username is taken: every
    later registration under that username, whatever its other fields, is
    refused as an existing username. *)
Theorem username_taken_after_registration :
  forall name_ username password_ referral_id explicit_role today d reg
         name' password' referral' explicit' today',
    NoDup (Dict.keys (users d)) ->
    register_user name_ username password_ referral_id explicit_role today d
      = Done reg ->
    register_user name' username password' referral' explicit' today'
      (reg_data reg) = Rejected "Username already exists.".
Proof.
  intros * Hnd Hreg.
  destruct (register_user_record _ _ _ _ _ _ _ _ Hnd Hreg) as [a Ha].
  unfold register_user, Dict.mem. now rewrite Ha.
Qed.

Lemma username_taken_after_registration_witness :
  register_user "Other" "binod" "x" "PRG1001" (Some "coadmin") "2025-02-01"
    (registered_data "Binod" "binod" "pw" "PRG1003" None "2025-01-04"
       sample_data) = Rejected "Username already exists.".
Proof.
  apply (username_taken_after_registration "Binod" "binod" "pw" "PRG1003" None
           "2025-01-04" sample_data _ "Other" "x" "PRG1001" (Some "coadmin")
           "2025-02-01");
    [repeat constructor; simpl; intuition discriminate | reflexivity].
Defined.

Lemma get_del {V : Type} k x (d : Dict.t V) :
  NoDup (Dict.keys d) ->
  Dict.get x (Dict.del k d) = if x =? k then None else Dict.get x d.
Proof.
  intros Hnd. rewrite del_filter by assumption.
  rewrite (get_filter_key (fun key => negb (key =? k))).
  now destruct (x =? k).
Qed.

Lemma delete_member_users own mu mi d :
  In (mu, mi) (my_direct_members own d) ->
  users (delete_member own mu mi d) = Dict.del mu (users d).
Proof.
  intros Hin. apply my_direct_members_In in Hin. destruct Hin as (Hin & _).
  unfold delete_member; simpl.
  assert (Hmem : Dict.mem mu (users d) = true).
  { apply DictFacts.mem_keys. apply (in_map fst) in Hin. exact Hin. }
  now rewrite Hmem.
Qed.

(** X3: a deleted member can no longer log in, with any password, and the
    deletion changes nothing to the login of anybody else. *)
Theorem login_after_deletion :
  forall own mu mi d password_,
    NoDup (Dict.keys (users d)) ->
    In (mu, mi) (my_direct_members own d) ->
    login_user mu password_ (delete_member own mu mi d) = None
    /\ forall k, k <> mu ->
         login_user k password_ (delete_member own mu mi d)
         = login_user k password_ d.
Proof.
  intros * Hnd Hin. unfold login_user.
  rewrite (delete_member_users _ _ _ _ Hin). split.
  - rewrite get_del by assumption. now rewrite String.eqb_refl.
  - intros k Hk. rewrite get_del by assumption.
    apply String.eqb_neq in Hk. now rewrite Hk.
Qed.

Lemma login_after_deletion_witness :
  login_user "asha" "pw"
    (delete_member "PRG1002" "asha"
       (mkUser "Asha" "pw" "PRG1003" "PRG1002" 0 0 "2025-01-02" "member")
       sample_data) = None
  /\ login_user "asha" "pw" sample_data
     = Some (mkUser "Asha" "pw" "PRG1003" "PRG1002" 0 0 "2025-01-02" "member").
Proof.
  split; [|reflexivity].
  apply (login_after_deletion "PRG1002" "asha"
           (mkUser "Asha" "pw" "PRG1003" "PRG1002" 0 0 "2025-01-02" "member")
           sample_data "pw").
  - repeat constructor; simpl; intuition discriminate.
  - vm_compute. tauto.
Defined.

(** * When [register_user] raises *)

Lemma generate_ref_id_PRG1001 c : generate_ref_id c = "PRG1001" <-> c = 1%Z.
Proof.
  split; [|now intros ->].
  intros H. change "PRG1001" with (generate_ref_id 1) in H.
  now apply generate_ref_id_inj in H.
Qed.

(** X4: [register_user] raises (a [KeyError], at the append to the
    referrer's children) exactly when the username is free, the referral id
    is [PRG1001], the referral mapping has no entry [PRG1001], and the
    counter is not 1: the validity check lets [PRG1001] through without
    looking it up.  In every other case it returns. *)
Theorem register_user_raises_iff :
  forall name_ username password_ referral_id explicit_role today d,
    (exists exn,
        register_user name_ username password_ referral_id explicit_role
          today d = Raised exn)
    <-> (Dict.mem username (users d) = false
         /\ referral_id = "PRG1001"
         /\ Dict.mem "PRG1001" (referrals d) = false
         /\ count d <> 1%Z).
Proof.
  intros. unfold register_user.
  destruct (Dict.mem username (users d)).
  { split; [intros [x H]; discriminate | intros (H & _); discriminate]. }
  destruct (Dict.mem referral_id (referrals d)) eqn:Hm; simpl.
  - assert (Hget : exists kids,
               Dict.get referral_id
                 (Dict.setdefault (generate_ref_id (count d)) [] (referrals d))
               = Some kids).
    { unfold Dict.setdefault.
      destruct (Dict.mem (generate_ref_id (count d)) (referrals d)).
      - unfold Dict.mem in Hm.
        destruct (Dict.get referral_id (referrals d)); [eauto|discriminate].
      - destruct (String.eqb_spec (generate_ref_id (count d)) referral_id)
          as [->|Hne].
        + rewrite DictFacts.get_set_same. eauto.
        + rewrite DictFacts.get_set_other by assumption.
          unfold Dict.mem in Hm.
          destruct (Dict.get referral_id (referrals d)); [eauto|discriminate]. }
    destruct Hget as [kids Hget]. rewrite Hget.
    split.
    + intros [x H].
      destruct ((referral_id =? ROOT) && negb (username =? "admin"));
        discriminate.
    + intros (_ & -> & H & _). congruence.
  - destruct (String.eqb_spec referral_id "PRG1001") as [->|Hne]; simpl.
    + assert (Hg : Dict.get "PRG1001" (referrals d) = None).
      { unfold Dict.mem in Hm.
        destruct (Dict.get "PRG1001" (referrals d)); [discriminate|reflexivity]. }
      unfold Dict.setdefault.
      destruct (Dict.mem (generate_ref_id (count d)) (referrals d)) eqn:Hn.
      * assert (Hc : count d <> 1%Z).
        { intros E. rewrite E in Hn.
          change (generate_ref_id 1) with "PRG1001" in Hn. congruence. }
        rewrite Hg. split; [auto | intros _; eauto].
      * destruct (String.eqb_spec (generate_ref_id (count d)) "PRG1001")
          as [E|Hne].
        -- rewrite E, DictFacts.get_set_same.
           apply generate_ref_id_PRG1001 in E.
           split; [intros [x H]; discriminate | intros (_ & _ & _ & H); tauto].
        -- rewrite DictFacts.get_set_other by assumption. rewrite Hg.
           split; [|intros _; eauto].
           intros _. repeat split; auto.
           intros E. apply Hne. now apply generate_ref_id_PRG1001.
    + split; [intros [x H]; discriminate | intros (_ & H & _); contradiction].
Qed.

Example register_user_raises_without_root_entry :
  register_user "Asha" "asha" "pw" "PRG1001" None "2025-01-01"
    {| users := []; referrals := []; count := 5 |} = Raised "KeyError".
Proof. reflexivity. Qed.

(** * The counter and the ref_ids it has issued *)

Lemma run_count a s s' :
  run a s = Some s' -> (count (data s) <= count (data s'))%Z.
Proof.
  intros Hrun. pose proof (run_keeps_data_or_links a s s' Hrun) as Hk.
  destruct a; simpl in Hrun;
    try (destruct Hk as (_ & _ & Hc); rewrite Hc; lia).
  - unfold register_form in Hrun.
    destruct (negb (logged_in s0)); [|discriminate]. simpl in Hrun.
    destruct (_ || _); [discriminate|].
    destruct (register_user _ _ _ _ _ _ _) as [reg| |] eqn:E; try discriminate.
    inversion Hrun; subst; simpl.
    apply register_user_done in E. destruct E as (_ & _ & _ & Hc & _). lia.
  - unfold add_member_form in Hrun.
    destruct (_ || _); [discriminate|].
    destruct (register_user _ _ _ _ _ _ _) as [reg| |] eqn:E; try discriminate.
    inversion Hrun; subst; simpl.
    apply register_user_done in E. destruct E as (_ & _ & _ & Hc & _). lia.
  - destruct (nth_error _ i); [|discriminate].
    inversion Hrun; subst; simpl. lia.
Qed.

Lemma runs_count acts :
  forall s s', runs acts s = Some s' -> (count (data s) <= count (data s'))%Z.
Proof.
  induction acts as [|a acts IH]; intros s s' H; simpl in H.
  - inversion H; subst. lia.
  - destruct (run a s) as [s1|] eqn:E; [|discriminate].
    apply run_count in E. apply IH in H. lia.
Qed.

(** X5: no handler lowers the registration counter, so a ref_id issued
    below the present counter value is never issued again: after any run
    of registrations, deletions, proof decisions and withdrawals, whatever a
    registration issues differs from every [PRG<1000+j>] with [j] below the
    counter the run started from (the ref_ids of deleted members included). *)
Theorem ref_id_never_reissued :
  forall acts s s' j name_ username password_ referral_id explicit_role
         today reg,
    (j < count (data s))%Z ->
    runs acts s = Some s' ->
    register_user name_ username password_ referral_id explicit_role today
      (data s') = Done reg ->
    reg_ref_id reg <> generate_ref_id j.
Proof.
  intros * Hj Hruns Hreg.
  apply runs_count in Hruns.
  apply register_user_done in Hreg. destruct Hreg as (_ & Hid & _).
  rewrite Hid. intros E. apply generate_ref_id_inj in E. lia.
Qed.

Lemma ref_id_never_reissued_witness :
  exists s' reg,
    runs [DeleteMember "PRG1002" 0] (state_of sample_data) = Some s'
    /\ register_user "Binod" "binod" "pw" "PRG1002" None "2025-01-05" (data s')
       = Done reg
    /\ reg_ref_id reg = "PRG1004"
    /\ reg_ref_id reg <> generate_ref_id 3.
Proof.
  eexists; eexists. split; [reflexivity|]. split; [reflexivity|].
  split; [reflexivity|].
  eapply (ref_id_never_reissued [DeleteMember "PRG1002" 0]
            (state_of sample_data) _ 3%Z "Binod" "binod" "pw" "PRG1002" None
            "2025-01-05"); [reflexivity | reflexivity | reflexivity].
Defined.

(** * What no handler rewrites *)

Lemma same_person_refl u : same_person u u.
Proof. repeat split. Qed.

Lemma same_person_credit_affiliate a u : same_person u (credit_affiliate a u).
Proof. repeat split. Qed.

Lemma register_user_keeps name_ username password_ referral_id explicit_role
    today d reg k u :
  NoDup (Dict.keys (users d)) ->
  register_user name_ username password_ referral_id explicit_role today d
    = Done reg ->
  Dict.get k (users d) = Some u ->
  exists a, Dict.get k (users (reg_data reg)) = Some (credit_affiliate a u).
Proof.
  intros Hnd Hreg Hget.
  pose proof (register_user_done _ _ _ _ _ _ _ _ Hreg) as (Hmem & _).
  assert (Hk : username <> k).
  { intros ->. unfold Dict.mem in Hmem. now rewrite Hget in Hmem. }
  apply mem_false_not_key in Hmem.
  rewrite (register_user_users _ _ _ _ _ _ _ _ Hreg).
  destruct (reg_role reg =? "member").
  - destruct (affiliate_loop_credits_only (seq 0 8) referral_id
                (Dict.set username
                   (newcomer name_ password_ (reg_ref_id reg) referral_id today
                      (reg_role reg)) (users d))
                ltac:(rewrite keys_set_absent by assumption;
                      now apply NoDup_snoc) k) as [a Ha].
    exists a. rewrite Ha, DictFacts.get_set_other, Hget by assumption.
    reflexivity.
  - exists 0%Z. rewrite DictFacts.get_set_other, Hget by assumption.
    now rewrite credit_affiliate_0.
Qed.

(** X6: no handler rewrites who a user is.  Whatever action is run, a user
    present before and after keeps the same name, password, ref_id, referrer,
    joining date and role; only the two incomes can differ. *)
Theorem handlers_keep_persons :
  forall a s s' k u u',
    NoDup (Dict.keys (users (data s))) ->
    run a s = Some s' ->
    Dict.get k (users (data s)) = Some u ->
    Dict.get k (users (data s')) = Some u' ->
    same_person u u'.
Proof.
  intros a s s' k u u' Hnd Hrun Hu Hu'.
  destruct a; simpl in Hrun.
  - unfold register_form in Hrun.
    destruct (negb (logged_in s0)); [|discriminate]. simpl in Hrun.
    destruct (_ || _); [discriminate|].
    destruct (register_user _ _ _ _ _ _ _) as [reg| |] eqn:E; try discriminate.
    inversion Hrun; subst; simpl in Hu'.
    destruct (register_user_keeps _ _ _ _ _ _ _ _ _ _ Hnd E Hu) as [x Hx].
    rewrite Hx in Hu'. inversion Hu'. apply same_person_credit_affiliate.
  - unfold add_member_form in Hrun. destruct (_ || _); [discriminate|].
    destruct (register_user _ _ _ _ _ _ _) as [reg| |] eqn:E; try discriminate.
    inversion Hrun; subst; simpl in Hu'.
    destruct (register_user_keeps _ _ _ _ _ _ _ _ _ _ Hnd E Hu) as [x Hx].
    rewrite Hx in Hu'. inversion Hu'. apply same_person_credit_affiliate.
  - destruct (nth_error _ i) as [[mu mi]|] eqn:E; [|discriminate].
    inversion Hrun; subst. unfold with_data in Hu'. cbn [data fst snd] in Hu'.
    rewrite (delete_member_users _ _ _ _ (nth_error_In _ _ E)) in Hu'.
    rewrite get_del in Hu' by assumption.
    destruct (k =? mu); [discriminate|].
    rewrite Hu in Hu'. inversion Hu'. apply same_person_refl.
  - unfold approve_task in Hrun.
    destruct (Dict.get key _) as [pv|]; [|discriminate].
    destruct (Dict.get (Submission.member_username pv) (users (data s)))
      as [um|] eqn:Hm; [|discriminate].
    inversion Hrun; subst; simpl in Hu'.
    destruct (String.eqb_spec (Submission.member_username pv) k) as [Hk|Hk].
    + subst k. rewrite DictFacts.get_set_same in Hu'.
      rewrite Hm in Hu. inversion Hu; inversion Hu'; subst. repeat split.
    + rewrite DictFacts.get_set_other, Hu in Hu' by assumption.
      inversion Hu'. apply same_person_refl.
  - unfold deny_task in Hrun. destruct (Dict.get key _); [|discriminate].
    inversion Hrun; subst; simpl in Hu'.
    rewrite Hu in Hu'. inversion Hu'. apply same_person_refl.
  - unfold admin_confirm in Hrun.
    destruct (Dict.get key _) as [pv|]; [|discriminate].
    destruct (negb _); [|discriminate].
    inversion Hrun; subst; simpl in Hu'.
    rewrite Hu in Hu'. inversion Hu'. apply same_person_refl.
  - unfold request_withdrawal in Hrun.
    destruct (_ <=? _)%Z; [discriminate|].
    destruct (negb (truthy upi)); [discriminate|].
    destruct (Dict.get username (users (data s))) as [uw|] eqn:Hw;
      [|discriminate].
    inversion Hrun; subst; simpl in Hu'.
    destruct (String.eqb_spec username k) as [Hk|Hk].
    + subst k. rewrite DictFacts.get_set_same in Hu'.
      rewrite Hw in Hu. inversion Hu; inversion Hu'; subst. repeat split.
    + rewrite DictFacts.get_set_other, Hu in Hu' by assumption.
      inversion Hu'. apply same_person_refl.
  - unfold settle in Hrun. destruct (nth_error _ i); [|discriminate].
    inversion Hrun; subst; simpl in Hu'.
    rewrite Hu in Hu'. inversion Hu'. apply same_person_refl.
Qed.

Lemma handlers_keep_persons_witness :
  exists s' u',
    run (AddMember "PRG1002" "Binod" "binod" "pw" "2025-01-05")
      (state_of sample_data) = Some s'
    /\ Dict.get "chitra" (users (data s')) = Some u'
    /\ affiliate_income u' = 40%Z
    /\ same_person
         (mkUser "Chitra" "pw" "PRG1002" "PRG1001" 0 20 "2025-01-01" "coadmin")
         u'.
Proof.
  eexists; eexists. split; [reflexivity|]. split; [reflexivity|].
  split; [reflexivity|].
  eapply (handlers_keep_persons
            (AddMember "PRG1002" "Binod" "binod" "pw" "2025-01-05")
            (state_of sample_data) _ "chitra");
    [repeat constructor; simpl; intuition discriminate
    | reflexivity | reflexivity | reflexivity].
Defined.

(** * How much a registration pays in all *)

Lemma total_affiliate_bump k0 p (us : Users) :
  NoDup (Dict.keys us) -> In k0 (Dict.keys us) ->
  total_affiliate (bump k0 p us) = (total_affiliate us + p)%Z.
Proof.
  unfold total_affiliate.
  induction us as [|[k u] us IH]; simpl; [tauto|].
  intros Hnd Hin. inversion Hnd as [|? ? Hnotin Hnd']; subst.
  destruct (String.eqb_spec k k0) as [->|Hk]; simpl.
  - fold (bump k0 p us). rewrite bump_absent by assumption. lia.
  - destruct Hin as [?|Hin]; [contradiction|].
    fold (bump k0 p us). rewrite IH by assumption. lia.
Qed.

Lemma total_task_bump k0 p (us : Users) :
  total_task (bump k0 p us) = total_task us.
Proof.
  unfold total_task. induction us as [|[k u] us IH]; simpl; auto.
  fold (bump k0 p us). rewrite IH. now destruct (k =? k0).
Qed.

Lemma level_payout_bounds l :
  (0 <= nth l level_payouts 0)%Z.
Proof. do 9 (destruct l as [|l]; [simpl; lia|]). simpl. lia. Qed.

Lemma affiliate_loop_totals levels :
  forall r (us : Users),
    NoDup (Dict.keys us) ->
    total_task (affiliate_loop levels r us) = total_task us
    /\ (total_affiliate us <= total_affiliate (affiliate_loop levels r us)
        <= total_affiliate us
           + fold_right Z.add 0 (map (fun l => nth l level_payouts 0) levels))%Z.
Proof.
  induction levels as [|level rest IH]; intros r us Hnd;
    cbn [affiliate_loop map fold_right].
  - split; [reflexivity|lia].
  - pose proof (level_payout_bounds level) as Hp.
    assert (Hrest : (0 <= fold_right Z.add 0
                            (map (fun l => nth l level_payouts 0) rest))%Z).
    { clear. induction rest as [|l rest IH]; cbn [map fold_right]; [lia|].
      pose proof (level_payout_bounds l). lia. }
    destruct (find_by_ref_id r us) as [[k0 u0]|] eqn:Hf; [|split; [auto|lia]].
    apply find_by_ref_id_Some in Hf. destruct Hf as [Hin _].
    destruct (truthy k0); [|split; [auto|lia]].
    rewrite (set_bump k0 u0) by assumption.
    assert (Hk : In k0 (Dict.keys us)).
    { apply (in_map fst) in Hin. exact Hin. }
    pose proof (total_affiliate_bump k0 (nth level level_payouts 0%Z) us Hnd Hk)
      as Hb.
    pose proof (total_task_bump k0 (nth level level_payouts 0%Z) us) as Ht.
    destruct (find_referrer_ref_id r _) as [next|]; [|split; [auto|lia]].
    destruct (next =? ROOT); [split; [auto|lia]|].
    destruct (IH next (bump k0 (nth level level_payouts 0%Z) us)
                ltac:(now rewrite keys_bump)) as [H1 H2].
    split; [congruence|lia].
Qed.

Lemma total_affiliate_snoc (us : Users) e :
  total_affiliate (us ++ [e])%list
  = (total_affiliate us + affiliate_income (snd e))%Z.
Proof.
  unfold total_affiliate. induction us as [|x us IH]; simpl; [lia|].
  rewrite IH. lia.
Qed.

Lemma total_task_snoc (us : Users) e :
  total_task (us ++ [e])%list = (total_task us + task_income (snd e))%Z.
Proof.
  unfold total_task. induction us as [|x us IH]; simpl; [lia|].
  rewrite IH. lia.
Qed.

(** X7: a registration never touches task income and hands out at most 250
    of affiliate income in all (the sum of the schedule): over all users,
    the task incomes sum to what they did, the affiliate incomes to between
    that sum and that sum plus 250, and to exactly that sum when the new
    user's role is not member. *)
Theorem registration_pays_at_most_250 :
  forall name_ username password_ referral_id explicit_role today d reg,
    NoDup (Dict.keys (users d)) ->
    register_user name_ username password_ referral_id explicit_role today d
      = Done reg ->
    total_task (users (reg_data reg)) = total_task (users d)
    /\ (total_affiliate (users d) <= total_affiliate (users (reg_data reg))
        <= total_affiliate (users d) + 250)%Z
    /\ (reg_role reg <> "member" ->
        total_affiliate (users (reg_data reg)) = total_affiliate (users d)).
Proof.
  intros * Hnd Hreg.
  pose proof (register_user_done _ _ _ _ _ _ _ _ Hreg) as (Hmem & _).
  apply mem_false_not_key in Hmem.
  rewrite (register_user_users _ _ _ _ _ _ _ _ Hreg).
  set (us1 := Dict.set username _ (users d)).
  assert (Hus1 : us1 = (users d ++ [(username,
                    newcomer name_ password_ (reg_ref_id reg) referral_id today
                      (reg_role reg))])%list).
  { subst us1. now apply DictFacts.set_absent. }
  assert (Ht : total_task us1 = total_task (users d)).
  { rewrite Hus1, total_task_snoc. simpl. lia. }
  assert (Ha : total_affiliate us1 = total_affiliate (users d)).
  { rewrite Hus1, total_affiliate_snoc. simpl. lia. }
  destruct (String.eqb_spec (reg_role reg) "member") as [Hr|Hr].
  - destruct (affiliate_loop_totals (seq 0 8) referral_id us1) as [H1 H2].
    { subst us1. rewrite keys_set_absent by assumption. now apply NoDup_snoc. }
    change (fold_right Z.add 0
              (map (fun l => nth l level_payouts 0) (seq 0 8)))%Z
      with 250%Z in H2.
    split; [congruence|]. split; [lia|]. intros H; contradiction.
  - split; [exact Ht|]. split; [lia|]. intros _. exact Ha.
Qed.

Lemma registration_pays_at_most_250_witness :
  exists reg,
    register_user "Binod" "binod" "pw" "PRG1003" None "2025-01-04" sample_data
      = Done reg
    /\ total_affiliate (users sample_data) = 20%Z
    /\ total_affiliate (users (reg_data reg)) = 80%Z
    /\ (total_affiliate (users (reg_data reg))
        <= total_affiliate (users sample_data) + 250)%Z.
Proof.
  eexists. split; [reflexivity|]. split; [reflexivity|]. split; [reflexivity|].
  apply (registration_pays_at_most_250 "Binod" "binod" "pw" "PRG1003" None
           "2025-01-04" sample_data _
           ltac:(repeat constructor; simpl; intuition discriminate) eq_refl).
Defined.

(** * Submissions: once made, they stay *)

Lemma find_set_fresh {V : Type} (P : string * V -> bool) k v (d : Dict.t V) :
  (forall e, In e d -> P e = false) ->
  P (k, v) = true ->
  find P (Dict.set k v d) = Some (k, v).
Proof.
  intros Hno Hp. induction d as [|[k0 v0] d IH]; simpl.
  - now rewrite Hp.
  - destruct (String.eqb_spec k0 k) as [->|Hk]; simpl.
    + now rewrite Hp.
    + rewrite (Hno (k0, v0)) by now left.
      apply IH. intros e He. apply Hno. now right.
Qed.

(** X8: a proof that went through blocks every further upload of the same
    member under the same task title: whatever the file, the time or the
    task entry carrying that title, the upload is refused as already
    submitted, with status Pending. *)
Theorem resubmission_blocked :
  forall fuel username t ext now today s key ps
         fuel' t' ext' ok' now' today',
    submit_proof fuel username t ext true now today s = Submitted key ps ->
    Task.title t' = Task.title t ->
    submit_proof fuel' username t' ext' ok' now' today' (with_proof_status ps s)
    = AlreadySubmitted "Pending".
Proof.
  intros * Hsub Ht. unfold submit_proof in *.
  unfold proof_exists_for_task in *.
  destruct (find _ (proof_status s)) as [e|] eqn:Hf; [discriminate|].
  simpl in Hsub.
  destruct (find_coadmin_for_member fuel username (data s)) as [c|];
    [|discriminate].
  inversion Hsub; subst; clear Hsub. cbn [proof_status with_proof_status].
  rewrite Ht.
  rewrite find_set_fresh; [reflexivity| |].
  - intros e He. exact (find_none _ _ Hf e He).
  - simpl. now rewrite !String.eqb_refl.
Qed.

Lemma resubmission_blocked_witness :
  submit_proof 10 "asha" sample_task ".pdf" true "20250109090000" "2025-01-09"
    submitted_state = AlreadySubmitted "Pending".
Proof.
  apply (resubmission_blocked 10 "asha" sample_task ".png" "20250103090000"
           "2025-01-03" (workflow_state sample_users []) sample_key _
           10 sample_task ".pdf" true "20250109090000" "2025-01-09");
    reflexivity.
Defined.

Lemma not_approved_not_offered key s pv :
  NoDup (Dict.keys (proof_status s)) ->
  Dict.get key (proof_status s) = Some pv ->
  Submission.status pv <> "Approved By Coadmin" ->
  admin_confirm key s = NotOffered.
Proof.
  intros Hnd Hg Hst. unfold admin_confirm, approved_by_coadmin_proofs.
  rewrite (DictFacts.get_filter_None _ key pv); auto.
  simpl. now apply String.eqb_neq.
Qed.

Lemma deny_task_done coadmin key s s' :
  NoDup (Dict.keys (proof_status s)) ->
  deny_task coadmin key s = Pressing (Done s') ->
  exists pv,
    Dict.get key (proof_status s) = Some pv
    /\ Submission.status pv = "Pending"
    /\ Submission.coadmin_username pv = coadmin
    /\ s' = with_proof_status
              (Dict.set key (Submission.with_status "Denied By Coadmin" pv)
                 (proof_status s)) s.
Proof.
  intros Hnd. unfold deny_task, pending_proofs_for_coadmin.
  destruct (Dict.get key (filter _ (proof_status s))) as [pv|] eqn:Hg;
    [|discriminate].
  apply DictFacts.get_filter in Hg; auto. destruct Hg as [Hg Hf].
  simpl in Hf. apply andb_true_iff in Hf. destruct Hf as [Hf1 Hf2].
  apply String.eqb_eq in Hf1, Hf2.
  intros H; inversion H; subst; clear H. exists pv. auto.
Qed.

(** X9: a denial is final.  Denying leaves the directory (all incomes) as
    it is and sets the status Denied By Coadmin; from then on no coadmin is
    offered the approve or deny button for that submission, the admin is not
    offered the confirmation, and the member's uploads for that task title
    are refused as already submitted. *)
Theorem denial_is_final :
  forall coadmin key s s',
    NoDup (Dict.keys (proof_status s)) ->
    deny_task coadmin key s = Pressing (Done s') ->
    exists pv,
      Dict.get key (proof_status s) = Some pv
      /\ data s' = data s
      /\ Dict.get key (proof_status s')
         = Some (Submission.with_status "Denied By Coadmin" pv)
      /\ (forall c, approve_task c key s' = NotOffered
                    /\ deny_task c key s' = NotOffered)
      /\ admin_confirm key s' = NotOffered
      /\ (forall fuel t ext ok now today,
            Task.title t = Submission.task_title pv ->
            exists st,
              submit_proof fuel (Submission.member_username pv) t ext ok now
                today s' = AlreadySubmitted st).
Proof.
  intros coadmin key s s' Hnd Hdeny.
  apply deny_task_done in Hdeny; auto.
  destruct Hdeny as (pv & Hg & Hst & Hco & ->).
  assert (Hg' : Dict.get key
                  (Dict.set key (Submission.with_status "Denied By Coadmin" pv)
                     (proof_status s))
                = Some (Submission.with_status "Denied By Coadmin" pv))
    by apply DictFacts.get_set_same.
  assert (Hnd' : NoDup (Dict.keys
                   (Dict.set key (Submission.with_status "Denied By Coadmin" pv)
                      (proof_status s)))).
  { now rewrite (keys_set_get _ _ pv). }
  exists pv. repeat split; auto.
  - eapply not_pending_not_offered; simpl; eauto. simpl. discriminate.
  - eapply not_pending_not_offered; simpl; eauto. simpl. discriminate.
  - eapply not_approved_not_offered; simpl; eauto. simpl. discriminate.
  - intros fuel t ext ok now today Ht.
    destruct (proof_exists_for_task_found
                (Submission.member_username pv) t
                (Dict.set key (Submission.with_status "Denied By Coadmin" pv)
                   (proof_status s))
                key (Submission.with_status "Denied By Coadmin" pv))
      as (k' & pv' & _ & _ & _ & Hex); auto.
    + now apply DictFacts.get_In.
    + exists (Submission.status pv'). unfold submit_proof.
      cbn [proof_status with_proof_status]. now rewrite Hex.
Qed.

Lemma denial_is_final_witness :
  exists s',
    deny_task "chitra" sample_key submitted_state = Pressing (Done s')
    /\ data s' = data submitted_state
    /\ approve_task "chitra" sample_key s' = NotOffered
    /\ admin_confirm sample_key s' = NotOffered.
Proof.
  eexists. split; [reflexivity|].
  destruct (denial_is_final "chitra" sample_key submitted_state _
              ltac:(repeat constructor; simpl; intuition discriminate) eq_refl)
    as (pv & _ & Hd & _ & Hc & Ha & _).
  split; [exact Hd|]. split; [exact (proj1 (Hc "chitra")) | exact Ha].
Defined.

(** * Who may decide, and when *)

Lemma get_filter_Some {V : Type} (f : string * V -> bool) k v (d : Dict.t V) :
  NoDup (Dict.keys d) ->
  Dict.get k d = Some v -> f (k, v) = true ->
  Dict.get k (filter f d) = Some v.
Proof.
  intros Hnd Hg Hf. apply DictFacts.In_get.
  - apply NoDup_map_filter. exact Hnd.
  - apply filter_In. split; auto. now apply DictFacts.get_In.
Qed.

(** X10: the approve and deny buttons of a submission are offered to a
    coadmin exactly when the submission is Pending and that coadmin is the
    one recorded in it at upload time; anybody else, and anybody once a
    decision is made, is offered neither. *)
Theorem decision_offered_iff :
  forall coadmin key s,
    NoDup (Dict.keys (proof_status s)) ->
    ((approve_task coadmin key s <> NotOffered
      <-> exists pv, Dict.get key (proof_status s) = Some pv
                     /\ Submission.status pv = "Pending"
                     /\ Submission.coadmin_username pv = coadmin)
     /\ (deny_task coadmin key s <> NotOffered
         <-> exists pv, Dict.get key (proof_status s) = Some pv
                        /\ Submission.status pv = "Pending"
                        /\ Submission.coadmin_username pv = coadmin)).
Proof.
  intros coadmin key s Hnd.
  assert (Hiff : (exists pv, Dict.get key (proof_status s) = Some pv
                      /\ Submission.status pv = "Pending"
                      /\ Submission.coadmin_username pv = coadmin)
                 <-> exists pv,
                      Dict.get key (pending_proofs_for_coadmin coadmin
                                      (proof_status s)) = Some pv).
  { unfold pending_proofs_for_coadmin. split.
    - intros (pv & Hg & Hst & Hco). exists pv.
      apply get_filter_Some; auto. simpl.
      now rewrite Hst, Hco, !String.eqb_refl.
    - intros (pv & Hg). apply DictFacts.get_filter in Hg; auto.
      destruct Hg as [Hg Hf]. simpl in Hf.
      apply andb_true_iff in Hf. destruct Hf as [Hf1 Hf2].
      apply String.eqb_eq in Hf1, Hf2. exists pv. auto. }
  split; rewrite Hiff; unfold approve_task, deny_task;
    destruct (Dict.get key (pending_proofs_for_coadmin coadmin (proof_status s)))
      as [pv|].
  - split; [eauto|]. intros _.
    destruct (Dict.get _ (users (data s))); discriminate.
  - split; [tauto|]. intros [pv H]. discriminate.
  - split; [eauto | discriminate].
  - split; [tauto|]. intros [pv H]. discriminate.
Qed.

Lemma decision_offered_iff_witness :
  approve_task "chitra" sample_key submitted_state <> NotOffered
  /\ approve_task "admin" sample_key submitted_state = NotOffered.
Proof.
  destruct (decision_offered_iff "chitra" sample_key submitted_state
              ltac:(repeat constructor; simpl; intuition discriminate))
    as [[_ H] _].
  split; [|reflexivity].
  apply H. eexists. split; [reflexivity|]. split; reflexivity.
Defined.

(** X11: when the member of a pending submission has been deleted, approving
    it is refused (the member is not found) and nothing is saved: no income
    is credited and the submission stays Pending. *)
Theorem approve_after_deletion_refused :
  forall own mu mi coadmin key pv s,
    NoDup (Dict.keys (users (data s))) ->
    NoDup (Dict.keys (proof_status s)) ->
    In (mu, mi) (my_direct_members own (data s)) ->
    Dict.get key (proof_status s) = Some pv ->
    Submission.status pv = "Pending" ->
    Submission.coadmin_username pv = coadmin ->
    Submission.member_username pv = mu ->
    approve_task coadmin key (with_data (delete_member own mu mi (data s)) s)
    = Pressing (Rejected "Member not found in database.").
Proof.
  intros * Hu Hp Hin Hg Hst Hco Hm. unfold approve_task.
  cbn [proof_status data with_data].
  unfold pending_proofs_for_coadmin.
  rewrite (get_filter_Some _ key pv); auto.
  - rewrite Hm, (delete_member_users _ _ _ _ Hin), get_del by assumption.
    now rewrite String.eqb_refl.
  - simpl. now rewrite Hst, Hco, !String.eqb_refl.
Qed.

Lemma approve_after_deletion_refused_witness :
  approve_task "chitra" sample_key
    (with_data
       (delete_member "PRG1002" "asha"
          (mkUser "Asha" "pw" "PRG1003" "PRG1002" 0 0 "2025-01-02" "member")
          (data submitted_state)) submitted_state)
  = Pressing (Rejected "Member not found in database.").
Proof.
  eapply (approve_after_deletion_refused "PRG1002" "asha" _ "chitra" sample_key
            _ submitted_state);
    try reflexivity;
    try (repeat constructor; simpl; intuition discriminate).
Defined.

(** * Submissions only move forward *)

Lemma same_submission_refl p : same_submission p p.
Proof. repeat split. Qed.

Lemma forward_refl a : forward a a.
Proof. now left. Qed.

(** X12: the handlers that register, add or delete users, decide on proofs
    and request or settle withdrawals never delete a submission, change what
    it is about, or move its status backwards: after any of them every
    submission on record is still on record under its key, with the same
    task title, payout, member, file, date and coadmin, and its status is
    the same or has moved Pending to Approved By Coadmin or Denied By
    Coadmin, or Approved By Coadmin to Approved By Admin.  An upload writes
    one record, under its own key: every submission stored under another key
    stays exactly as it is, and a submission stored under that very key (the
    key is built from the username, the title and the second, so two
    different pairs of member and title can spell the same key) is replaced
    by the new Pending record. *)
Theorem submissions_only_move_forward :
  forall s key pv,
    NoDup (Dict.keys (proof_status s)) ->
    Dict.get key (proof_status s) = Some pv ->
    (forall a s',
        run a s = Some s' ->
        exists pv',
          Dict.get key (proof_status s') = Some pv'
          /\ same_submission pv pv'
          /\ forward (Submission.status pv) (Submission.status pv'))
    /\ (forall fuel username t ext now today key' ps',
          submit_proof fuel username t ext true now today s
            = Submitted key' ps' ->
          (key' <> key -> Dict.get key ps' = Some pv)
          /\ (key' = key ->
              exists pv',
                Dict.get key ps' = Some pv'
                /\ Submission.member_username pv' = username
                /\ Submission.task_title pv' = Task.title t
                /\ Submission.status pv' = "Pending")).
Proof.
  intros s key pv Hnd Hg. split.
  { intros a s' Hrun.
    assert (Hsame : proof_status s' = proof_status s ->
                    exists pv', Dict.get key (proof_status s') = Some pv'
                                /\ same_submission pv pv'
                                /\ forward (Submission.status pv)
                                     (Submission.status pv')).
    { intros ->. exists pv. split; [auto|]. split;
        [apply same_submission_refl | apply forward_refl]. }
    destruct a; simpl in Hrun.
    - destruct (register_form _ _ _ _ _ _ _ _) as [|[reg| |]];
        try discriminate.
      inversion Hrun; subst. now apply Hsame.
    - destruct (add_member_form _ _ _ _ _ _) as [reg| |]; try discriminate.
      inversion Hrun; subst. now apply Hsame.
    - destruct (nth_error _ i); [|discriminate].
      inversion Hrun; subst. now apply Hsame.
    - destruct (approve_task coadmin key0 s) as [|[x| |]] eqn:E;
        try discriminate.
      inversion Hrun; subst x. apply approve_task_done in E; auto.
      destruct E as (pv0 & u & Hg0 & Hst & _ & _ & ->).
      cbn [proof_status with_proof_status].
      destruct (String.eqb_spec key0 key) as [->|Hk].
      + rewrite DictFacts.get_set_same. rewrite Hg in Hg0. inversion Hg0; subst.
        eexists. split; [reflexivity|]. split; [repeat split|].
        right; left. rewrite Hst. simpl. auto.
      + rewrite DictFacts.get_set_other by assumption.
        exists pv. split; [auto|]. split;
          [apply same_submission_refl | apply forward_refl].
    - destruct (deny_task coadmin key0 s) as [|[x| |]] eqn:E; try discriminate.
      inversion Hrun; subst x. apply deny_task_done in E; auto.
      destruct E as (pv0 & Hg0 & Hst & _ & ->).
      cbn [proof_status with_proof_status].
      destruct (String.eqb_spec key0 key) as [->|Hk].
      + rewrite DictFacts.get_set_same. rewrite Hg in Hg0. inversion Hg0; subst.
        eexists. split; [reflexivity|]. split; [repeat split|].
        right; left. rewrite Hst. simpl. auto.
      + rewrite DictFacts.get_set_other by assumption.
        exists pv. split; [auto|]. split;
          [apply same_submission_refl | apply forward_refl].
    - destruct (admin_confirm key0 s) as [|[x| |]] eqn:E; try discriminate.
      inversion Hrun; subst x. apply admin_confirm_done in E; auto.
      destruct E as (pv0 & Hg0 & Hst & ->).
      cbn [proof_status with_proof_status].
      destruct (String.eqb_spec key0 key) as [->|Hk].
      + rewrite DictFacts.get_set_same. rewrite Hg in Hg0. inversion Hg0; subst.
        eexists. split; [reflexivity|]. split; [repeat split|].
        right; right. rewrite Hst. simpl. auto.
      + rewrite DictFacts.get_set_other by assumption.
        exists pv. split; [auto|]. split;
          [apply same_submission_refl | apply forward_refl].
    - destruct (request_withdrawal _ _ _ _ _ _) as [x| |] eqn:E;
        try discriminate.
      inversion Hrun; subst x. apply Hsame.
      unfold request_withdrawal in E.
      destruct (_ <=? _)%Z; [discriminate|].
      destruct (negb (truthy upi)); [discriminate|].
      destruct (Dict.get username _); [|discriminate].
      inversion E; reflexivity.
    - unfold settle in Hrun. destruct (nth_error _ i); [|discriminate].
      inversion Hrun; subst. now apply Hsame.
  }
  intros fuel username t ext now today key' ps' Hs. split.
  - intros Hk. unfold submit_proof in Hs.
    destruct (proof_exists_for_task username t (proof_status s));
      [discriminate|].
    destruct (find_coadmin_for_member fuel username (data s));
      [|discriminate].
    inversion Hs; subst.
    now rewrite DictFacts.get_set_other.
  - intros ->.
    destruct (submit_proof_records_payout _ _ _ _ _ _ _ _ _ Hs)
      as (pv' & Hg' & _ & Ht & Hm & Hst & _).
    exists pv'. auto.
Qed.

(** The two pairs (member a_b, task c) and (member a, task "b c") spell the
    same key in the same second: the second upload replaces the record of
    the first. *)
Example upload_key_collision :
  exists ps',
    submit_proof 5 "a" (Task.mk "b c" "d" 10 "admin" "2025-01-01") ".png" true
      "20250103090000" "2025-01-03"
      (workflow_state sample_users
         [("a_b_c_20250103090000",
           Submission.mk "c" 10 "a_b" "proofs/a_b_c_20250103090000.png"
             "Pending" "2025-01-03" "chitra" false)])
    = Submitted "a_b_c_20250103090000" ps'
    /\ option_map Submission.member_username
         (Dict.get "a_b_c_20250103090000" ps') = Some "a"
    /\ List.length ps' = 1.
Proof. eexists. split; [vm_compute; reflexivity|]. split; reflexivity. Qed.

Lemma submissions_only_move_forward_witness :
  exists s' pv',
    run (ApproveTask "chitra" sample_key) submitted_state = Some s'
    /\ Dict.get sample_key (proof_status s') = Some pv'
    /\ Submission.status pv' = "Approved By Coadmin"
    /\ forward "Pending" (Submission.status pv').
Proof.
  destruct (submissions_only_move_forward submitted_state sample_key _
              ltac:(repeat constructor; simpl; intuition discriminate)
              eq_refl) as [Hrun _].
  destruct (Hrun (ApproveTask "chitra" sample_key) _ eq_refl)
    as (pv' & Hg & _ & Hf).
  eexists; exists pv'. split; [reflexivity|]. split; [exact Hg|].
  split; [|exact Hf].
  vm_compute in Hg. inversion Hg. reflexivity.
Defined.

(** * The request ids of the ledger *)

Lemma uint_prefix_inj d1 :
  forall d2 t1 t2,
    NilEmpty.string_of_uint d1 ++ String "-" t1
    = NilEmpty.string_of_uint d2 ++ String "-" t2 ->
    d1 = d2.
Proof.
  induction d1; destruct d2; simpl; intros t1 t2 H;
    try discriminate; auto; inversion H; f_equal; eauto.
Qed.

Lemma to_uint_nonnil n : Nat.to_uint n <> Decimal.Nil.
Proof.
  rewrite <- (DecimalNat.Unsigned.of_to n) at 1.
  rewrite DecimalNat.Unsigned.to_of. apply DecimalFacts.unorm_nonnil.
Qed.

Lemma str_of_nat_prefix_inj a b t1 t2 :
  str_of_nat a ++ "-" ++ t1 = str_of_nat b ++ "-" ++ t2 -> a = b.
Proof.
  unfold str_of_nat, NilZero.string_of_uint.
  pose proof (to_uint_nonnil a) as Ha. pose proof (to_uint_nonnil b) as Hb.
  intros H. apply DecimalNat.Unsigned.to_uint_inj.
  apply (uint_prefix_inj _ _ t1 t2).
  destruct (Nat.to_uint a); try contradiction;
    destruct (Nat.to_uint b); try contradiction; exact H.
Qed.

Lemma numbered_id_inj a b rid : numbered_id a rid -> numbered_id b rid -> a = b.
Proof.
  intros [t1 H1] [t2 H2]. rewrite H1 in H2.
  apply append_inj_r in H2. now apply str_of_nat_prefix_inj in H2.
Qed.

Lemma numbered_from_above n ids :
  numbered_from n ids ->
  forall rid, In rid ids -> exists m, n <= m /\ numbered_id m rid.
Proof.
  revert n. induction ids as [|x ids IH]; intros n H rid Hin; [contradiction|].
  destruct H as [Hx Hrest]. destruct Hin as [<-|Hin].
  - exists n. split; [lia|auto].
  - destruct (IH _ Hrest rid Hin) as (m & Hm & Hid). exists m. split; [lia|auto].
Qed.

Lemma numbered_from_NoDup n ids : numbered_from n ids -> NoDup ids.
Proof.
  revert n. induction ids as [|x ids IH]; intros n H; [constructor|].
  destruct H as [Hx Hrest]. constructor; [|eauto].
  intros Hin. destruct (numbered_from_above _ _ Hrest x Hin) as (m & Hm & Hid).
  pose proof (numbered_id_inj _ _ _ Hx Hid). lia.
Qed.

Lemma numbered_from_snoc n ids rid :
  numbered_from n ids -> numbered_id (n + List.length ids) rid ->
  numbered_from n (ids ++ [rid]).
Proof.
  revert n. induction ids as [|x ids IH]; intros n H Hid; simpl in *.
  - rewrite Nat.add_0_r in Hid. auto.
  - destruct H as [Hx Hrest]. split; auto. apply IH; auto.
    replace (S n + List.length ids) with (n + S (List.length ids)) by lia.
    exact Hid.
Qed.

Lemma request_ids_set_status_of rid st ws :
  map Withdrawal.request_id (set_status_of rid st ws)
  = map Withdrawal.request_id ws.
Proof.
  induction ws as [|w ws IH]; simpl; auto.
  destruct (Withdrawal.request_id w =? rid); simpl; [reflexivity|].
  now rewrite IH.
Qed.

Lemma run_keeps_ledger_numbered a s s' :
  ledger_numbered (withdrawals s) -> run a s = Some s' ->
  ledger_numbered (withdrawals s').
Proof.
  intros Hl Hrun. destruct a; simpl in Hrun.
  - destruct (register_form _ _ _ _ _ _ _ _) as [|[reg| |]];
      try discriminate.
    now inversion Hrun; subst.
  - destruct (add_member_form _ _ _ _ _ _); try discriminate.
    now inversion Hrun; subst.
  - destruct (nth_error _ i); [|discriminate]. now inversion Hrun; subst.
  - unfold approve_task in Hrun. destruct (Dict.get key _) as [pv|];
      [|discriminate].
    destruct (Dict.get _ (users (data s))); [|discriminate].
    now inversion Hrun; subst.
  - unfold deny_task in Hrun. destruct (Dict.get key _); [|discriminate].
    now inversion Hrun; subst.
  - unfold admin_confirm in Hrun. destruct (Dict.get key _) as [pv|];
      [|discriminate].
    destruct (negb _); [|discriminate]. now inversion Hrun; subst.
  - unfold request_withdrawal in Hrun.
    destruct (_ <=? _)%Z; [discriminate|].
    destruct (negb (truthy upi)); [discriminate|].
    destruct (Dict.get username _); [|discriminate].
    inversion Hrun; subst; clear Hrun. unfold ledger_numbered in *.
    cbn [withdrawals with_withdrawals with_data]. rewrite map_app.
    apply numbered_from_snoc; auto. rewrite length_map.
    cbn [map Withdrawal.request_id]. exists now.
    replace (1 + List.length (withdrawals s))
      with (List.length (withdrawals s) + 1) by lia.
    reflexivity.
  - unfold settle in Hrun. destruct (nth_error _ i); [|discriminate].
    inversion Hrun; subst; clear Hrun. unfold ledger_numbered in *.
    cbn [withdrawals with_withdrawals].
    now rewrite request_ids_set_status_of.
Qed.

(** X13: the request ids of the ledger stay unique.  A ledger whose
    requests are numbered as [request_withdrawal] numbers them (the empty
    ledger is) is numbered that way after any run of actions, and then no two
    requests share an id, because requests are only ever appended and each
    new id carries the new length of the ledger. *)
Theorem request_ids_stay_unique :
  forall acts s s',
    ledger_numbered (withdrawals s) ->
    runs acts s = Some s' ->
    ledger_numbered (withdrawals s')
    /\ NoDup (map Withdrawal.request_id (withdrawals s')).
Proof.
  induction acts as [|a acts IH]; intros s s' Hl Hruns; simpl in Hruns.
  - inversion Hruns; subst. split; auto. eapply numbered_from_NoDup; eauto.
  - destruct (run a s) as [s1|] eqn:E; [|discriminate].
    apply (IH s1 s'); [|exact Hruns].
    exact (run_keeps_ledger_numbered a s s1 Hl E).
Qed.

Lemma request_ids_stay_unique_witness :
  exists s',
    runs [RequestWithdrawal "chitra"
            (mkUser "Chitra" "pw" "PRG1002" "PRG1001" 0 20 "2025-01-01" "coadmin")
            "chitra@upi" "20250110120000" "2025-01-10";
          Settle 0 paid]
      (state_of sample_data) = Some s'
    /\ map Withdrawal.request_id (withdrawals s') = ["WDR1-20250110120000"]
    /\ NoDup (map Withdrawal.request_id (withdrawals s')).
Proof.
  eexists. split; [reflexivity|]. split; [reflexivity|].
  apply (request_ids_stay_unique
           [RequestWithdrawal "chitra"
              (mkUser "Chitra" "pw" "PRG1002" "PRG1001" 0 20 "2025-01-01"
                 "coadmin")
              "chitra@upi" "20250110120000" "2025-01-10";
            Settle 0 paid]
           (state_of sample_data));
    [exact I | reflexivity].
Defined.

(** * Pending and processed requests *)

Lemma pending_processed_length ws :
  List.length (pending_withdrawals ws) + List.length (processed_withdrawals ws)
  = List.length ws.
Proof.
  unfold pending_withdrawals, processed_withdrawals.
  induction ws as [|w ws IH]; simpl; auto.
  destruct (Withdrawal.status w =? "Pending"); simpl; lia.
Qed.

Lemma pending_after_restatus req st ws :
  NoDup (map Withdrawal.request_id ws) ->
  In req ws -> Withdrawal.status req = "Pending" -> st <> "Pending" ->
  List.length (pending_withdrawals
                 (map (restatus (Withdrawal.request_id req) st) ws)) + 1
  = List.length (pending_withdrawals ws).
Proof.
  intros Hnd Hin Hst Hne. unfold pending_withdrawals.
  induction ws as [|w ws IH]; [contradiction|].
  inversion Hnd as [|? ? Hnotin Hnd']; subst.
  cbn [map filter]. unfold restatus at 1.
  destruct (String.eqb_spec (Withdrawal.request_id w)
              (Withdrawal.request_id req)) as [E|E].
  - assert (w = req).
    { destruct Hin as [?|Hin]; auto. exfalso. apply Hnotin. rewrite E.
      now apply in_map. }
    subst w. rewrite restatus_absent by assumption.
    cbn [Withdrawal.status Withdrawal.with_status].
    apply String.eqb_neq in Hne. rewrite Hne, Hst. simpl. lia.
  - destruct Hin as [->|Hin]; [congruence|].
    specialize (IH Hnd' Hin).
    destruct (Withdrawal.status w =? "Pending"); simpl; lia.
Qed.

(** X14: with unique request ids, settling takes exactly one request out of
    the pending list and puts it among the processed ones; the ledger keeps
    its length, and no request changes its id, owner, payee or amount. *)
Theorem settle_moves_one_request :
  forall i o s s',
    NoDup (map Withdrawal.request_id (withdrawals s)) ->
    settle i o s = Pressing (Done s') ->
    List.length (pending_withdrawals (withdrawals s')) + 1
    = List.length (pending_withdrawals (withdrawals s))
    /\ List.length (processed_withdrawals (withdrawals s'))
       = List.length (processed_withdrawals (withdrawals s)) + 1
    /\ map (fun w => (Withdrawal.request_id w, Withdrawal.username w,
                      Withdrawal.upi w, Withdrawal.amount w))
           (withdrawals s')
       = map (fun w => (Withdrawal.request_id w, Withdrawal.username w,
                        Withdrawal.upi w, Withdrawal.amount w))
             (withdrawals s).
Proof.
  intros i o s s' Hnd. unfold settle.
  destruct (nth_error (pending_withdrawals (withdrawals s)) i) as [req|] eqn:Hi;
    [|discriminate].
  intros H; inversion H; subst; clear H. cbn [withdrawals with_withdrawals].
  apply nth_error_In in Hi. apply filter_In in Hi. destruct Hi as [Hin Hst].
  apply String.eqb_eq in Hst.
  rewrite set_status_of_unique by assumption.
  pose proof (pending_after_restatus req (status_of_outcome o) (withdrawals s)
                Hnd Hin Hst (status_of_outcome_not_pending o)) as Hp.
  pose proof (pending_processed_length (withdrawals s)) as H1.
  pose proof (pending_processed_length
                (map (restatus (Withdrawal.request_id req) (status_of_outcome o))
                   (withdrawals s))) as H2.
  rewrite length_map in H2.
  split; [exact Hp|]. split; [lia|].
  rewrite map_map. apply map_ext. intros w. unfold restatus.
  now destruct (Withdrawal.request_id w =? Withdrawal.request_id req).
Qed.

Lemma settle_moves_one_request_witness :
  exists s',
    settle 0 paid
      {| data := sample_data; tasks := []; withdrawals := sample_ledger;
         proof_status := [] |} = Pressing (Done s')
    /\ List.length (pending_withdrawals sample_ledger) = 1
    /\ List.length (pending_withdrawals (withdrawals s')) + 1
       = List.length (pending_withdrawals sample_ledger).
Proof.
  eexists. split; [reflexivity|]. split; [reflexivity|].
  exact (proj1 (settle_moves_one_request 0 paid
                  {| data := sample_data; tasks := [];
                     withdrawals := sample_ledger; proof_status := [] |} _
                  ltac:(repeat constructor; simpl; intuition discriminate)
                  eq_refl)).
Defined.

(** * Menu and pages *)

(** X15: every entry of the sidebar menu leads to a page, and to a page
    meant for the role the menu was built for: whatever the role string, no
    entry offered falls through the page dispatch, only an admin is offered
    the withdrawal management, proof review, coadmin list and tree pages,
    only a coadmin the member and approval pages, only a member the task
    list, and a role outside the three gets the three common pages. *)
Theorem menu_entries_render :
  forall role_ menu,
    In menu (menu_options role_) ->
    exists p, render menu role_ = Some p /\ page_for p role_.
Proof.
  intros role_ menu. unfold menu_options.
  destruct (String.eqb_spec role_ "admin") as [->|Ha].
  { cbv [list_insert firstn skipn app].
    intros H; repeat (destruct H as [<-|H]; [eexists; split; [reflexivity|];
                                              simpl; auto|]).
    contradiction. }
  destruct (String.eqb_spec role_ "coadmin") as [->|Hc].
  { cbv [list_insert firstn skipn app].
    intros H; repeat (destruct H as [<-|H]; [eexists; split; [reflexivity|];
                                              simpl; auto|]).
    contradiction. }
  destruct (String.eqb_spec role_ "member") as [->|Hm].
  { cbv [list_insert firstn skipn app].
    intros H; repeat (destruct H as [<-|H]; [eexists; split; [reflexivity|];
                                              simpl; auto|]).
    contradiction. }
  intros H; repeat (destruct H as [<-|H]; [eexists; split; [reflexivity|];
                                            simpl; auto|]).
  contradiction.
Qed.

Lemma menu_entries_render_witness :
  menu_options "coadmin"
  = ["Dashboard"; "Task Manager"; "Coadmin: Approve Proofs"; "My Members";
     "Wallet"; "Withdrawals"]
  /\ exists p, render "My Members" "coadmin" = Some p /\ page_for p "coadmin".
Proof.
  split; [reflexivity|].
  apply (menu_entries_render "coadmin" "My Members").
  vm_compute. tauto.
Defined.

(** * Who approves whose proofs *)

Lemma find_by_ref_id_owner (us : Users) k u :
  NoDup (map (fun e => ref_id (snd e)) us) ->
  In (k, u) us -> find_by_ref_id (ref_id u) us = Some (k, u).
Proof.
  intros Hnd Hin. unfold find_by_ref_id.
  destruct (find _ us) as [[k' u']|] eqn:Hf.
  - apply find_some in Hf. destruct Hf as [Hin' E]. simpl in E.
    apply String.eqb_eq in E.
    destruct (owner_unique us k' u' k u Hnd Hin' Hin E). now subst.
  - pose proof (find_none _ _ Hf _ Hin) as E. simpl in E.
    now rewrite String.eqb_refl in E.
Qed.

(** X16: the members a coadmin sees on My Members are the ones the admin
    sees under that coadmin on All Coadmins, and the proofs of each of them
    go to that coadmin: with unique ref_ids, the walk from a direct member of
    a coadmin answers that coadmin's username at its first step. *)
Theorem direct_members_answer_to_their_coadmin :
  forall d ck c,
    NoDup (map (fun e => ref_id (snd e)) (users d)) ->
    In (ck, c) (users d) ->
    role c = "coadmin" -> truthy ck = true -> ref_id c <> ROOT ->
    members_under c d = map snd (my_direct_members (ref_id c) d)
    /\ forall mu mi fuel,
         In (mu, mi) (my_direct_members (ref_id c) d) ->
         NoDup (Dict.keys (users d)) ->
         find_coadmin_for_member (S fuel) mu d = Some ck.
Proof.
  intros d ck c Hnd Hin Hrole Htr Hroot. split.
  - clear. unfold members_under, my_direct_members.
    induction (users d) as [|[k u] us IH]; simpl; auto.
    destruct ((ref_by u =? ref_id c) && (role u =? "member")); simpl;
      now rewrite IH.
  - intros mu mi fuel Hm Hkeys. apply my_direct_members_In in Hm.
    destruct Hm as (Hm & Hby & _).
    unfold find_coadmin_for_member.
    rewrite (DictFacts.In_get _ _ _ Hkeys Hm), Hby, coadmin_walk_S.
    apply String.eqb_neq in Hroot. rewrite Hroot.
    rewrite (find_by_ref_id_owner _ _ _ Hnd Hin), Htr, Hrole. reflexivity.
Qed.

Lemma direct_members_answer_to_their_coadmin_witness :
  members_under
    (mkUser "Chitra" "pw" "PRG1002" "PRG1001" 0 20 "2025-01-01" "coadmin")
    sample_data
  = [mkUser "Asha" "pw" "PRG1003" "PRG1002" 0 0 "2025-01-02" "member"]
  /\ find_coadmin_for_member 1 "asha" sample_data = Some "chitra".
Proof.
  destruct (direct_members_answer_to_their_coadmin sample_data "chitra"
              (mkUser "Chitra" "pw" "PRG1002" "PRG1001" 0 20 "2025-01-01"
                 "coadmin")
              ltac:(repeat constructor; simpl; intuition discriminate)
              ltac:(vm_compute; tauto) eq_refl eq_refl ltac:(discriminate))
    as [H1 H2].
  split; [reflexivity|].
  apply (H2 "asha"
           (mkUser "Asha" "pw" "PRG1003" "PRG1002" 0 0 "2025-01-02" "member")).
  - vm_compute. tauto.
  - repeat constructor; simpl; intuition discriminate.
Defined.

Lemma coadmin_walk_answer (us : Users) :
  forall fuel r a,
    coadmin_walk fuel us r = Some a ->
    a = UNKNOWN \/ exists u, In (a, u) us /\ role u = "coadmin".
Proof.
  induction fuel as [|fuel IH]; intros r a; [discriminate|].
  rewrite coadmin_walk_S.
  destruct (r =? ROOT); [intros H; inversion H; auto|].
  destruct (find_by_ref_id r us) as [[k u]|] eqn:Hf;
    [|intros H; inversion H; auto].
  apply find_by_ref_id_Some in Hf. destruct Hf as [Hin _].
  destruct (truthy k); [|intros H; inversion H; auto].
  destruct (String.eqb_spec (role u) "coadmin") as [Hc|Hc]; [|apply IH].
  intros H; inversion H; subst. right. eauto.
Qed.

(** X17: on any directory, damaged or not, the approver recorded in a new
    submission is either the sentinel [UNKNOWN] or the username of a user
    whose role is coadmin at that moment; a member or the admin is never
    recorded as approver. *)
Theorem recorded_approver_is_a_coadmin :
  forall fuel username t ext now today s key ps,
    submit_proof fuel username t ext true now today s = Submitted key ps ->
    exists pv,
      Dict.get key ps = Some pv
      /\ Submission.member_username pv = username
      /\ (Submission.coadmin_username pv = UNKNOWN
          \/ exists u, In (Submission.coadmin_username pv, u) (users (data s))
                       /\ role u = "coadmin").
Proof.
  intros * H.
  destruct (submit_proof_records_payout _ _ _ _ _ _ _ _ _ H)
    as (pv & Hg & _ & _ & Hm & _ & _ & Hc).
  exists pv. split; [auto|]. split; [auto|].
  unfold find_coadmin_for_member in Hc.
  destruct (Dict.get username (users (data s))) as [m|].
  - eapply coadmin_walk_answer; eauto.
  - inversion Hc; auto.
Qed.

Lemma recorded_approver_is_a_coadmin_witness :
  exists pv,
    Dict.get sample_key (proof_status submitted_state) = Some pv
    /\ Submission.coadmin_username pv = "chitra"
    /\ (Submission.coadmin_username pv = UNKNOWN
        \/ exists u, In (Submission.coadmin_username pv, u) sample_users
                     /\ role u = "coadmin").
Proof.
  destruct (recorded_approver_is_a_coadmin 10 "asha" sample_task ".png"
              "20250103090000" "2025-01-03" (workflow_state sample_users [])
              sample_key _ eq_refl) as (pv & Hg & _ & Hc).
  exists pv. split; [exact Hg|]. split; [|exact Hc].
  vm_compute in Hg. inversion Hg. reflexivity.
Defined.

(** X18: on a directory that satisfies the invariants, whoever was referred
    by the admin's ref_id has no coadmin above: the walk meets the admin,
    whose role is not coadmin and whose referrer is [ROOT], and answers the
    sentinel [UNKNOWN]. *)
Theorem referred_by_admin_has_no_coadmin :
  forall d mu mi fuel,
    directory_inv d ->
    In (mu, mi) (users d) ->
    ref_by mi = "PRG1001" ->
    find_coadmin_for_member (S (S fuel)) mu d = Some UNKNOWN.
Proof.
  intros d mu mi fuel Hinv Hin Hby.
  unfold find_coadmin_for_member.
  rewrite (DictFacts.In_get _ _ _ (dir_user_keys d Hinv) Hin), Hby.
  pose proof (inv_admin _ _ _ Hinv) as Ha.
  apply in_map_iff in Ha. destruct Ha as ([k a] & Hl & Ha).
  inversion Hl as [[Hk Hid Hrb Hro]]. subst k.
  rewrite coadmin_walk_S.
  destruct (String.eqb_spec (ref_id a) ROOT) as [E|_];
    [rewrite Hid in E; discriminate|].
  rewrite (find_by_ref_id_owner _ _ _ (dir_ref_ids_unique d Hinv) Ha).
  cbn [truthy]. rewrite Hro.
  change ("admin" =? "coadmin") with false. cbv iota.
  rewrite coadmin_walk_S, Hrb. reflexivity.
Qed.

Lemma referred_by_admin_has_no_coadmin_witness :
  find_coadmin_for_member 2 "chitra" sample_data = Some UNKNOWN.
Proof.
  apply (referred_by_admin_has_no_coadmin sample_data "chitra"
           (mkUser "Chitra" "pw" "PRG1002" "PRG1001" 0 20 "2025-01-01" "coadmin")
           0 sample_data_inv); [vm_compute; tauto | reflexivity].
Defined.

(** * The Dashboard figures *)

Lemma fold_left_add {A : Type} (f : A -> nat) (l : list A) (a : nat) :
  fold_left (fun x c => x + f c) l a = a + list_sum (map f l).
Proof.
  revert a. induction l as [|y l IH]; intros a; simpl; [lia|].
  rewrite IH. lia.
Qed.

Lemma team_S b rs r :
  team (S b) rs r
  = List.length (children rs r) + list_sum (map (team b rs) (children rs r)).
Proof. simpl. apply fold_left_add. Qed.

Lemma team_no_children b rs r : children rs r = [] -> team b rs r = 0.
Proof. intros H. destruct b; [reflexivity|]. now rewrite team_S, H. Qed.

Section TeamGrows.
Variables (ls : list Link) (rs : Referrals) (c : Z) (referral : string).
Hypothesis Hinv : forest_inv ls rs c.
Hypothesis Hkey : In referral (Dict.keys rs).

Lemma children_registered_other x :
  x <> referral ->
  children (registered rs referral (generate_ref_id c)) x = children rs x.
Proof.
  intros Hx. rewrite children_registered.
  destruct (String.eqb_spec referral x) as [E|_]; [congruence|].
  destruct (String.eqb_spec (generate_ref_id c) x) as [<-|_]; auto.
  symmetry. apply children_not_key. apply (fresh_not_key _ _ _ Hinv).
Qed.

Lemma team_away_from_referral :
  forall b x,
    x <> referral ->
    (forall y, descendant rs x y -> y <> referral) ->
    team b (registered rs referral (generate_ref_id c)) x = team b rs x.
Proof.
  induction b as [|b IH]; intros x Hx Hd; [reflexivity|].
  rewrite !team_S, children_registered_other by assumption.
  f_equal. f_equal. apply map_ext_in. intros y Hy. apply IH.
  - apply Hd. now apply desc_child.
  - intros z Hz. apply Hd. eapply desc_step; eauto.
Qed.

Lemma team_of_referral b :
  team (S b) (registered rs referral (generate_ref_id c)) referral
  = team (S b) rs referral + 1.
Proof.
  destruct (inv_acyclic _ _ _ Hinv) as [n Hn].
  assert (Hcyc : ~ descendant rs referral referral).
  { apply (depth_below_no_cycle rs n), Hn. }
  rewrite !team_S, children_registered, String.eqb_refl.
  rewrite length_app, map_app, list_sum_app. cbn [List.length map list_sum].
  rewrite (team_no_children b _ (generate_ref_id c)).
  2:{ rewrite children_registered.
      destruct (String.eqb_spec referral (generate_ref_id c)) as [E|_].
      - exfalso. apply (fresh_not_key _ _ _ Hinv). now rewrite <- E.
      - now rewrite String.eqb_refl. }
  assert (Hmap : map (team b (registered rs referral (generate_ref_id c)))
                   (children rs referral)
                 = map (team b rs) (children rs referral)).
  { apply map_ext_in. intros y Hy. apply team_away_from_referral.
    - intros ->. apply Hcyc. now apply desc_child.
    - intros z Hz ->. apply Hcyc. eapply desc_step; eauto. }
  rewrite Hmap. cbn [list_sum fold_right]. simpl (list_sum [0]). lia.
Qed.
End TeamGrows.

Lemma register_user_referrals name_ username password_ referral_id
    explicit_role today d reg :
  directory_inv d ->
  register_user name_ username password_ referral_id explicit_role today d
    = Done reg ->
  In referral_id (Dict.keys (referrals d))
  /\ referrals (reg_data reg)
     = registered (referrals d) referral_id (generate_ref_id (count d)).
Proof.
  intros Hinv Hreg. unfold directory_inv in *.
  pose proof (register_user_done _ _ _ _ _ _ _ _ Hreg)
    as (_ & _ & _ & _ & kids & Hkids & Hrefs).
  pose proof (register_user_checks _ _ _ _ _ _ _ _ Hreg) as [Hkey _].
  assert (Hkey' : In referral_id (Dict.keys (referrals d))).
  { destruct Hkey as [Hkey| ->]; auto.
    apply (inv_ref_id_is_key _ _ _ Hinv _ (inv_admin _ _ _ Hinv)). }
  split; [exact Hkey'|].
  pose proof (fresh_not_key _ _ _ Hinv) as Hfresh.
  assert (Hne : generate_ref_id (count d) <> referral_id).
  { intros E. apply Hfresh. now rewrite E. }
  assert (Hsd : Dict.setdefault (generate_ref_id (count d)) [] (referrals d)
                = Dict.set (generate_ref_id (count d)) [] (referrals d)).
  { unfold Dict.setdefault.
    destruct (Dict.mem (generate_ref_id (count d)) (referrals d)) eqn:E; auto.
    apply DictFacts.mem_keys in E. contradiction. }
  rewrite Hsd in Hkids, Hrefs.
  rewrite DictFacts.get_set_other in Hkids by assumption.
  rewrite Hrefs. unfold registered, children. now rewrite Hkids.
Qed.

(** X19: a registration shows on the referrer's Dashboard.  On a directory
    that satisfies the invariants, after a registration under [referral_id]
    the Direct Referrals figure of the owner of [referral_id] and the Total
    Team figure ([count_team] from any level up to 8) are each one more than
    before, and the new user starts with a team of 0. *)
Theorem registration_grows_referrer_team :
  forall name_ username password_ referral_id explicit_role today d reg level,
    directory_inv d ->
    register_user name_ username password_ referral_id explicit_role today d
      = Done reg ->
    level <= 8 ->
    List.length (children (referrals (reg_data reg)) referral_id)
    = List.length (children (referrals d) referral_id) + 1
    /\ count_team referral_id (reg_data reg) level
       = count_team referral_id d level + 1
    /\ count_team (reg_ref_id reg) (reg_data reg) level = 0.
Proof.
  intros * Hinv Hreg Hlevel.
  destruct (register_user_referrals _ _ _ _ _ _ _ _ Hinv Hreg) as [Hkey Hrefs].
  pose proof (register_user_done _ _ _ _ _ _ _ _ Hreg) as (_ & Hid & _).
  unfold count_team. rewrite Hrefs, Hid.
  assert (Hne : referral_id <> generate_ref_id (count d)).
  { intros E. apply (fresh_not_key _ _ _ Hinv). now rewrite <- E. }
  split; [|split].
  - rewrite children_registered, String.eqb_refl, length_app. reflexivity.
  - destruct (9 - level) as [|b] eqn:E; [lia|].
    apply (team_of_referral _ _ _ _ Hinv Hkey).
  - apply team_no_children. rewrite children_registered.
    apply String.eqb_neq in Hne. now rewrite Hne, String.eqb_refl.
Qed.

Lemma registration_grows_referrer_team_witness :
  exists reg,
    register_user "Binod" "binod" "pw" "PRG1002" None "2025-01-04" sample_data
      = Done reg
    /\ count_team "PRG1002" sample_data 1 = 1
    /\ count_team "PRG1002" (reg_data reg) 1
       = count_team "PRG1002" sample_data 1 + 1.
Proof.
  eexists. split; [reflexivity|]. split; [reflexivity|].
  apply (registration_grows_referrer_team "Binod" "binod" "pw" "PRG1002" None
           "2025-01-04" sample_data _ 1 sample_data_inv eq_refl).
  lia.
Defined.

(** * The migration of old proof records *)

Lemma mem_set_same {V : Type} k (x : V) (d : Dict.t V) :
  Dict.mem k (Dict.set k x d) = true.
Proof. unfold Dict.mem. now rewrite DictFacts.get_set_same. Qed.

Lemma mem_set_other {V : Type} k k' (x : V) (d : Dict.t V) :
  k' <> k -> Dict.mem k (Dict.set k' x d) = Dict.mem k d.
Proof. intros H. unfold Dict.mem. now rewrite DictFacts.get_set_other. Qed.

Lemma get_del_other {V : Type} k x (d : Dict.t V) :
  k <> x -> Dict.get x (Dict.del k d) = Dict.get x d.
Proof.
  intros Hne. induction d as [|[k0 v0] d IH]; simpl; auto.
  destruct (String.eqb_spec k0 k) as [->|Hk].
  - destruct (String.eqb_spec k x); congruence.
  - simpl. now rewrite IH.
Qed.

Lemma mem_del_other {V : Type} k k' (d : Dict.t V) :
  k' <> k -> Dict.mem k (Dict.del k' d) = Dict.mem k d.
Proof. intros H. unfold Dict.mem. now rewrite get_del_other. Qed.

Lemma mem_del_same {V : Type} k (d : Dict.t V) :
  NoDup (Dict.keys d) -> Dict.mem k (Dict.del k d) = false.
Proof.
  intros H. unfold Dict.mem. rewrite get_del by assumption.
  now rewrite String.eqb_refl.
Qed.

Lemma NoDup_keys_set {V : Type} k (x : V) (d : Dict.t V) :
  NoDup (Dict.keys d) -> NoDup (Dict.keys (Dict.set k x d)).
Proof.
  intros H. destruct (in_dec string_dec k (Dict.keys d)) as [Hin|Hout].
  - now rewrite DictFacts.keys_set_present.
  - rewrite keys_set_absent by assumption. now apply NoDup_snoc.
Qed.

Lemma NoDup_keys_del {V : Type} k (d : Dict.t V) :
  NoDup (Dict.keys d) -> NoDup (Dict.keys (Dict.del k d)).
Proof.
  intros H. rewrite del_filter by assumption.
  rewrite (keys_filter (fun key => negb (key =? k))). now apply NoDup_filter.
Qed.

Lemma rename_key_spec old new (v v' : Raw) n n' :
  NoDup (Dict.keys v) -> old <> new ->
  rename_key old new (v, n) = (v', n') ->
  NoDup (Dict.keys v')
  /\ Dict.mem old v' && negb (Dict.mem new v') = false
  /\ (forall k, k <> old -> k <> new -> Dict.get k v' = Dict.get k v)
  /\ (Dict.mem new v = true -> v' = v /\ n' = n)
  /\ (Dict.mem new v = false ->
      Dict.mem old v = true ->
      Dict.get new v' = Dict.get old v /\ Dict.mem old v' = false
      /\ n' = true)
  /\ (Dict.mem old v = false -> v' = v /\ n' = n).
Proof.
  intros Hnd Hne. unfold rename_key.
  destruct (Dict.mem old v) eqn:Ho; destruct (Dict.mem new v) eqn:Hn; simpl;
    intros H; inversion H; subst; clear H;
    try (repeat split; auto; try discriminate;
         now rewrite ?Ho, ?Hn).
  assert (Hnd' : NoDup (Dict.keys (Dict.set new (py_get old v JNull) v)))
    by now apply NoDup_keys_set.
  split; [now apply NoDup_keys_del|].
  split; [now rewrite mem_del_same|].
  split.
  { intros k H1 H2. rewrite get_del_other, DictFacts.get_set_other; auto. }
  split; [discriminate|]. split; [|discriminate].
  intros _ _. split; [|split; [now apply mem_del_same|reflexivity]].
  rewrite get_del_other, DictFacts.get_set_same by assumption.
  unfold py_get, Dict.mem in *.
  destruct (Dict.get old v); [reflexivity|discriminate].
Qed.

Lemma mem_get_eq {V : Type} k (a b : Dict.t V) :
  Dict.get k a = Dict.get k b -> Dict.mem k a = Dict.mem k b.
Proof. unfold Dict.mem. now intros ->. Qed.

Lemma rename_key_other old new (v v' : Raw) n n' :
  rename_key old new (v, n) = (v', n') ->
  (forall k, k <> old -> k <> new -> Dict.get k v' = Dict.get k v)
  /\ n' = (Dict.mem old v && negb (Dict.mem new v)) || n
  /\ (Dict.mem old v && negb (Dict.mem new v) = false -> v' = v).
Proof.
  unfold rename_key.
  destruct (Dict.mem old v && negb (Dict.mem new v)) eqn:Hc;
    intros H; inversion H; subst; clear H.
  - split; [|split; [reflexivity|discriminate]].
    intros k H1 H2. rewrite get_del_other, DictFacts.get_set_other; auto.
  - repeat split; auto.
Qed.

Lemma migrate_entry_inv fuel d v v' n :
  migrate_entry fuel d v = Migrated v' n ->
  exists v1 v2 v3 v4 v5 n1 n2 n3 n4 n5,
    coadmin_stage v v1 n1
    /\ admin_stage v1 n1 v2 n2
    /\ rename_key "member" "member_username" (v2, n2) = (v3, n3)
    /\ rename_key "task" "task_title" (v3, n3) = (v4, n4)
    /\ rename_key "amount" "task_payout" (v4, n4) = (v5, n5)
    /\ proof_file_stage v5 n5 v' n.
Proof.
  unfold migrate_entry. intros H.
  match type of H with
  | match ?ac with _ => _ end = _ => destruct ac as [[v1 n1]|] eqn:Hac
  end; [|discriminate].
  assert (H1 : coadmin_stage v v1 n1).
  { unfold coadmin_stage. clear H.
    destruct (Dict.mem "coadmin_username" v) eqn:Hcu; simpl in Hac.
    - inversion Hac. auto.
    - match type of Hac with
      | option_map _ ?a = _ => destruct a as [v0|] eqn:Ha
      end; [|discriminate].
      simpl in Hac. inversion Hac; subst; clear Hac. split; [reflexivity|].
      assert (Hv0 : exists c, v0 = Dict.set "coadmin_username" (JStr c) v).
      { destruct (py_get "member" v (py_get "member_username" v JNull));
          try (inversion Ha; eauto; fail).
        match type of Ha with
        | (if ?b then _ else _) = _ => destruct b
        end; [|inversion Ha; eauto].
        destruct (find_coadmin_for_member fuel s d); [|discriminate].
        inversion Ha; eauto. }
      destruct Hv0 as [c ->]. exists c.
      assert (Hs : py_get "status" (Dict.set "coadmin_username" (JStr c) v)
                     JNull = py_get "status" v JNull).
      { unfold py_get. rewrite DictFacts.get_set_other by discriminate.
        reflexivity. }
      now rewrite Hs. }
  match type of H with
  | (let (_, _) := ?a in _) = _ => destruct a as [v2 n2] eqn:H2
  end.
  match type of H with
  | (let (_, _) := ?a in _) = _ => destruct a as [v5 n5] eqn:H5
  end.
  destruct (rename_key "member" "member_username" (v2, n2)) as [v3 n3] eqn:H3.
  destruct (rename_key "task" "task_title" (v3, n3)) as [v4 n4] eqn:H4.
  exists v1, v2, v3, v4, v5, n1, n2, n3, n4, n5.
  split; [exact H1|]. split.
  { unfold admin_stage.
    destruct (Dict.mem "approved_by_admin" v1); simpl in H2;
      inversion H2; auto. }
  repeat (split; [assumption|]).
  unfold proof_file_stage.
  destruct (Dict.mem "proof_file" v5); simpl in H.
  - inversion H; auto.
  - destruct (py_get "task_title" v5 (py_get "task" v5 (JStr "UNKNOWN_TASK")));
      try discriminate.
    inversion H. split; eauto.
Qed.

Lemma coadmin_stage_spec v v1 n1 :
  coadmin_stage v v1 n1 ->
  (forall k, k <> "coadmin_username" -> k <> "status" ->
             Dict.get k v1 = Dict.get k v)
  /\ Dict.mem "coadmin_username" v1 = true
  /\ n1 = negb (Dict.mem "coadmin_username" v)
  /\ (Dict.mem "coadmin_username" v = true -> v1 = v)
  /\ (NoDup (Dict.keys v) -> NoDup (Dict.keys v1)).
Proof.
  unfold coadmin_stage. destruct (Dict.mem "coadmin_username" v) eqn:Hcu.
  - intros [-> ->]. repeat split; auto.
  - intros [-> [c ->]].
    destruct (json_is_str (py_get "status" v JNull) "Approved").
    + split; [|split; [|split; [reflexivity|split; [discriminate|]]]].
      * intros k H1 H2. now rewrite !DictFacts.get_set_other by congruence.
      * rewrite mem_set_other by discriminate. apply mem_set_same.
      * intros H. now apply NoDup_keys_set, NoDup_keys_set.
    + split; [|split; [|split; [reflexivity|split; [discriminate|]]]].
      * intros k H1 H2. now rewrite !DictFacts.get_set_other by congruence.
      * apply mem_set_same.
      * intros H. now apply NoDup_keys_set.
Qed.

Lemma admin_stage_spec v1 n1 v2 n2 :
  admin_stage v1 n1 v2 n2 ->
  (forall k, k <> "approved_by_admin" -> Dict.get k v2 = Dict.get k v1)
  /\ Dict.mem "approved_by_admin" v2 = true
  /\ n2 = negb (Dict.mem "approved_by_admin" v1) || n1
  /\ (Dict.mem "approved_by_admin" v1 = true -> v2 = v1)
  /\ (NoDup (Dict.keys v1) -> NoDup (Dict.keys v2)).
Proof.
  unfold admin_stage. destruct (Dict.mem "approved_by_admin" v1) eqn:Hm.
  - intros [-> ->]. repeat split; auto.
  - intros [-> ->].
    split; [|split; [|split; [reflexivity|split; [discriminate|]]]].
    + intros k H1. now rewrite DictFacts.get_set_other by congruence.
    + apply mem_set_same.
    + intros H. now apply NoDup_keys_set.
Qed.

Lemma proof_file_stage_spec v5 n5 v' n :
  proof_file_stage v5 n5 v' n ->
  (forall k, k <> "proof_file" -> Dict.get k v' = Dict.get k v5)
  /\ Dict.mem "proof_file" v' = true
  /\ n = negb (Dict.mem "proof_file" v5) || n5
  /\ (Dict.mem "proof_file" v5 = true -> v' = v5)
  /\ (NoDup (Dict.keys v5) -> NoDup (Dict.keys v')).
Proof.
  unfold proof_file_stage. destruct (Dict.mem "proof_file" v5) eqn:Hm.
  - intros [-> ->]. repeat split; auto.
  - intros [-> [p ->]].
    split; [|split; [|split; [reflexivity|split; [discriminate|]]]].
    + intros k H1. now rewrite DictFacts.get_set_other by congruence.
    + apply mem_set_same.
    + intros H. now apply NoDup_keys_set.
Qed.

(** The flag of one pass: set exactly when the record was not settled, and
    a settled record comes back as it was. *)
Lemma migrate_entry_flag fuel d v v' n :
  migrate_entry fuel d v = Migrated v' n ->
  n = negb (settled v) /\ (settled v = true -> v' = v).
Proof.
  intros H. apply migrate_entry_inv in H.
  destruct H as (v1 & v2 & v3 & v4 & v5 & n1 & n2 & n3 & n4 & n5
                 & S1 & S2 & S3 & S4 & S5 & S6).
  apply coadmin_stage_spec in S1. destruct S1 as (G1 & _ & N1 & I1 & _).
  apply admin_stage_spec in S2. destruct S2 as (G2 & _ & N2 & I2 & _).
  apply rename_key_other in S3. destruct S3 as (G3 & N3 & I3).
  apply rename_key_other in S4. destruct S4 as (G4 & N4 & I4).
  apply rename_key_other in S5. destruct S5 as (G5 & N5 & I5).
  apply proof_file_stage_spec in S6. destruct S6 as (G6 & _ & N6 & I6 & _).
  assert (E2 : Dict.mem "approved_by_admin" v1
               = Dict.mem "approved_by_admin" v).
  { apply mem_get_eq, G1; discriminate. }
  assert (E3 : forall k, k <> "coadmin_username" -> k <> "status" ->
                         k <> "approved_by_admin" ->
                         Dict.mem k v2 = Dict.mem k v).
  { intros k K1 K2 K3. apply mem_get_eq. rewrite G2, G1; auto. }
  assert (E4 : forall k, k <> "coadmin_username" -> k <> "status" ->
                         k <> "approved_by_admin" ->
                         k <> "member" -> k <> "member_username" ->
                         Dict.mem k v3 = Dict.mem k v).
  { intros k K1 K2 K3 K4 K5. rewrite <- E3 by assumption.
    apply mem_get_eq, G3; assumption. }
  assert (E5 : forall k, k <> "coadmin_username" -> k <> "status" ->
                         k <> "approved_by_admin" ->
                         k <> "member" -> k <> "member_username" ->
                         k <> "task" -> k <> "task_title" ->
                         Dict.mem k v4 = Dict.mem k v).
  { intros k K1 K2 K3 K4 K5 K6 K7. rewrite <- E4 by assumption.
    apply mem_get_eq, G4; assumption. }
  assert (E6 : Dict.mem "proof_file" v5 = Dict.mem "proof_file" v).
  { rewrite <- (E5 "proof_file") by discriminate.
    apply mem_get_eq, G5; discriminate. }
  rewrite E2 in *. rewrite E6 in *.
  rewrite (E3 "member"), (E3 "member_username") in * by discriminate.
  rewrite (E4 "task"), (E4 "task_title") in * by discriminate.
  rewrite (E5 "amount"), (E5 "task_payout") in * by discriminate.
  unfold settled.
  destruct (Dict.mem "coadmin_username" v);
    destruct (Dict.mem "approved_by_admin" v);
    destruct (Dict.mem "member" v && negb (Dict.mem "member_username" v));
    destruct (Dict.mem "task" v && negb (Dict.mem "task_title" v));
    destruct (Dict.mem "amount" v && negb (Dict.mem "task_payout" v));
    destruct (Dict.mem "proof_file" v);
    subst; simpl; split; try reflexivity; try discriminate.
  intros _.
  rewrite (I6 eq_refl), (I5 eq_refl), (I4 eq_refl), (I3 eq_refl),
    (I2 eq_refl), (I1 eq_refl).
  reflexivity.
Qed.

(** After one pass over a record with no key twice, the record is
    settled. *)
Lemma migrate_entry_settles fuel d v v' n :
  NoDup (Dict.keys v) ->
  migrate_entry fuel d v = Migrated v' n ->
  settled v' = true /\ NoDup (Dict.keys v').
Proof.
  intros Hnd H. apply migrate_entry_inv in H.
  destruct H as (v1 & v2 & v3 & v4 & v5 & n1 & n2 & n3 & n4 & n5
                 & S1 & S2 & S3 & S4 & S5 & S6).
  apply coadmin_stage_spec in S1. destruct S1 as (G1 & M1 & _ & _ & D1).
  apply admin_stage_spec in S2. destruct S2 as (G2 & M2 & _ & _ & D2).
  pose proof (D2 (D1 Hnd)) as Hnd2.
  pose proof (rename_key_spec "member" "member_username" _ _ _ _ Hnd2
                ltac:(discriminate) S3)
    as (Hnd3 & C3 & G3 & _).
  pose proof (rename_key_spec "task" "task_title" _ _ _ _ Hnd3
                ltac:(discriminate) S4)
    as (Hnd4 & C4 & G4 & _).
  pose proof (rename_key_spec "amount" "task_payout" _ _ _ _ Hnd4
                ltac:(discriminate) S5)
    as (Hnd5 & C5 & G5 & _).
  apply proof_file_stage_spec in S6. destruct S6 as (G6 & M6 & _ & _ & D6).
  split; [|auto].
  assert (T : forall k, k <> "proof_file" -> Dict.mem k v' = Dict.mem k v5).
  { intros k K. apply mem_get_eq, G6, K. }
  assert (T5 : forall k, k <> "amount" -> k <> "task_payout" ->
                         Dict.mem k v5 = Dict.mem k v4).
  { intros k K1 K2. apply mem_get_eq, G5; assumption. }
  assert (T4 : forall k, k <> "task" -> k <> "task_title" ->
                         Dict.mem k v4 = Dict.mem k v3).
  { intros k K1 K2. apply mem_get_eq, G4; assumption. }
  assert (T3 : forall k, k <> "member" -> k <> "member_username" ->
                         Dict.mem k v3 = Dict.mem k v2).
  { intros k K1 K2. apply mem_get_eq, G3; assumption. }
  assert (T2 : forall k, k <> "approved_by_admin" ->
                         Dict.mem k v2 = Dict.mem k v1).
  { intros k K. apply mem_get_eq, G2, K. }
  unfold settled.
  rewrite M6.
  rewrite (T "coadmin_username"), (T5 "coadmin_username"),
    (T4 "coadmin_username"), (T3 "coadmin_username"),
    (T2 "coadmin_username"), M1 by discriminate.
  rewrite (T "approved_by_admin"), (T5 "approved_by_admin"),
    (T4 "approved_by_admin"), (T3 "approved_by_admin"), M2 by discriminate.
  rewrite (T "member"), (T5 "member"), (T4 "member") by discriminate.
  rewrite (T "member_username"), (T5 "member_username"),
    (T4 "member_username") by discriminate.
  rewrite C3.
  rewrite (T "task"), (T5 "task") by discriminate.
  rewrite (T "task_title"), (T5 "task_title") by discriminate.
  rewrite C4.
  rewrite (T "amount"), (T "task_payout") by discriminate.
  rewrite C5. reflexivity.
Qed.

Lemma migrate_entry_settled fuel d v :
  settled v = true -> migrate_entry fuel d v = Migrated v false.
Proof.
  unfold settled. intros H.
  repeat (apply andb_true_iff in H; destruct H as [H ?]).
  apply negb_true_iff in H1, H2, H3.
  unfold migrate_entry, rename_key.
  rewrite H. cbn [negb]. rewrite H4. cbn [negb].
  rewrite H3, H2, H1, H0. reflexivity.
Qed.

Lemma coadmin_stage_status v v1 n1 :
  coadmin_stage v v1 n1 ->
  Dict.get "status" v1
  = if negb (Dict.mem "coadmin_username" v)
       && json_is_str (py_get "status" v JNull) "Approved"
    then Some (JStr "Approved By Coadmin")
    else Dict.get "status" v.
Proof.
  unfold coadmin_stage. destruct (Dict.mem "coadmin_username" v).
  - now intros [-> _].
  - intros [_ [c ->]]. simpl negb. cbn [andb].
    destruct (json_is_str (py_get "status" v JNull) "Approved").
    + apply DictFacts.get_set_same.
    + now rewrite DictFacts.get_set_other by discriminate.
Qed.

(** X20: the migration loop sets [migration_needed], and so rewrites the
    proof-status file and reruns the script, exactly when some record is not
    settled (lacks one of the three added fields or still has a legacy key to
    rename); when it does not, the document is left exactly as loaded. *)
Theorem migration_needed_iff_unsettled fuel d ps ps' n :
  migrate_all fuel d ps = Some (Done (ps', n)) ->
  n = negb (forallb settled (map snd ps)) /\ (n = false -> ps' = ps).
Proof.
  revert ps' n. induction ps as [|[key v] ps IH]; intros ps' n H.
  - simpl in H. inversion H. auto.
  - simpl in H. destruct (migrate_entry fuel d v) as [| |v' nv] eqn:Hv;
      try discriminate.
    destruct (migrate_all fuel d ps) as [[[rest nr]| |]|] eqn:Hr;
      try discriminate.
    inversion H; subst; clear H.
    destruct (IH _ _ eq_refl) as [-> Hsame].
    destruct (migrate_entry_flag _ _ _ _ _ Hv) as [-> Hv'].
    cbn [map snd forallb]. split.
    + now rewrite negb_andb.
    + intros Hn. apply orb_false_iff in Hn. destruct Hn as [Hn1 Hn2].
      apply negb_false_iff in Hn1. rewrite (Hv' Hn1), (Hsame Hn2).
      reflexivity.
Qed.

Lemma migration_needed_iff_unsettled_witness :
  exists ps',
    migrate_all 5 sample_data legacy_document = Some (Done (ps', true))
    /\ true = negb (forallb settled (map snd legacy_document)).
Proof.
  eexists. split; [vm_compute; reflexivity|].
  eapply (migration_needed_iff_unsettled 5 sample_data legacy_document).
  vm_compute. reflexivity.
Defined.

(** X21: the migration converges in one pass.  When the loop has gone over
    a document whose records have no key twice, a second pass (the rerun the
    script asks for after saving) changes nothing and leaves
    [migration_needed] unset, whatever the directory then holds. *)
Theorem migration_runs_once fuel d ps ps' n :
  json_objects ps ->
  migrate_all fuel d ps = Some (Done (ps', n)) ->
  forall fuel' d', migrate_all fuel' d' ps' = Some (Done (ps', false)).
Proof.
  intros Hobj. revert ps' n.
  induction Hobj as [|[key v] ps Hv Hps IH]; intros ps' n H fuel' d'.
  - simpl in H. inversion H. reflexivity.
  - simpl in H. destruct (migrate_entry fuel d v) as [| |v' nv] eqn:Ev;
      try discriminate.
    destruct (migrate_all fuel d ps) as [[[rest nr]| |]|] eqn:Hr;
      try discriminate.
    inversion H; subst; clear H.
    destruct (migrate_entry_settles _ _ _ _ _ Hv Ev) as [Hs _].
    simpl. rewrite (migrate_entry_settled fuel' d' _ Hs).
    now rewrite (IH _ _ eq_refl fuel' d').
Qed.

Lemma migration_runs_once_witness :
  exists ps',
    migrate_all 5 sample_data legacy_document = Some (Done (ps', true))
    /\ migrate_all 0 cyclic_data ps' = Some (Done (ps', false)).
Proof.
  eexists. split; [vm_compute; reflexivity|].
  eapply (migration_runs_once 5 sample_data legacy_document).
  - repeat constructor; simpl; intuition discriminate.
  - vm_compute. reflexivity.
Defined.

(** X22: a pass of the migration carries the legacy fields over.  For each
    of member -> member_username, task -> task_title and amount ->
    task_payout: when the record has the old key and not the new one, the
    migrated record holds the old value under the new key and the old key is
    gone. *)
Theorem migration_carries_legacy_fields fuel d v v' n old new :
  NoDup (Dict.keys v) ->
  migrate_entry fuel d v = Migrated v' n ->
  In (old, new) legacy_keys ->
  Dict.mem old v = true -> Dict.mem new v = false ->
  Dict.get new v' = Dict.get old v /\ Dict.mem old v' = false.
Proof.
  intros Hnd H Hin Ho Hn. apply migrate_entry_inv in H.
  destruct H as (v1 & v2 & v3 & v4 & v5 & n1 & n2 & n3 & n4 & n5
                 & S1 & S2 & S3 & S4 & S5 & S6).
  apply coadmin_stage_spec in S1. destruct S1 as (G1 & _ & _ & _ & D1).
  apply admin_stage_spec in S2. destruct S2 as (G2 & _ & _ & _ & D2).
  pose proof (D2 (D1 Hnd)) as Hnd2.
  pose proof (rename_key_spec "member" "member_username" _ _ _ _ Hnd2
                ltac:(discriminate) S3)
    as (Hnd3 & _ & G3 & _ & R3 & _).
  pose proof (rename_key_spec "task" "task_title" _ _ _ _ Hnd3
                ltac:(discriminate) S4)
    as (Hnd4 & _ & G4 & _ & R4 & _).
  pose proof (rename_key_spec "amount" "task_payout" _ _ _ _ Hnd4
                ltac:(discriminate) S5)
    as (Hnd5 & _ & G5 & _ & R5 & _).
  apply proof_file_stage_spec in S6. destruct S6 as (G6 & _).
  assert (T2 : forall k, k <> "coadmin_username" -> k <> "status" ->
                         k <> "approved_by_admin" ->
                         Dict.get k v2 = Dict.get k v).
  { intros k K1 K2 K3. rewrite G2, G1; auto. }
  simpl in Hin. destruct Hin as [E|[E|[E|[]]]]; inversion E; subst; clear E.
  - destruct R3 as (Hg & Hm & _);
      [rewrite (mem_get_eq _ _ v); [exact Hn|apply T2; discriminate]
      |rewrite (mem_get_eq _ _ v); [exact Ho|apply T2; discriminate]|].
    split.
    + rewrite G6, G5, G4, Hg by discriminate. apply T2; discriminate.
    + rewrite (mem_get_eq _ _ v3); [exact Hm|].
      rewrite G6, G5, G4 by discriminate. reflexivity.
  - destruct R4 as (Hg & Hm & _);
      [rewrite (mem_get_eq _ _ v);
       [exact Hn|rewrite G3 by discriminate; apply T2; discriminate]
      |rewrite (mem_get_eq _ _ v);
       [exact Ho|rewrite G3 by discriminate; apply T2; discriminate]|].
    split.
    + rewrite G6, G5, Hg, G3 by discriminate. apply T2; discriminate.
    + rewrite (mem_get_eq _ _ v4); [exact Hm|].
      rewrite G6, G5 by discriminate. reflexivity.
  - destruct R5 as (Hg & Hm & _);
      [rewrite (mem_get_eq _ _ v);
       [exact Hn|rewrite G4, G3 by discriminate; apply T2; discriminate]
      |rewrite (mem_get_eq _ _ v);
       [exact Ho|rewrite G4, G3 by discriminate; apply T2; discriminate]|].
    split.
    + rewrite G6, Hg, G4, G3 by discriminate. apply T2; discriminate.
    + rewrite (mem_get_eq _ _ v5); [exact Hm|].
      rewrite G6 by discriminate. reflexivity.
Qed.

Lemma migration_carries_legacy_fields_witness :
  exists v' n,
    migrate_entry 5 sample_data legacy_record = Migrated v' n
    /\ Dict.get "task_payout" v' = Some (JInt 50)
    /\ Dict.mem "amount" v' = false.
Proof.
  eexists. eexists. split; [vm_compute; reflexivity|].
  apply (migration_carries_legacy_fields 5 sample_data legacy_record _ true
           "amount" "task_payout").
  - repeat constructor; simpl; intuition discriminate.
  - vm_compute. reflexivity.
  - vm_compute. tauto.
  - reflexivity.
  - reflexivity.
Defined.

(** X23: a pass of the migration touches nothing else.  Every field outside
    the ten keys the loop names keeps its value, and the status is rewritten
    only from "Approved" to "Approved By Coadmin" and only in a record that
    had no coadmin_username; any other status, and the status of a record
    that already names its coadmin, stays. *)
Theorem migration_keeps_other_fields fuel d v v' n :
  migrate_entry fuel d v = Migrated v' n ->
  (forall k, ~ In k migration_keys -> Dict.get k v' = Dict.get k v)
  /\ Dict.get "status" v'
     = if negb (Dict.mem "coadmin_username" v)
          && json_is_str (py_get "status" v JNull) "Approved"
       then Some (JStr "Approved By Coadmin")
       else Dict.get "status" v.
Proof.
  intros H. apply migrate_entry_inv in H.
  destruct H as (v1 & v2 & v3 & v4 & v5 & n1 & n2 & n3 & n4 & n5
                 & S1 & S2 & S3 & S4 & S5 & S6).
  pose proof (coadmin_stage_status _ _ _ S1) as St.
  apply coadmin_stage_spec in S1. destruct S1 as (G1 & _).
  apply admin_stage_spec in S2. destruct S2 as (G2 & _).
  apply rename_key_other in S3. destruct S3 as (G3 & _).
  apply rename_key_other in S4. destruct S4 as (G4 & _).
  apply rename_key_other in S5. destruct S5 as (G5 & _).
  apply proof_file_stage_spec in S6. destruct S6 as (G6 & _).
  split.
  - intros k Hk. unfold migration_keys in Hk. simpl in Hk.
    rewrite G6, G5, G4, G3, G2, G1; auto;
      intros ->; apply Hk; tauto.
  - rewrite G6, G5, G4, G3, G2 by discriminate. exact St.
Qed.

Lemma migration_keeps_other_fields_witness :
  exists v' n,
    migrate_entry 5 sample_data legacy_record = Migrated v' n
    /\ (forall k, ~ In k migration_keys ->
                  Dict.get k v' = Dict.get k legacy_record)
    /\ Dict.get "status" v' = Some (JStr "Approved By Coadmin").
Proof.
  eexists. eexists. split; [vm_compute; reflexivity|].
  apply (migration_keeps_other_fields 5 sample_data legacy_record _ true).
  vm_compute. reflexivity.
Defined.

Lemma rename_key_fires old new (v v' : Raw) n n' :
  old <> new ->
  rename_key old new (v, n) = (v', n') ->
  Dict.mem old v = true -> Dict.mem new v = false ->
  Dict.get new v' = Dict.get old v.
Proof.
  intros Hne. unfold rename_key. intros H Ho Hn. rewrite Ho, Hn in H.
  simpl in H. inversion H; subst; clear H.
  rewrite get_del_other, DictFacts.get_set_same by assumption.
  unfold py_get, Dict.mem in *.
  destruct (Dict.get old v); [reflexivity|discriminate].
Qed.

Lemma migrate_entry_cases fuel d v :
  (migrate_entry fuel d v = StillMigrating
   /\ Dict.mem "coadmin_username" v = false
   /\ exists m,
       py_get "member" v (py_get "member_username" v JNull) = JStr m
       /\ find_coadmin_for_member fuel m d = None)
  \/ exists v1 v2 v3 v4 v5 n1 n2 n3 n4 n5,
      coadmin_stage v v1 n1
      /\ admin_stage v1 n1 v2 n2
      /\ rename_key "member" "member_username" (v2, n2) = (v3, n3)
      /\ rename_key "task" "task_title" (v3, n3) = (v4, n4)
      /\ rename_key "amount" "task_payout" (v4, n4) = (v5, n5)
      /\ match migrate_entry fuel d v with
         | StillMigrating => False
         | MigrationRaised e =>
             e = "AttributeError" /\ Dict.mem "proof_file" v5 = false
             /\ is_JStr (legacy_title v5) = false
         | Migrated _ _ =>
             Dict.mem "proof_file" v5 = true
             \/ is_JStr (legacy_title v5) = true
         end.
Proof.
  unfold migrate_entry.
  match goal with
  | |- (match ?ac with _ => _ end = _ /\ _) \/ _ =>
      destruct ac as [[v1 n1]|] eqn:Hac
  end; [right|left].
  2:{ split; [reflexivity|].
      destruct (Dict.mem "coadmin_username" v); [discriminate|].
      split; [reflexivity|]. simpl in Hac.
      destruct (py_get "member" v (py_get "member_username" v JNull));
        try discriminate.
      exists s. split; [reflexivity|].
      match type of Hac with
      | context [if ?b then _ else _] => destruct b
      end; [|discriminate].
      destruct (find_coadmin_for_member fuel s d); [discriminate|].
      reflexivity. }
  assert (H1 : coadmin_stage v v1 n1).
  { unfold coadmin_stage.
    destruct (Dict.mem "coadmin_username" v) eqn:Hcu; simpl in Hac.
    - inversion Hac. auto.
    - match type of Hac with
      | option_map _ ?a = _ => destruct a as [v0|] eqn:Ha
      end; [|discriminate].
      simpl in Hac. inversion Hac; subst; clear Hac. split; [reflexivity|].
      assert (Hv0 : exists c, v0 = Dict.set "coadmin_username" (JStr c) v).
      { destruct (py_get "member" v (py_get "member_username" v JNull));
          try (inversion Ha; eauto; fail).
        match type of Ha with
        | (if ?b then _ else _) = _ => destruct b
        end; [|inversion Ha; eauto].
        destruct (find_coadmin_for_member fuel s d); [|discriminate].
        inversion Ha; eauto. }
      destruct Hv0 as [c ->]. exists c.
      assert (Hs : py_get "status" (Dict.set "coadmin_username" (JStr c) v)
                     JNull = py_get "status" v JNull).
      { unfold py_get. rewrite DictFacts.get_set_other by discriminate.
        reflexivity. }
      now rewrite Hs. }
  clear Hac.
  match goal with
  | |- context [let (_, _) := ?a in _] => destruct a as [v2 n2] eqn:H2
  end.
  destruct (rename_key "member" "member_username" (v2, n2)) as [v3 n3] eqn:H3.
  destruct (rename_key "task" "task_title" (v3, n3)) as [v4 n4] eqn:H4.
  destruct (rename_key "amount" "task_payout" (v4, n4)) as [v5 n5] eqn:H5.
  exists v1, v2, v3, v4, v5, n1, n2, n3, n4, n5.
  split; [exact H1|]. split.
  { unfold admin_stage.
    destruct (Dict.mem "approved_by_admin" v1); simpl in H2;
      inversion H2; auto. }
  repeat (split; [assumption|]).
  fold (legacy_title v5).
  destruct (Dict.mem "proof_file" v5); cbn [negb]; [now left|].
  destruct (legacy_title v5); cbn [is_JStr]; auto.
Qed.

Lemma legacy_title_renamed v3 n3 v4 n4 :
  rename_key "task" "task_title" (v3, n3) = (v4, n4) ->
  legacy_title v4 = legacy_title v3.
Proof.
  intros H. pose proof (rename_key_other _ _ _ _ _ _ H) as (G & _ & I).
  unfold legacy_title, py_get.
  destruct (Dict.mem "task_title" v3) eqn:Hn.
  - rewrite I by now rewrite andb_false_r. reflexivity.
  - destruct (Dict.mem "task" v3) eqn:Ho.
    + rewrite (rename_key_fires "task" "task_title" _ _ _ _
                 ltac:(discriminate) H Ho Hn).
      unfold Dict.mem in Hn, Ho.
      destruct (Dict.get "task_title" v3); [discriminate|].
      destruct (Dict.get "task" v3); [reflexivity|discriminate].
    + rewrite I by reflexivity. reflexivity.
Qed.

(** X24: when the migration crashes.  A pass over a record is still
    running only while the walk to the coadmin of the record's member is (the
    record has no coadmin_username and names a member as a string).  Once
    that walk has returned, the pass raises (AttributeError, from [.replace]
    on a title that is no string) exactly when the record has no proof_file
    and its title -- task_title, else task, else the default -- is not a
    string; in every other case the record is migrated. *)
Theorem migration_raises_iff_untitled fuel d v :
  match migrate_entry fuel d v with
  | StillMigrating =>
      Dict.mem "coadmin_username" v = false
      /\ exists m,
          py_get "member" v (py_get "member_username" v JNull) = JStr m
          /\ find_coadmin_for_member fuel m d = None
  | MigrationRaised e =>
      e = "AttributeError" /\ Dict.mem "proof_file" v = false
      /\ is_JStr (legacy_title v) = false
  | Migrated _ _ =>
      Dict.mem "proof_file" v = true \/ is_JStr (legacy_title v) = true
  end.
Proof.
  destruct (migrate_entry_cases fuel d v) as [[-> H]|H]; [exact H|].
  destruct H as (v1 & v2 & v3 & v4 & v5 & n1 & n2 & n3 & n4 & n5
                 & S1 & S2 & S3 & S4 & S5 & S6).
  pose proof (legacy_title_renamed _ _ _ _ S4) as L4.
  apply coadmin_stage_spec in S1. destruct S1 as (G1 & _).
  apply admin_stage_spec in S2. destruct S2 as (G2 & _).
  apply rename_key_other in S3. destruct S3 as (G3 & _).
  apply rename_key_other in S4. destruct S4 as (G4 & _).
  apply rename_key_other in S5. destruct S5 as (G5 & _).
  assert (Epf : Dict.mem "proof_file" v5 = Dict.mem "proof_file" v).
  { apply mem_get_eq. rewrite G5, G4, G3, G2, G1 by discriminate.
    reflexivity. }
  assert (Et : legacy_title v5 = legacy_title v).
  { transitivity (legacy_title v4).
    - unfold legacy_title, py_get. now rewrite !G5 by discriminate.
    - rewrite L4. unfold legacy_title, py_get.
      now rewrite !G3, !G2, !G1 by discriminate. }
  rewrite Epf, Et in S6.
  destruct (migrate_entry fuel d v); [contradiction|exact S6..].
Qed.

(** A legacy record whose task is null stops the script at start-up. *)
Example migration_raises_on_null_task :
  migrate_entry 5 sample_data untitled_record
  = MigrationRaised "AttributeError".
Proof. vm_compute. reflexivity. Qed.
